(** * PipelineState: the state store of the call-analysis pipeline

    A shallow embedding of [class PipelineState] (lib/pipeline-state, the
    second document of src/stages/5_analyze/analyze_and_upload.js) and the
    properties its specification states about it.

    Layout of the development:
    - JavaScript values and ordinary objects (own properties, in the order
      [Object.keys] lists them);
    - [JSON.stringify (v, null, 2)] and [JSON.parse] on texts;
    - the state document of the class and its JSON image;
    - the environment (disk, directories, clock, console) and the monad
      the methods run in;
    - the methods of the class, in source order;
    - sequences of calls on the class, and what the stage scripts and the
      status tool do with file names, the audio URL log, replies, broker
      ids and the figures of the class;
    - the properties.

    Modelling boundaries.  Numbers are integers ([Z]): every number the
    store writes is a count, and doubles are exact on counts below 2^53;
    the one place where the source divides, [getProcessingStats], is
    computed on binary64 floats.  Strings are byte strings (the UTF-8 image
    of the JavaScript string).  Objects are trees, without sharing, and have
    own properties only: a prototype installed by assigning to [__proto__]
    is not represented.  The file system names a file by the spelling of
    its path and holds regular files and directories only; its operations
    do not fail for what stands in their way.  A theorem that depends on
    this states, as a hypothesis, the paths and the store it is about
    ([normalised], [tidy], [free_path], [store_at]); one that depends on
    the counts being exact as doubles states their bounds
    ([counts_exact]). *)

From Stdlib Require Import ZArith String Ascii List Bool Lia Floats.
From stdpp Require Import gmap strings.
Import ListNotations.

Local Open Scope string_scope.
Local Open Scope list_scope.
Local Open Scope Z_scope.

(** ** JavaScript values *)

Unset Elimination Schemes.
Inductive value : Type :=
| VUndefined
| VNull
| VBool (b : bool)
| VNum (n : Z)
| VStr (s : string)
| VArr (elems : list value)
| VObj (props : list (string * value)).
Set Elimination Schemes.

(** ** Ordinary objects

    An object used as a map is the list of its own properties in the
    order of [OrdinaryOwnPropertyKeys]: array indices first, in ascending
    numeric order, then the other string keys in creation order. *)

Definition obj (V : Type) : Type := list (string * V).

Definition is_digit (c : ascii) : bool :=
  ((48 <=? nat_of_ascii c) && (nat_of_ascii c <=? 57))%nat.

Definition digit_value (c : ascii) : Z := Z.of_nat (nat_of_ascii c) - 48.

Fixpoint digits_value (acc : Z) (s : string) : option Z :=
  match s with
  | EmptyString => Some acc
  | String c r =>
      if is_digit c then digits_value (10 * acc + digit_value c) r else None
  end.

(** [array_index k]: [k] is the canonical decimal form of an integer in
    [0, 2^32 - 2]. *)
Definition array_index (k : string) : option Z :=
  match k with
  | EmptyString => None
  | String c r =>
      if (Ascii.eqb c "0" && negb (String.eqb r ""))%bool then None
      else match digits_value 0 k with
           | Some n => if n <? 2 ^ 32 - 1 then Some n else None
           | None => None
           end
  end.

Section Objects.
Context {V : Type}.

(** [o[k]], own properties only. *)
Fixpoint obj_get (k : string) (o : obj V) : option V :=
  match o with
  | [] => None
  | (k', v) :: r => if String.eqb k' k then Some v else obj_get k r
  end.

(** [o.hasOwnProperty(k)] *)
Definition obj_has (k : string) (o : obj V) : bool :=
  match obj_get k o with Some _ => true | None => false end.

(** [Object.keys(o)] and [Object.values(o)] *)
Definition obj_keys (o : obj V) : list string := map fst o.
Definition obj_values (o : obj V) : list V := map snd o.

Fixpoint obj_update (k : string) (v : V) (o : obj V) : obj V :=
  match o with
  | [] => []
  | (k', v') :: r =>
      if String.eqb k' k then (k', v) :: r else (k', v') :: obj_update k v r
  end.

(** A new array-index key goes before the first key that is not a
    smaller array index. *)
Fixpoint obj_place (n : Z) (k : string) (v : V) (o : obj V) : obj V :=
  match o with
  | [] => [(k, v)]
  | (k', v') :: r =>
      match array_index k' with
      | Some m => if m <? n then (k', v') :: obj_place n k v r
                  else (k, v) :: o
      | None => (k, v) :: o
      end
  end.

(** [CreateDataProperty]: what [JSON.parse] and object literals do. *)
Definition obj_define (k : string) (v : V) (o : obj V) : obj V :=
  if obj_has k o then obj_update k v o
  else match array_index k with
       | Some n => obj_place n k v o
       | None => o ++ [(k, v)]
       end.

(** [o[k] = v].  An existing own property keeps its place.  Assigning to
    [__proto__] when it is not an own property runs the accessor
    inherited from [Object.prototype] and creates no own property. *)
Definition obj_set (k : string) (v : V) (o : obj V) : obj V :=
  if (negb (obj_has k o) && String.eqb k "__proto__")%bool then o
  else obj_define k v o.

(** [delete o[k]] *)
Definition obj_delete (k : string) (o : obj V) : obj V :=
  List.filter (fun p => negb (String.eqb (fst p) k)) o.

(** [Object.keys(o).forEach(k => { delete o[k]; })] *)
Definition obj_clear (o : obj V) : obj V :=
  fold_left (fun acc k => obj_delete k acc) (obj_keys o) o.
End Objects.

(** [new Set()] filled by [add] and read back by [Array.from]: insertion
    order, first occurrence kept. *)
Definition set_add (x : string) (s : list string) : list string :=
  if existsb (String.eqb x) s then s else s ++ [x].

(** ** JSON texts

    [JSON.stringify (v, null, 2)] after ECMA-262 (SerializeJSONProperty,
    SerializeJSONObject, SerializeJSONArray, QuoteJSONString) with the gap
    of two spaces, and [JSON.parse]. *)

Definition dquote : ascii := "034"%char.
Definition backslash : ascii := "092"%char.
Definition char_code (c : ascii) : Z := Z.of_N (N_of_ascii c).
Definition char_of_code (n : Z) : ascii := ascii_of_N (Z.to_N n).

Definition hex_digit (n : Z) : ascii :=
  if n <? 10 then char_of_code (48 + n) else char_of_code (87 + n).

(** One character of a quoted string: the two-character escapes of the
    table, [\u00xx] for the other control characters, the character
    itself otherwise. *)
Definition quote_char (c : ascii) : string :=
  let n := char_code c in
  if n =? 8 then String backslash "b"
  else if n =? 9 then String backslash "t"
  else if n =? 10 then String backslash "n"
  else if n =? 12 then String backslash "f"
  else if n =? 13 then String backslash "r"
  else if n =? 34 then String backslash (String dquote "")
  else if n =? 92 then String backslash (String backslash "")
  else if n <? 32 then
    String backslash
      (String "u" (String "0" (String "0"
         (String (hex_digit (n / 16)) (String (hex_digit (n mod 16)) "")))))
  else String c "".

Fixpoint quote_chars (s : string) : string :=
  match s with
  | EmptyString => String dquote ""
  | String c r => quote_char c +:+ quote_chars r
  end.

Definition QuoteJSONString (s : string) : string :=
  String dquote (quote_chars s).

(** Decimal digits of a non-negative integer, most significant first. *)
Fixpoint decimal_digits (fuel : nat) (n : Z) (acc : string) : string :=
  let acc' := String (char_of_code (48 + n mod 10)) acc in
  match fuel with
  | O => acc'
  | S f => if n <? 10 then acc' else decimal_digits f (n / 10) acc'
  end.

(** [Number::toString] on an integer. *)
Definition Number_toString (n : Z) : string :=
  if n <? 0 then String "-" (decimal_digits (Z.to_nat (Z.log2 (- n))) (- n) "")
  else decimal_digits (Z.to_nat (Z.log2 n)) n "".

Fixpoint join (sep : string) (items : list string) : string :=
  match items with
  | [] => ""
  | [x] => x
  | x :: r => x +:+ sep +:+ join sep r
  end.

Definition newline : string := String (char_of_code 10) "".
Definition gap : string := "  ".

(** The text of a non-empty or empty bracketed sequence, at the
    indentation [stepback] of the holder. *)
Definition bracketed (open close stepback : string) (partial : list string)
  : string :=
  match partial with
  | [] => open +:+ close
  | _ =>
      let indent := stepback +:+ gap in
      open +:+ newline +:+ indent
        +:+ join ("," +:+ newline +:+ indent) partial
        +:+ newline +:+ stepback +:+ close
  end.

(** [SerializeJSONProperty]: [None] is the [undefined] result. *)
Fixpoint SerializeJSONProperty (stepback : string) (v : value) : option string :=
  match v with
  | VUndefined => None
  | VNull => Some "null"
  | VBool true => Some "true"
  | VBool false => Some "false"
  | VNum n => Some (Number_toString n)
  | VStr s => Some (QuoteJSONString s)
  | VArr elems =>
      let indent := stepback +:+ gap in
      Some (bracketed "[" "]" stepback
        ((fix elements (l : list value) : list string :=
            match l with
            | [] => []
            | e :: r =>
                match SerializeJSONProperty indent e with
                | Some t => t :: elements r
                | None => "null" :: elements r
                end
            end) elems))
  | VObj props =>
      let indent := stepback +:+ gap in
      Some (bracketed "{" "}" stepback
        ((fix members (l : list (string * value)) : list string :=
            match l with
            | [] => []
            | (k, e) :: r =>
                match SerializeJSONProperty indent e with
                | Some t => (QuoteJSONString k +:+ ": " +:+ t) :: members r
                | None => members r
                end
            end) props))
  end.

Definition JSON_stringify (v : value) : option string :=
  SerializeJSONProperty "" v.

(** The result of reading a JSON construct off the front of a text.
    [PUnmodelled] marks the texts this development gives no meaning to:
    numbers with a fraction or an exponent, [\u] escapes beyond ASCII, and
    an exhausted recursion budget. *)
Inductive presult (A : Type) : Type :=
| POk (a : A) (rest : string)
| PSyntaxError
| PUnmodelled.
Arguments POk {A} a rest.
Arguments PSyntaxError {A}.
Arguments PUnmodelled {A}.

Definition pbind {A B : Type} (r : presult A) (k : A -> string -> presult B)
  : presult B :=
  match r with
  | POk a rest => k a rest
  | PSyntaxError => PSyntaxError
  | PUnmodelled => PUnmodelled
  end.

Definition is_ws (c : ascii) : bool :=
  let n := char_code c in
  (n =? 32) || (n =? 9) || (n =? 10) || (n =? 13).

Fixpoint skip_ws (s : string) : string :=
  match s with
  | EmptyString => ""
  | String c r => if is_ws c then skip_ws r else s
  end.

Definition hex_value (c : ascii) : option Z :=
  let n := char_code c in
  if (48 <=? n) && (n <=? 57) then Some (n - 48)
  else if (97 <=? n) && (n <=? 102) then Some (n - 87)
  else if (65 <=? n) && (n <=? 70) then Some (n - 55)
  else None.

Definition hex4 (a b c d : ascii) : option Z :=
  match hex_value a, hex_value b, hex_value c, hex_value d with
  | Some x, Some y, Some z, Some w => Some (((x * 16 + y) * 16 + z) * 16 + w)
  | _, _, _, _ => None
  end.

(** The character a two-character escape stands for. *)
Definition unescape (e : ascii) : option ascii :=
  let n := char_code e in
  if n =? 34 then Some dquote
  else if n =? 92 then Some backslash
  else if n =? 47 then Some "/"%char
  else if n =? 98 then Some (char_of_code 8)
  else if n =? 102 then Some (char_of_code 12)
  else if n =? 110 then Some (char_of_code 10)
  else if n =? 114 then Some (char_of_code 13)
  else if n =? 116 then Some (char_of_code 9)
  else None.

(** The characters of a string literal, after its opening quote. *)
Fixpoint parse_chars (s : string) : presult string :=
  match s with
  | EmptyString => PSyntaxError
  | String c r =>
      if Ascii.eqb c dquote then POk "" r
      else if Ascii.eqb c backslash then
        match r with
        | String "u" (String h1 (String h2 (String h3 (String h4 r')))) =>
            match hex4 h1 h2 h3 h4 with
            | Some n =>
                if n <? 128 then
                  pbind (parse_chars r')
                    (fun t rest => POk (String (char_of_code n) t) rest)
                else PUnmodelled
            | None => PSyntaxError
            end
        | String e r' =>
            match unescape e with
            | Some c' =>
                pbind (parse_chars r') (fun t rest => POk (String c' t) rest)
            | None => PSyntaxError
            end
        | EmptyString => PSyntaxError
        end
      else if char_code c <? 32 then PSyntaxError
      else pbind (parse_chars r) (fun t rest => POk (String c t) rest)
  end.

(** A run of decimal digits. *)
Fixpoint parse_digits (acc : Z) (s : string) : Z * string :=
  match s with
  | EmptyString => (acc, "")
  | String c r =>
      if is_digit c then parse_digits (10 * acc + digit_value c) r
      else (acc, s)
  end.

Definition starts_fraction_or_exponent (s : string) : bool :=
  match s with
  | String c _ =>
      Ascii.eqb c "."%char || Ascii.eqb c "e"%char || Ascii.eqb c "E"%char
  | EmptyString => false
  end.

(** The integer part of a number, after the optional minus sign: [0], or
    a non-zero digit followed by digits. *)
Definition parse_int (s : string) : presult Z :=
  match s with
  | String c r =>
      if negb (is_digit c) then PSyntaxError
      else
        let '(n, rest) :=
          if Ascii.eqb c "0"%char then (0, r) else parse_digits 0 s in
        if starts_fraction_or_exponent rest then PUnmodelled
        else match rest with
             | String d _ => if is_digit d then PSyntaxError else POk n rest
             | EmptyString => POk n rest
             end
  | EmptyString => PSyntaxError
  end.

Definition parse_number (s : string) : presult Z :=
  match s with
  | String c r =>
      if Ascii.eqb c "-"%char
      then pbind (parse_int r) (fun n rest => POk (- n) rest)
      else parse_int s
  | EmptyString => PSyntaxError
  end.

Fixpoint strip_prefix (p s : string) : option string :=
  match p, s with
  | EmptyString, _ => Some s
  | String a p', String b s' => if Ascii.eqb a b then strip_prefix p' s' else None
  | String _ _, EmptyString => None
  end.

Definition parse_literal (lit : string) (v : value) (s : string)
  : presult value :=
  match strip_prefix lit s with
  | Some rest => POk v rest
  | None => PSyntaxError
  end.

(** The next character that is not white space is [c]. *)
Definition next_is (c : ascii) (s : string) : option string :=
  match skip_ws s with
  | String c' rest => if Ascii.eqb c' c then Some rest else None
  | EmptyString => None
  end.

(** Values, the members of an object after its first brace and the
    elements of an array after its first bracket.  [fuel] bounds the depth
    of the calls. *)
Fixpoint parse_value (fuel : nat) (s : string) : presult value :=
  match fuel with
  | O => PUnmodelled
  | S f =>
      match skip_ws s with
      | EmptyString => PSyntaxError
      | String c r =>
          if Ascii.eqb c "{"%char then
            match next_is "}" r with
            | Some rest => POk (VObj []) rest
            | None => parse_members f [] r
            end
          else if Ascii.eqb c "["%char then
            match next_is "]" r with
            | Some rest => POk (VArr []) rest
            | None => parse_elements f [] r
            end
          else if Ascii.eqb c dquote then
            pbind (parse_chars r) (fun t rest => POk (VStr t) rest)
          else if Ascii.eqb c "t"%char then
            parse_literal "true" (VBool true) (String c r)
          else if Ascii.eqb c "f"%char then
            parse_literal "false" (VBool false) (String c r)
          else if Ascii.eqb c "n"%char then
            parse_literal "null" VNull (String c r)
          else
            pbind (parse_number (String c r)) (fun n rest => POk (VNum n) rest)
      end
  end
with parse_members (fuel : nat) (acc : obj value) (s : string)
  : presult value :=
  match fuel with
  | O => PUnmodelled
  | S f =>
      match next_is dquote s with
      | None => PSyntaxError
      | Some r =>
          pbind (parse_chars r) (fun k s1 =>
            match next_is ":" s1 with
            | None => PSyntaxError
            | Some s2 =>
                pbind (parse_value f s2) (fun v s3 =>
                  let acc' := obj_define k v acc in
                  match next_is "," s3 with
                  | Some s4 => parse_members f acc' s4
                  | None =>
                      match next_is "}" s3 with
                      | Some s4 => POk (VObj acc') s4
                      | None => PSyntaxError
                      end
                  end)
            end)
      end
  end
with parse_elements (fuel : nat) (acc : list value) (s : string)
  : presult value :=
  match fuel with
  | O => PUnmodelled
  | S f =>
      pbind (parse_value f s) (fun v s1 =>
        match next_is "," s1 with
        | Some s2 => parse_elements f (acc ++ [v]) s2
        | None =>
            match next_is "]" s1 with
            | Some s2 => POk (VArr (acc ++ [v])) s2
            | None => PSyntaxError
            end
        end)
  end.

(** The three outcomes of [JSON.parse]. *)
Inductive parsed : Type :=
| Parsed (v : value)
| SyntaxError
| Unmodelled.

Definition JSON_parse (text : string) : parsed :=
  match parse_value (S (String.length text)) text with
  | POk v rest =>
      match skip_ws rest with
      | EmptyString => Parsed v
      | String _ _ => SyntaxError
      end
  | PSyntaxError => SyntaxError
  | PUnmodelled => Unmodelled
  end.

(** ** The state document

    The shape [loadState] builds when there is no file: the skeleton is a
    record, the per-call maps and the lists hold the objects the methods
    store in them. *)

Record get_call_ids_record : Type := {
  processed_date_ranges : list (obj value);
  total_calls_extracted : Z;
  last_run : value
}.

Record download_audio_record : Type := {
  downloaded_files : obj (obj value);
  failed_downloads : obj (obj value);
  total_downloaded : Z
}.

Record transcribe_record : Type := {
  transcribed_files : obj (obj value);
  failed_transcriptions : obj (obj value);
  total_transcribed : Z
}.

Record upload_audio_record : Type := {
  uploaded_files : obj (obj value);
  failed_uploads : obj (obj value);
  total_uploaded : Z
}.

Record analyze_record : Type := {
  analyzed_calls : obj (obj value);
  failed_analyses : obj (obj value);
  total_analyzed : Z
}.

Record stages_record : Type := {
  get_call_ids : get_call_ids_record;
  download_audio : download_audio_record;
  transcribe : transcribe_record;
  upload_audio : upload_audio_record;
  analyze : analyze_record
}.

Record document : Type := {
  version : string;
  created : string;
  last_updated : string;
  stages : stages_record;
  archived_files : obj (list (obj value))
}.

(** The default state structure of [loadState]; [t1] and [t2] are the two
    readings of the clock. *)
Definition default_state (t1 t2 : string) : document := {|
  version := "1.0.0";
  created := t1;
  last_updated := t2;
  stages := {|
    get_call_ids := {|
      processed_date_ranges := [];
      total_calls_extracted := 0;
      last_run := VNull |};
    download_audio := {|
      downloaded_files := [];
      failed_downloads := [];
      total_downloaded := 0 |};
    transcribe := {|
      transcribed_files := [];
      failed_transcriptions := [];
      total_transcribed := 0 |};
    upload_audio := {|
      uploaded_files := [];
      failed_uploads := [];
      total_uploaded := 0 |};
    analyze := {|
      analyzed_calls := [];
      failed_analyses := [];
      total_analyzed := 0 |}
  |};
  archived_files := [("call_ids", []); ("audio", []); ("transcripts", [])]
|}.

(** Field updates. *)
Definition set_last_updated (t : string) (d : document) : document :=
  {| version := version d; created := created d; last_updated := t;
     stages := stages d; archived_files := archived_files d |}.

Definition set_stages (s : stages_record) (d : document) : document :=
  {| version := version d; created := created d;
     last_updated := last_updated d;
     stages := s; archived_files := archived_files d |}.

Definition set_archived_files (a : obj (list (obj value))) (d : document)
  : document :=
  {| version := version d; created := created d;
     last_updated := last_updated d;
     stages := stages d; archived_files := a |}.

Definition set_get_call_ids (r : get_call_ids_record) (d : document) :=
  set_stages {| get_call_ids := r;
                download_audio := download_audio (stages d);
                transcribe := transcribe (stages d);
                upload_audio := upload_audio (stages d);
                analyze := analyze (stages d) |} d.

Definition set_download_audio (r : download_audio_record) (d : document) :=
  set_stages {| get_call_ids := get_call_ids (stages d);
                download_audio := r;
                transcribe := transcribe (stages d);
                upload_audio := upload_audio (stages d);
                analyze := analyze (stages d) |} d.

Definition set_transcribe (r : transcribe_record) (d : document) :=
  set_stages {| get_call_ids := get_call_ids (stages d);
                download_audio := download_audio (stages d);
                transcribe := r;
                upload_audio := upload_audio (stages d);
                analyze := analyze (stages d) |} d.

Definition set_upload_audio (r : upload_audio_record) (d : document) :=
  set_stages {| get_call_ids := get_call_ids (stages d);
                download_audio := download_audio (stages d);
                transcribe := transcribe (stages d);
                upload_audio := r;
                analyze := analyze (stages d) |} d.

Definition set_analyze (r : analyze_record) (d : document) :=
  set_stages {| get_call_ids := get_call_ids (stages d);
                download_audio := download_audio (stages d);
                transcribe := transcribe (stages d);
                upload_audio := upload_audio (stages d);
                analyze := r |} d.

(** The document as the JavaScript object the class holds in
    [this.state]. *)
Definition objects (l : list (obj value)) : value := VArr (map VObj l).

Definition object_map (m : obj (obj value)) : value :=
  VObj (map (fun p => (fst p, VObj (snd p))) m).

Definition stage_value (successes failures total : string)
  (s f : obj (obj value)) (n : Z) : value :=
  VObj [(successes, object_map s); (failures, object_map f); (total, VNum n)].

Definition encode (d : document) : value :=
  let st := stages d in
  VObj [
    ("version", VStr (version d));
    ("created", VStr (created d));
    ("last_updated", VStr (last_updated d));
    ("stages", VObj [
       ("get_call_ids", VObj [
          ("processed_date_ranges",
             objects (processed_date_ranges (get_call_ids st)));
          ("total_calls_extracted",
             VNum (total_calls_extracted (get_call_ids st)));
          ("last_run", last_run (get_call_ids st))]);
       ("download_audio",
          stage_value "downloaded_files" "failed_downloads" "total_downloaded"
            (downloaded_files (download_audio st))
            (failed_downloads (download_audio st))
            (total_downloaded (download_audio st)));
       ("transcribe",
          stage_value "transcribed_files" "failed_transcriptions"
            "total_transcribed"
            (transcribed_files (transcribe st))
            (failed_transcriptions (transcribe st))
            (total_transcribed (transcribe st)));
       ("upload_audio",
          stage_value "uploaded_files" "failed_uploads" "total_uploaded"
            (uploaded_files (upload_audio st))
            (failed_uploads (upload_audio st))
            (total_uploaded (upload_audio st)));
       ("analyze",
          stage_value "analyzed_calls" "failed_analyses" "total_analyzed"
            (analyzed_calls (analyze st))
            (failed_analyses (analyze st))
            (total_analyzed (analyze st)))]);
    ("archived_files",
       VObj (map (fun p => (fst p, objects (snd p))) (archived_files d)))
  ].

(** The typed view of a parsed text: the inverse of [encode], defined on
    the values of exactly that shape. *)
Definition as_object (v : value) : option (obj value) :=
  match v with VObj o => Some o | _ => None end.

Fixpoint all_some {A : Type} (l : list (option A)) : option (list A) :=
  match l with
  | [] => Some []
  | Some a :: r => match all_some r with Some r' => Some (a :: r') | None => None end
  | None :: _ => None
  end.

Definition as_objects (v : value) : option (list (obj value)) :=
  match v with VArr l => all_some (map as_object l) | _ => None end.

Definition as_object_map (v : value) : option (obj (obj value)) :=
  match v with
  | VObj o =>
      all_some (map (fun p => match as_object (snd p) with
                              | Some e => Some (fst p, e)
                              | None => None
                              end) o)
  | _ => None
  end.

Fixpoint same_keys (names l : list string) : bool :=
  match names, l with
  | [], [] => true
  | a :: names', b :: l' => String.eqb a b && same_keys names' l'
  | _, _ => false
  end.

(** The property values of an object that has exactly the given keys, in
    the given order. *)
Definition fields (names : list string) (v : value) : option (list value) :=
  match v with
  | VObj o => if same_keys names (map fst o) then Some (map snd o) else None
  | _ => None
  end.

Definition decode_stage (successes failures total : string) (v : value)
  : option (obj (obj value) * obj (obj value) * Z) :=
  match fields [successes; failures; total] v with
  | Some [s; f; VNum n] =>
      match as_object_map s, as_object_map f with
      | Some s', Some f' => Some (s', f', n)
      | _, _ => None
      end
  | _ => None
  end.

Definition decode_get_call_ids (v : value) : option get_call_ids_record :=
  match fields ["processed_date_ranges"; "total_calls_extracted"; "last_run"] v with
  | Some [r; VNum n; l] =>
      match as_objects r with
      | Some r' => Some {| processed_date_ranges := r';
                           total_calls_extracted := n; last_run := l |}
      | None => None
      end
  | _ => None
  end.

Definition decode_archived_files (v : value) : option (obj (list (obj value))) :=
  match v with
  | VObj o =>
      all_some (map (fun p => match as_objects (snd p) with
                              | Some l => Some (fst p, l)
                              | None => None
                              end) o)
  | _ => None
  end.

Definition decode_stages (v : value) : option stages_record :=
  match fields ["get_call_ids"; "download_audio"; "transcribe";
                "upload_audio"; "analyze"] v with
  | Some [g; d; t; u; a] =>
      match decode_get_call_ids g,
            decode_stage "downloaded_files" "failed_downloads" "total_downloaded" d,
            decode_stage "transcribed_files" "failed_transcriptions" "total_transcribed" t,
            decode_stage "uploaded_files" "failed_uploads" "total_uploaded" u,
            decode_stage "analyzed_calls" "failed_analyses" "total_analyzed" a
      with
      | Some g', Some (ds, df, dn), Some (ts, tf, tn), Some (us, uf, un),
        Some (zs, zf, zn) =>
          Some {|
            get_call_ids := g';
            download_audio := {| downloaded_files := ds;
                                 failed_downloads := df;
                                 total_downloaded := dn |};
            transcribe := {| transcribed_files := ts;
                             failed_transcriptions := tf;
                             total_transcribed := tn |};
            upload_audio := {| uploaded_files := us;
                               failed_uploads := uf;
                               total_uploaded := un |};
            analyze := {| analyzed_calls := zs;
                          failed_analyses := zf;
                          total_analyzed := zn |} |}
      | _, _, _, _, _ => None
      end
  | _ => None
  end.

Definition decode (v : value) : option document :=
  match fields ["version"; "created"; "last_updated"; "stages";
                "archived_files"] v with
  | Some [VStr ver; VStr cr; VStr lu; st; af] =>
      match decode_stages st, decode_archived_files af with
      | Some st', Some af' =>
          Some {| version := ver; created := cr; last_updated := lu;
                  stages := st'; archived_files := af' |}
      | _, _ => None
      end
  | _ => None
  end.

(** ** The environment and the method monad *)

Inductive exn : Type :=
| TypeError (message : string)
| JSONSyntaxError (message : string)
| SystemError (code path : string).

(** [error.message]; the wording of the engine is not part of the model. *)
Definition message (e : exn) : string :=
  match e with
  | TypeError m => m
  | JSONSyntaxError m => m
  | SystemError code path => code +:+ ": " +:+ path
  end.

Inductive console_line : Type :=
| Log (text : string)
| Warn (text : string)
| Error (text : string).

(** Files with their contents, directories, the successive readings of
    the clock ([new Date().toISOString()]) and the console. *)
Record env : Type := {
  disk : gmap string string;
  dirs : gset string;
  clock : nat -> string;
  ticks : nat;
  console : list console_line
}.

(** The fields of a [PipelineState] object. *)
Record PipelineState : Type := {
  baseDir : string;
  stateFile : string;
  archiveDir : string;
  state : document
}.

Record Sys : Type := { this : PipelineState; world : env }.

(** A method call returns, throws, or leaves the model (a state file that
    [JSON_parse] does not cover or that is not of the document's shape). *)
Inductive outcome (A : Type) : Type :=
| Returns (a : A)
| Throws (e : exn)
| OutsideModel.
Arguments Returns {A} a.
Arguments Throws {A} e.
Arguments OutsideModel {A}.

Definition M (A : Type) : Type := Sys -> outcome A * Sys.

Definition ret {A : Type} (a : A) : M A := fun s => (Returns a, s).

Definition bind {A B : Type} (m : M A) (k : A -> M B) : M B :=
  fun s =>
    match m s with
    | (Returns a, s') => k a s'
    | (Throws e, s') => (Throws e, s')
    | (OutsideModel, s') => (OutsideModel, s')
    end.

Definition throw {A : Type} (e : exn) : M A := fun s => (Throws e, s).

Definition outside_model {A : Type} : M A := fun s => (OutsideModel, s).

(** [try { body } catch (error) { handler }] *)
Definition try_catch {A : Type} (body : M A) (handler : exn -> M A) : M A :=
  fun s =>
    match body s with
    | (Throws e, s') => handler e s'
    | r => r
    end.

#[global] Instance M_ret : MRet M := @ret.
#[global] Instance M_bind : MBind M := fun A B k m => bind m k.

Definition run {A : Type} (m : M A) (s : Sys) : outcome A := fst (m s).
Definition exec {A : Type} (m : M A) (s : Sys) : Sys := snd (m s).

Definition get_this : M PipelineState := fun s => (Returns (this s), s).

Definition put_this (p : PipelineState) : M unit :=
  fun s => (Returns tt, {| this := p; world := world s |}).

Definition get_state : M document := fun s => (Returns (state (this s)), s).

Definition put_state (d : document) : M unit :=
  fun s =>
    (Returns tt,
     {| this := {| baseDir := baseDir (this s);
                   stateFile := stateFile (this s);
                   archiveDir := archiveDir (this s);
                   state := d |};
        world := world s |}).

Definition modify_state (f : document -> document) : M unit :=
  d ← get_state; put_state (f d).

Definition get_world : M env := fun s => (Returns (world s), s).

Definition put_world (w : env) : M unit :=
  fun s => (Returns tt, {| this := this s; world := w |}).

(** [new Date().toISOString()] *)
Definition Date_toISOString : M string :=
  w ← get_world;
  put_world {| disk := disk w; dirs := dirs w; clock := clock w;
               ticks := S (ticks w); console := console w |} ;;
  ret (clock w (ticks w)).

Definition print_line (l : console_line) : M unit :=
  w ← get_world;
  put_world {| disk := disk w; dirs := dirs w; clock := clock w;
               ticks := ticks w; console := console w ++ [l] |}.

Definition console_log (t : string) : M unit := print_line (Log t).
Definition console_warn (t : string) : M unit := print_line (Warn t).
Definition console_error (t : string) : M unit := print_line (Error t).

Definition put_disk (m : gmap string string) : M unit :=
  w ← get_world;
  put_world {| disk := m; dirs := dirs w; clock := clock w;
               ticks := ticks w; console := console w |}.

Definition is_file (p : string) (w : env) : bool :=
  match disk w !! p with Some _ => true | None => false end.

Definition is_dir (p : string) (w : env) : bool := bool_decide (p ∈ dirs w).

Definition fs_existsSync (p : string) : M bool :=
  w ← get_world; ret (is_file p w || is_dir p w).

(** The proper prefixes of a path that end before a separator. *)
Fixpoint ancestors (before : string) (p : string) : list string :=
  match p with
  | EmptyString => []
  | String c r =>
      if Ascii.eqb c "/"%char
      then (if String.eqb before "" then [] else [before])
             ++ ancestors (before +:+ "/") r
      else ancestors (before +:+ String c "") r
  end.

(** [fs.mkdirSync(p, { recursive: true })], where no regular file stands
    at [p] or above it ([free_path], below): there it makes the directory
    and the missing ones above it.  Where a file stands in the way the
    call of the source throws, which this definition does not show. *)
Definition fs_mkdirSync (p : string) : M unit :=
  w ← get_world;
  put_world {| disk := disk w;
               dirs := dirs w ∪ list_to_set (ancestors "" p) ∪ {[ p ]};
               clock := clock w; ticks := ticks w; console := console w |}.

(** [fs.readFileSync(p, 'utf8')] *)
Definition fs_readFileSync (p : string) : M string :=
  w ← get_world;
  match disk w !! p with
  | Some text => ret text
  | None => throw (SystemError (if is_dir p w then "EISDIR" else "ENOENT") p)
  end.

(** [fs.writeFileSync(p, text)].  The disk has no permissions, links or
    devices and is never full: a write succeeds, and a rename fails exactly
    when there is no file to move.  The write of the source throws when
    [p] is a directory or lies in none, which this definition does not
    show: [store_at], below, is the store on which it cannot happen to
    the state file. *)
Definition fs_writeFileSync (p text : string) : M unit :=
  w ← get_world; put_disk (<[ p := text ]> (disk w)).

(** [fs.renameSync(from, to)] for a regular file: the file leaves [from]
    and replaces whatever [to] held; renaming a file onto itself changes
    nothing.  The source also moves directories, which this definition
    does not show: what is stated of a move that fails is stated of a
    path that is no directory. *)
Definition fs_renameSync (from to : string) : M unit :=
  w ← get_world;
  match disk w !! from with
  | Some text => put_disk (<[ to := text ]> (delete from (disk w)))
  | None => throw (SystemError "ENOENT" from)
  end.

(** [path.join] on segments that are already normalised: on a path that
    is [normalised], below, and a plain segment it is what the source
    computes; on others [path.join] also removes [.], [..] and doubled
    or final separators. *)
Definition path_join (a b : string) : string := a +:+ "/" +:+ b.

(** [path.basename]: the last non-empty segment. *)
Fixpoint basename_from (last cur : string) (p : string) : string :=
  match p with
  | EmptyString => if String.eqb cur "" then last else cur
  | String c r =>
      if Ascii.eqb c "/"%char
      then basename_from (if String.eqb cur "" then last else cur) "" r
      else basename_from last (cur +:+ String c "") r
  end.

Definition path_basename (p : string) : string := basename_from "" "" p.

(** [t.split('T')[0]] *)
Fixpoint before_T (t : string) : string :=
  match t with
  | EmptyString => ""
  | String c r => if Ascii.eqb c "T"%char then "" else String c (before_T r)
  end.

(** ** Numbers of [getProcessingStats]

    The running totals are integers; the completion rate is computed on
    binary64 floats, as the source does. *)

Definition double_of_Z (z : Z) : float :=
  SF2Prim (binary_normalize prec emax z 0 false).

Definition decimal (n : Z) : string := Number_toString n.

(** The shortest decimal significand [s] (of [k] digits) and the exponent
    [n] with [s * 10^(n-k)] rounding to the integer-valued double [x] of
    exact value [X]: the digits of [Number::toString]. *)
Definition shortest_digits (x : float) (X : Z) : Z * Z :=
  let n0 := Z.of_nat (String.length (decimal X)) in
  let try (k : Z) : option (Z * Z) :=
    let p := 10 ^ (n0 - k) in
    let lo := X / p in
    let hi := lo + 1 in
    let ok (c : Z) := PrimFloat.eqb (double_of_Z (c * p)) x in
    let up := if hi =? 10 ^ k then (10 ^ (k - 1), n0 + 1) else (hi, n0) in
    match ok lo, ok hi with
    | true, true => if X - lo * p <=? hi * p - X then Some (lo, n0) else Some up
    | true, false => Some (lo, n0)
    | false, true => Some up
    | false, false => None
    end in
  let fix search (ks : list Z) : Z * Z :=
    match ks with
    | [] => (X / 10 ^ (n0 - 17), n0)
    | k :: r => match try k with Some d => d | None => search r end
    end in
  search (map Z.of_nat (seq 1 17)).

(** [Number::toString] on an integer-valued double of at least [10^21]:
    exponential notation. *)
Definition exponential (x : float) (X : Z) : string :=
  let '(s, n) := shortest_digits x X in
  match decimal s with
  | String d EmptyString => String d "" +:+ "e+" +:+ decimal (n - 1)
  | String d r => String d "" +:+ "." +:+ r +:+ "e+" +:+ decimal (n - 1)
  | EmptyString => ""
  end.

(** [x.toFixed(1)]: the integer [n] with [n / 10] closest to [x], the
    larger one on a tie, printed with one digit after the point. *)
Definition toFixed1 (x : float) : string :=
  match Prim2SF x with
  | S754_nan => "NaN"
  | S754_infinity sign => if sign then "-Infinity" else "Infinity"
  | S754_zero _ => "0.0"
  | S754_finite sign m e =>
      let sgn := if sign then "-" else "" in
      if 0 <=? e then
        let X := Z.pos m * 2 ^ e in
        if 10 ^ 21 <=? X then sgn +:+ exponential (abs x) X
        else sgn +:+ decimal X +:+ ".0"
      else
        let d := 2 ^ (- e) in
        if 10 ^ 21 * d <=? Z.pos m then
          sgn +:+ exponential (abs x) (Z.pos m / d)
        else
          let n := (20 * Z.pos m + d) / (2 * d) in
          sgn +:+ decimal (n / 10) +:+ "." +:+ decimal (n mod 10)
  end.

(** ** The methods of [PipelineState] *)

(** [JSON.parse] as the class uses its result: as the state document. *)
Definition parse_document (text : string) : M document :=
  match JSON_parse text with
  | Parsed v =>
      match decode v with
      | Some d => ret d
      | None => outside_model
      end
  | SyntaxError => throw (JSONSyntaxError "Unexpected token in JSON")
  | Unmodelled => outside_model
  end.

(** [dirs.forEach(dir => { if (!fs.existsSync(dir)) fs.mkdirSync(dir, ..) })] *)
Fixpoint make_missing (dirs : list string) : M unit :=
  match dirs with
  | [] => ret tt
  | dir :: r =>
      present ← fs_existsSync dir;
      (if negb present then fs_mkdirSync dir else ret tt);;
      make_missing r
  end.

Definition ensureDirectories : M unit :=
  p ← get_this;
  make_missing [
    path_join (baseDir p) "logs";
    archiveDir p;
    path_join (archiveDir p) "call_ids";
    path_join (archiveDir p) "audio";
    path_join (archiveDir p) "transcripts";
    path_join (archiveDir p) "failed"
  ].

Definition loadState : M document :=
  p ← get_this;
  present ← fs_existsSync (stateFile p);
  loaded ←
    (if present : bool then
       try_catch
         (text ← fs_readFileSync (stateFile p);
          d ← parse_document text;
          ret (Some d))
         (fun error =>
            console_warn ("⚠️ Could not load pipeline state: " +:+ message error);;
            ret None)
     else ret None : M (option document));
  match loaded with
  | Some d => ret d
  | None =>
      t1 ← Date_toISOString;
      t2 ← Date_toISOString;
      ret (default_state t1 t2)
  end.

Definition constructor (base : string) : M unit :=
  p ← get_this;
  put_this {| baseDir := base;
              stateFile := path_join (path_join base "logs") "pipeline_state.json";
              archiveDir := path_join base "archive";
              state := state p |};;
  d ← loadState;
  put_state d;;
  ensureDirectories.

Definition saveState : M unit :=
  t ← Date_toISOString;
  modify_state (set_last_updated t);;
  p ← get_this;
  match JSON_stringify (encode (state p)) with
  | Some text => fs_writeFileSync (stateFile p) text
  | None => throw (TypeError "The data argument must be of type string")
  end.

(** *** Deduplication checks *)

(** [v === s] for a string [s] *)
Definition is_string (s : string) (v : option value) : bool :=
  match v with
  | Some (VStr s') => String.eqb s' s
  | _ => false
  end.

(** [m[callId]?.status === 'completed'] *)
Definition completed (callId : string) (m : obj (obj value)) : bool :=
  match obj_get callId m with
  | Some entry => is_string "completed" (obj_get "status" entry)
  | None => false
  end.

Definition isDateRangeProcessed (startDate endDate : string) (d : document)
  : bool :=
  let ranges := processed_date_ranges (get_call_ids (stages d)) in
  existsb (fun range =>
             is_string startDate (obj_get "start_date" range)
             && is_string endDate (obj_get "end_date" range)) ranges.

(** [downloaded_files.hasOwnProperty(callId)]: the method is looked up on
    the map itself, where an entry filed under [hasOwnProperty] hides the
    method of [Object.prototype]; an entry is no function, and the call
    throws. *)
Definition isCallIdExtracted (callId : string) (d : document) : outcome bool :=
  let files := downloaded_files (download_audio (stages d)) in
  if obj_has "hasOwnProperty" files
  then Throws (TypeError "downloaded_files.hasOwnProperty is not a function")
  else Returns (obj_has callId files).

Definition isAudioDownloaded (callId : string) (d : document) : bool :=
  completed callId (downloaded_files (download_audio (stages d))).

Definition isTranscribed (callId : string) (d : document) : bool :=
  completed callId (transcribed_files (transcribe (stages d))).

Definition isAudioUploaded (callId : string) (d : document) : bool :=
  completed callId (uploaded_files (upload_audio (stages d))).

Definition isAnalyzed (callId : string) (d : document) : bool :=
  completed callId (analyzed_calls (analyze (stages d))).

(** *** State updates *)

(** The total is the sum of the source where the sum is exact as a
    double ([counts_exact], below); beyond 2^53 the source rounds. *)
Definition markDateRangeProcessed (startDate endDate : string) (callCount : Z)
  : M unit :=
  t ← Date_toISOString;
  modify_state (fun d =>
    let g := get_call_ids (stages d) in
    set_get_call_ids
      {| processed_date_ranges :=
           processed_date_ranges g ++
             [[("start_date", VStr startDate); ("end_date", VStr endDate);
               ("call_count", VNum callCount); ("processed_at", VStr t)]];
         total_calls_extracted := total_calls_extracted g;
         last_run := last_run g |} d);;
  modify_state (fun d =>
    let g := get_call_ids (stages d) in
    set_get_call_ids
      {| processed_date_ranges := processed_date_ranges g;
         total_calls_extracted := total_calls_extracted g + callCount;
         last_run := last_run g |} d);;
  t' ← Date_toISOString;
  modify_state (fun d =>
    let g := get_call_ids (stages d) in
    set_get_call_ids
      {| processed_date_ranges := processed_date_ranges g;
         total_calls_extracted := total_calls_extracted g;
         last_run := VStr t' |} d);;
  saveState.

Definition markAudioDownloaded (callId : string)
  (brokerId filename filepath : value) : M unit :=
  t ← Date_toISOString;
  modify_state (fun d =>
    let r := download_audio (stages d) in
    set_download_audio
      {| downloaded_files :=
           obj_set callId
             [("status", VStr "completed"); ("broker_id", brokerId);
              ("filename", filename); ("filepath", filepath);
              ("completed_at", VStr t)]
             (downloaded_files r);
         failed_downloads := failed_downloads r;
         total_downloaded := total_downloaded r |} d);;
  modify_state (fun d =>
    let r := download_audio (stages d) in
    set_download_audio
      {| downloaded_files := downloaded_files r;
         failed_downloads := failed_downloads r;
         total_downloaded := total_downloaded r + 1 |} d);;
  saveState.

Definition markAudioDownloadFailed (callId : string) (error : value) : M unit :=
  t ← Date_toISOString;
  modify_state (fun d =>
    let r := download_audio (stages d) in
    set_download_audio
      {| downloaded_files := downloaded_files r;
         failed_downloads :=
           obj_set callId [("error", error); ("failed_at", VStr t)]
             (failed_downloads r);
         total_downloaded := total_downloaded r |} d);;
  saveState.

Definition markTranscribed (callId : string) (filename transcriptPath : value)
  : M unit :=
  t ← Date_toISOString;
  modify_state (fun d =>
    let r := transcribe (stages d) in
    set_transcribe
      {| transcribed_files :=
           obj_set callId
             [("status", VStr "completed"); ("filename", filename);
              ("transcript_path", transcriptPath); ("completed_at", VStr t)]
             (transcribed_files r);
         failed_transcriptions := failed_transcriptions r;
         total_transcribed := total_transcribed r |} d);;
  modify_state (fun d =>
    let r := transcribe (stages d) in
    set_transcribe
      {| transcribed_files := transcribed_files r;
         failed_transcriptions := failed_transcriptions r;
         total_transcribed := total_transcribed r + 1 |} d);;
  saveState.

Definition markTranscriptionFailed (callId : string) (error : value) : M unit :=
  t ← Date_toISOString;
  modify_state (fun d =>
    let r := transcribe (stages d) in
    set_transcribe
      {| transcribed_files := transcribed_files r;
         failed_transcriptions :=
           obj_set callId [("error", error); ("failed_at", VStr t)]
             (failed_transcriptions r);
         total_transcribed := total_transcribed r |} d);;
  saveState.

Definition markAudioUploaded (callId : string) (bubbleUrl : value) : M unit :=
  t ← Date_toISOString;
  modify_state (fun d =>
    let r := upload_audio (stages d) in
    set_upload_audio
      {| uploaded_files :=
           obj_set callId
             [("status", VStr "completed"); ("bubble_url", bubbleUrl);
              ("completed_at", VStr t)]
             (uploaded_files r);
         failed_uploads := failed_uploads r;
         total_uploaded := total_uploaded r |} d);;
  modify_state (fun d =>
    let r := upload_audio (stages d) in
    set_upload_audio
      {| uploaded_files := uploaded_files r;
         failed_uploads := failed_uploads r;
         total_uploaded := total_uploaded r + 1 |} d);;
  saveState.

Definition markAudioUploadFailed (callId : string) (error : value) : M unit :=
  t ← Date_toISOString;
  modify_state (fun d =>
    let r := upload_audio (stages d) in
    set_upload_audio
      {| uploaded_files := uploaded_files r;
         failed_uploads :=
           obj_set callId [("error", error); ("failed_at", VStr t)]
             (failed_uploads r);
         total_uploaded := total_uploaded r |} d);;
  saveState.

(** [analysisData.name], for the three names read by [markAnalyzed]; no
    built-in prototype defines them. *)
Definition property (name : string) (v : value) : M value :=
  match v with
  | VUndefined | VNull =>
      throw (TypeError ("Cannot read properties of undefined (reading '"
                          +:+ name +:+ "')"))
  | VObj o => ret (match obj_get name o with Some x => x | None => VUndefined end)
  | _ => ret VUndefined
  end.

Definition markAnalyzed (callId : string) (analysisData : value) : M unit :=
  sentiment ← property "sentiment" analysisData;
  success_rating ← property "success_rating" analysisData;
  call_disposition ← property "call_disposition" analysisData;
  t ← Date_toISOString;
  modify_state (fun d =>
    let r := analyze (stages d) in
    set_analyze
      {| analyzed_calls :=
           obj_set callId
             [("status", VStr "completed");
              ("analysis_summary",
                 VObj [("sentiment", sentiment);
                       ("success_rating", success_rating);
                       ("call_disposition", call_disposition)]);
              ("completed_at", VStr t)]
             (analyzed_calls r);
         failed_analyses := failed_analyses r;
         total_analyzed := total_analyzed r |} d);;
  modify_state (fun d =>
    let r := analyze (stages d) in
    set_analyze
      {| analyzed_calls := analyzed_calls r;
         failed_analyses := failed_analyses r;
         total_analyzed := total_analyzed r + 1 |} d);;
  saveState.

Definition markAnalysisFailed (callId : string) (error : value) : M unit :=
  t ← Date_toISOString;
  modify_state (fun d =>
    let r := analyze (stages d) in
    set_analyze
      {| analyzed_calls := analyzed_calls r;
         failed_analyses :=
           obj_set callId [("error", error); ("failed_at", VStr t)]
             (failed_analyses r);
         total_analyzed := total_analyzed r |} d);;
  saveState.

(** *** Archiving *)

(** [callId = null] in the parameter list *)
Definition default_null (v : value) : value :=
  match v with VUndefined => VNull | _ => v end.

Definition archiveFile (sourceFile category : string) (callId : value)
  : M (option string) :=
  try_catch
    (let filename := path_basename sourceFile in
     now ← Date_toISOString;
     let timestamp := before_T now in
     p ← get_this;
     let archivePath :=
       path_join (path_join (archiveDir p) category) timestamp in
     present ← fs_existsSync archivePath;
     (if negb present then fs_mkdirSync archivePath else ret tt);;
     let destinationFile := path_join archivePath filename in
     fs_renameSync sourceFile destinationFile;;
     d ← get_state;
     match obj_get category (archived_files d) with
     | None =>
         throw (TypeError "Cannot read properties of undefined (reading 'push')")
     | Some entries =>
         t ← Date_toISOString;
         put_state
           (set_archived_files
              (obj_update category
                 (entries ++
                    [[("call_id", default_null callId);
                      ("original_filename", VStr filename);
                      ("archive_path", VStr destinationFile);
                      ("archived_at", VStr t)]])
                 (archived_files d)) d);;
         saveState;;
         console_log ("📁 Archived: " +:+ filename +:+ " → " +:+ category
                        +:+ "/" +:+ timestamp +:+ "/");;
         ret (Some destinationFile)
     end)
    (fun error =>
       console_error ("❌ Failed to archive " +:+ sourceFile +:+ ": "
                        +:+ message error);;
       ret None).

(** *** Utilities *)

Record stats : Type := {
  stats_total_calls_extracted : Z;
  stats_audio_downloaded : Z;
  stats_transcribed : Z;
  stats_uploaded_to_bubble : Z;
  stats_analyzed : Z;
  stats_archived_files : Z;
  completion_rate : string
}.

Definition getProcessingStats (d : document) : stats :=
  let extracted := total_calls_extracted (get_call_ids (stages d)) in
  let analyzed := total_analyzed (analyze (stages d)) in
  {| stats_total_calls_extracted := extracted;
     stats_audio_downloaded := total_downloaded (download_audio (stages d));
     stats_transcribed := total_transcribed (transcribe (stages d));
     stats_uploaded_to_bubble := total_uploaded (upload_audio (stages d));
     stats_analyzed := analyzed;
     stats_archived_files :=
       Z.of_nat (length (concat (obj_values (archived_files d))));
     completion_rate :=
       if 0 <? extracted
       then toFixed1 (double_of_Z analyzed / double_of_Z extracted * 100)%float
              +:+ "%"
       else "0%" |}.

Record failed_items : Type := {
  items_failed_downloads : list string;
  items_failed_transcriptions : list string;
  items_failed_uploads : list string;
  items_failed_analyses : list string
}.

Definition getFailedItems (d : document) : failed_items :=
  {| items_failed_downloads :=
       obj_keys (failed_downloads (download_audio (stages d)));
     items_failed_transcriptions :=
       obj_keys (failed_transcriptions (transcribe (stages d)));
     items_failed_uploads := obj_keys (failed_uploads (upload_audio (stages d)));
     items_failed_analyses := obj_keys (failed_analyses (analyze (stages d))) |}.

(** The baseline of [getCallsForProcessing]: the set [allCalls]. *)
Definition allCalls (d : document) : list string :=
  let files := downloaded_files (download_audio (stages d)) in
  fold_left
    (fun calls callId => if completed callId files then set_add callId calls
                         else calls)
    (obj_keys files) [].

Definition getCallsForProcessing (stage : string) (d : document)
  : list string :=
  if String.eqb stage "transcribe" then
    List.filter (fun callId => negb (isTranscribed callId d)) (allCalls d)
  else if String.eqb stage "upload_audio" then
    List.filter (fun callId => negb (isAudioUploaded callId d)) (allCalls d)
  else if String.eqb stage "analyze" then
    List.filter (fun callId => isTranscribed callId d && isAudioUploaded callId d
                               && negb (isAnalyzed callId d)) (allCalls d)
  else allCalls d.

(** [this.state.stages[stage]] followed by [.field], for the four field
    names [retryFailed] probes: the failure map when the record of that
    stage has this field, [None] for [undefined]. *)
Definition stage_field (stage field : string) (d : document)
  : option (obj (obj value)) :=
  if String.eqb stage "download_audio" && String.eqb field "failed_downloads"
  then Some (failed_downloads (download_audio (stages d)))
  else if String.eqb stage "transcribe" && String.eqb field "failed_transcriptions"
  then Some (failed_transcriptions (transcribe (stages d)))
  else if String.eqb stage "upload_audio" && String.eqb field "failed_uploads"
  then Some (failed_uploads (upload_audio (stages d)))
  else if String.eqb stage "analyze" && String.eqb field "failed_analyses"
  then Some (failed_analyses (analyze (stages d)))
  else None.

Definition put_stage_field (stage field : string) (m : obj (obj value))
  (d : document) : document :=
  if String.eqb stage "download_audio" && String.eqb field "failed_downloads"
  then let r := download_audio (stages d) in
       set_download_audio {| downloaded_files := downloaded_files r;
                             failed_downloads := m;
                             total_downloaded := total_downloaded r |} d
  else if String.eqb stage "transcribe" && String.eqb field "failed_transcriptions"
  then let r := transcribe (stages d) in
       set_transcribe {| transcribed_files := transcribed_files r;
                         failed_transcriptions := m;
                         total_transcribed := total_transcribed r |} d
  else if String.eqb stage "upload_audio" && String.eqb field "failed_uploads"
  then let r := upload_audio (stages d) in
       set_upload_audio {| uploaded_files := uploaded_files r;
                           failed_uploads := m;
                           total_uploaded := total_uploaded r |} d
  else if String.eqb stage "analyze" && String.eqb field "failed_analyses"
  then let r := analyze (stages d) in
       set_analyze {| analyzed_calls := analyzed_calls r;
                      failed_analyses := m;
                      total_analyzed := total_analyzed r |} d
  else d.

(** [if (stageData && stageData.field) { Object.keys(..).forEach(delete) }] *)
Definition clear_failures (stage field : string) (d : document) : document :=
  match stage_field stage field d with
  | Some m => put_stage_field stage field (obj_clear m) d
  | None => d
  end.

Definition clear_if_present (stage field : string) : M unit :=
  modify_state (clear_failures stage field).

Definition retryFailed (stage : string) : M unit :=
  clear_if_present stage "failed_downloads";;
  clear_if_present stage "failed_transcriptions";;
  clear_if_present stage "failed_uploads";;
  clear_if_present stage "failed_analyses";;
  saveState.


(** ** Vocabulary of the properties *)

(** The stages that keep a failure map, and that map by the stage's name. *)
Definition stage_names : list string :=
  ["download_audio"; "transcribe"; "upload_audio"; "analyze"].

Definition failure_map (stage : string) (d : document) : obj (obj value) :=
  if String.eqb stage "download_audio"
  then failed_downloads (download_audio (stages d))
  else if String.eqb stage "transcribe"
  then failed_transcriptions (transcribe (stages d))
  else if String.eqb stage "upload_audio"
  then failed_uploads (upload_audio (stages d))
  else if String.eqb stage "analyze"
  then failed_analyses (analyze (stages d))
  else [].

(** The document a method call leaves in [this.state]. *)
Definition state_after {A : Type} (m : M A) (s : Sys) : document :=
  state (this (exec m s)).

(** A newly constructed [PipelineState] on an empty disk, for the concrete
    scenarios: the [n]-th reading of the clock is [n] seconds into
    2025-01-01. *)
Definition example_clock (n : nat) : string :=
  "2025-01-01T00:00:" +:+ Number_toString (Z.of_nat n) +:+ ".000Z".

Definition blank : Sys := {|
  this := {| baseDir := ""; stateFile := ""; archiveDir := "";
             state := default_state "" "" |};
  world := {| disk := ∅; dirs := ∅; clock := example_clock; ticks := 0;
              console := [] |}
|}.

Definition fresh : Sys := exec (constructor "/data") blank.

(** The pieces of an [archiveFile] call: the destination of the move, for
    the date the clock shows at the call, and the record of the move. *)
Definition archive_destination (s : Sys) (sourceFile category : string)
  : string :=
  path_join
    (path_join (path_join (archiveDir (this s)) category)
       (before_T (clock (world s) (ticks (world s)))))
    (path_basename sourceFile).

Definition archive_entry (s : Sys) (sourceFile category : string)
  (callId : value) : obj value :=
  [("call_id", default_null callId);
   ("original_filename", VStr (path_basename sourceFile));
   ("archive_path", VStr (archive_destination s sourceFile category));
   ("archived_at", VStr (clock (world s) (S (ticks (world s)))))].

(** The documents [JSON.stringify] and [JSON.parse] carry over
    unchanged: no [undefined] anywhere below the top, and the properties
    of every object in own-property order (array indices ascending, then
    the other keys, none twice), which is the order of every object the
    methods build. *)
Fixpoint distinct (ks : list string) : bool :=
  match ks with
  | [] => true
  | k :: r => negb (existsb (String.eqb k) r) && distinct r
  end.

Definition not_index (k : string) : bool :=
  match array_index k with Some _ => false | None => true end.

Fixpoint property_order (lower : Z) (ks : list string) : bool :=
  match ks with
  | [] => true
  | k :: r =>
      match array_index k with
      | Some n => (lower <=? n) && property_order (n + 1) r
      | None => forallb not_index r && distinct ks
      end
  end.

Fixpoint json_value (v : value) : bool :=
  match v with
  | VUndefined => false
  | VNull | VBool _ | VNum _ | VStr _ => true
  | VArr elems => forallb json_value elems
  | VObj props =>
      property_order 0 (map fst props)
      && forallb (fun p => json_value (snd p)) props
  end.

(** The document can be stored: its JavaScript object is such a value. *)
Definition storable (d : document) : bool := json_value (encode d).

(** The number of values in a value, a bound on the depth of the calls
    that parse its text. *)
Fixpoint value_size (v : value) : nat :=
  match v with
  | VArr elems =>
      S ((fix sum (l : list value) : nat :=
            match l with
            | [] => O
            | e :: r => S (value_size e + sum r)
            end) elems)
  | VObj props =>
      S ((fix sum (l : list (string * value)) : nat :=
            match l with
            | [] => O
            | (_, e) :: r => S (value_size e + sum r)
            end) props)
  | _ => 1%nat
  end.

(** The texts of the elements of an array and of the members of an
    object, as [SerializeJSONProperty] lists them. *)
Fixpoint serialized_elements (indent : string) (l : list value) : list string :=
  match l with
  | [] => []
  | e :: r =>
      match SerializeJSONProperty indent e with
      | Some t => t :: serialized_elements indent r
      | None => "null" :: serialized_elements indent r
      end
  end.

Fixpoint serialized_members (indent : string) (l : list (string * value))
  : list string :=
  match l with
  | [] => []
  | (k, e) :: r =>
      match SerializeJSONProperty indent e with
      | Some t =>
          (QuoteJSONString k +:+ ": " +:+ t) :: serialized_members indent r
      | None => serialized_members indent r
      end
  end.

(** White space only, and a text on which a number may end. *)
Fixpoint blank_string (w : string) : bool :=
  match w with
  | EmptyString => true
  | String c r => is_ws c && blank_string r
  end.

Definition ends_number (rest : string) : bool :=
  match rest with
  | EmptyString => true
  | String c _ =>
      negb (is_digit c) && negb (starts_fraction_or_exponent rest)
  end.

(** The sizes of the elements of an array and of the members of an
    object. *)
Fixpoint elements_size (l : list value) : nat :=
  match l with
  | [] => O
  | e :: r => S (value_size e + elements_size r)
  end.

Fixpoint members_size (l : list (string * value)) : nat :=
  match l with
  | [] => O
  | (_, e) :: r => S (value_size e + members_size r)
  end.

(** A text that opens a value: its first character is neither white
    space nor a closing bracket. *)
Definition starts_value (text : string) : bool :=
  match text with
  | String c _ => negb (is_ws c) && negb (Ascii.eqb c "]")
  | EmptyString => false
  end.

(** The items of a bracketed sequence from the first item on: each item
    but the last is followed by a comma and the line lead, the last by
    [tail]. *)
Fixpoint items_text (lead : string) (items : list string) (tail : string)
  : string :=
  match items with
  | [] => tail
  | [t] => t +:+ tail
  | t :: r => t +:+ String "," (lead +:+ items_text lead r tail)
  end.

(** [v] reads back: at every indentation and before every text on which
    a number may end, parsing the text of [v] yields [v] and leaves the
    rest. *)
Definition reads_back (v : value) : Prop :=
  json_value v = true ->
  forall (stepback text rest : string) (fuel : nat),
    blank_string stepback = true ->
    SerializeJSONProperty stepback v = Some text ->
    (value_size v <= fuel)%nat ->
    ends_number rest = true ->
    parse_value fuel (text +:+ rest) = POk v rest.

(** The parts of a storable document: a map from call ids to entries, a
    list of records, and the archive lists by category. *)
Definition json_entries (m : obj (obj value)) : bool :=
  json_value (object_map m).

Definition json_records (l : list (obj value)) : bool :=
  json_value (objects l).

Definition json_archive (a : obj (list (obj value))) : bool :=
  json_value (VObj (map (fun p => (fst p, objects (snd p))) a)).

(** ** Sequences of calls

    The calls that change the store, as data: what a stage script or the
    status tool does to a [PipelineState] object is a list of them, made
    in order. *)
Inductive update : Type :=
| MarkDateRangeProcessed (startDate endDate : string) (callCount : Z)
| MarkAudioDownloaded (callId : string) (brokerId filename filepath : value)
| MarkAudioDownloadFailed (callId : string) (error : value)
| MarkTranscribed (callId : string) (filename transcriptPath : value)
| MarkTranscriptionFailed (callId : string) (error : value)
| MarkAudioUploaded (callId : string) (bubbleUrl : value)
| MarkAudioUploadFailed (callId : string) (error : value)
| MarkAnalyzed (callId : string) (analysisData : value)
| MarkAnalysisFailed (callId : string) (error : value)
| ArchiveFile (sourceFile category : string) (callId : value)
| RetryFailed (stage : string).

Definition perform (u : update) : M unit :=
  match u with
  | MarkDateRangeProcessed startDate endDate callCount =>
      markDateRangeProcessed startDate endDate callCount
  | MarkAudioDownloaded callId brokerId filename filepath =>
      markAudioDownloaded callId brokerId filename filepath
  | MarkAudioDownloadFailed callId error => markAudioDownloadFailed callId error
  | MarkTranscribed callId filename transcriptPath =>
      markTranscribed callId filename transcriptPath
  | MarkTranscriptionFailed callId error => markTranscriptionFailed callId error
  | MarkAudioUploaded callId bubbleUrl => markAudioUploaded callId bubbleUrl
  | MarkAudioUploadFailed callId error => markAudioUploadFailed callId error
  | MarkAnalyzed callId analysisData => markAnalyzed callId analysisData
  | MarkAnalysisFailed callId error => markAnalysisFailed callId error
  | ArchiveFile sourceFile category callId =>
      _ ← archiveFile sourceFile category callId; ret tt
  | RetryFailed stage => retryFailed stage
  end.

Fixpoint perform_all (us : list update) : M unit :=
  match us with
  | [] => ret tt
  | u :: r => perform u;; perform_all r
  end.

(** The success map of a stage, by the stage's name. *)
Definition success_map (stage : string) (d : document) : obj (obj value) :=
  if String.eqb stage "download_audio"
  then downloaded_files (download_audio (stages d))
  else if String.eqb stage "transcribe"
  then transcribed_files (transcribe (stages d))
  else if String.eqb stage "upload_audio"
  then uploaded_files (upload_audio (stages d))
  else if String.eqb stage "analyze"
  then analyzed_calls (analyze (stages d))
  else [].

(** The running total of a stage. *)
Definition running_total (stage : string) (d : document) : Z :=
  if String.eqb stage "download_audio"
  then total_downloaded (download_audio (stages d))
  else if String.eqb stage "transcribe"
  then total_transcribed (transcribe (stages d))
  else if String.eqb stage "upload_audio"
  then total_uploaded (upload_audio (stages d))
  else if String.eqb stage "analyze"
  then total_analyzed (analyze (stages d))
  else 0.

(** The call is the success mark, or the failure mark, of a stage. *)
Definition success_of (stage : string) (u : update) : option string :=
  match u with
  | MarkAudioDownloaded callId _ _ _ =>
      if String.eqb stage "download_audio" then Some callId else None
  | MarkTranscribed callId _ _ =>
      if String.eqb stage "transcribe" then Some callId else None
  | MarkAudioUploaded callId _ =>
      if String.eqb stage "upload_audio" then Some callId else None
  | MarkAnalyzed callId _ =>
      if String.eqb stage "analyze" then Some callId else None
  | _ => None
  end.

Definition failure_of (stage : string) (u : update) : option string :=
  match u with
  | MarkAudioDownloadFailed callId _ =>
      if String.eqb stage "download_audio" then Some callId else None
  | MarkTranscriptionFailed callId _ =>
      if String.eqb stage "transcribe" then Some callId else None
  | MarkAudioUploadFailed callId _ =>
      if String.eqb stage "upload_audio" then Some callId else None
  | MarkAnalysisFailed callId _ =>
      if String.eqb stage "analyze" then Some callId else None
  | _ => None
  end.

Definition is_call (callId : string) (c : option string) : bool :=
  match c with Some c' => String.eqb c' callId | None => false end.

Definition is_some {A : Type} (c : option A) : bool :=
  match c with Some _ => true | None => false end.

Definition retries (stage : string) (u : update) : bool :=
  match u with RetryFailed stage' => String.eqb stage' stage | _ => false end.

(** The call id an update files an entry under, if any. *)
Definition filed_under (u : update) : option string :=
  match u with
  | MarkAudioDownloaded callId _ _ _ | MarkAudioDownloadFailed callId _
  | MarkTranscribed callId _ _ | MarkTranscriptionFailed callId _
  | MarkAudioUploaded callId _ | MarkAudioUploadFailed callId _
  | MarkAnalyzed callId _ | MarkAnalysisFailed callId _ => Some callId
  | _ => None
  end.

(** A call that completes: no entry is filed under [__proto__] (the
    prototype it would install is outside the model), and the analysis
    handed to [markAnalyzed] is neither [null] nor [undefined], on which
    reading a property throws. *)
Definition plain (u : update) : bool :=
  negb (is_call "__proto__" (filed_under u))
  && match u with
     | MarkAnalyzed _ VUndefined | MarkAnalyzed _ VNull => false
     | _ => true
     end.

(** A call whose arguments JSON carries over unchanged; for
    [markAnalyzed], an analysis object that has the three properties the
    method reads. *)
Definition json_field (name : string) (o : obj value) : bool :=
  match obj_get name o with Some v => json_value v | None => false end.

Definition json_update (u : update) : bool :=
  match u with
  | MarkDateRangeProcessed _ _ _ => true
  | MarkAudioDownloaded _ brokerId filename filepath =>
      json_value brokerId && json_value filename && json_value filepath
  | MarkTranscribed _ filename transcriptPath =>
      json_value filename && json_value transcriptPath
  | MarkAudioUploaded _ bubbleUrl => json_value bubbleUrl
  | MarkAnalyzed _ (VObj analysis) =>
      json_field "sentiment" analysis && json_field "success_rating" analysis
      && json_field "call_disposition" analysis
  | MarkAnalyzed _ _ => false
  | MarkAudioDownloadFailed _ error | MarkTranscriptionFailed _ error
  | MarkAudioUploadFailed _ error | MarkAnalysisFailed _ error =>
      json_value error
  | ArchiveFile _ _ callId => json_value (default_null callId)
  | RetryFailed _ => true
  end.

(** [analysisData.name] on a value that is neither [null] nor
    [undefined]. *)
Definition analysis_field (name : string) (analysisData : value) : value :=
  match analysisData with
  | VObj o => match obj_get name o with Some x => x | None => VUndefined end
  | _ => VUndefined
  end.

(** What an update adds to the number of calls extracted. *)
Definition call_count (u : update) : Z :=
  match u with MarkDateRangeProcessed _ _ callCount => callCount | _ => 0 end.

(** The call ends by saving the state, whatever the disk holds. *)
Definition saves (u : update) : bool :=
  match u with ArchiveFile _ _ _ => false | _ => true end.

(** The number of calls in a list that are a success mark of a stage, and
    whether a call is in a stage's failure map after a list of calls:
    the last failure mark or retry decides. *)
Definition success_marks (stage : string) (us : list update) : Z :=
  Z.of_nat (length (List.filter (fun u => is_some (success_of stage u)) us)).

Definition failed_after (stage callId : string) (us : list update)
  (before : bool) : bool :=
  fold_left
    (fun failed u =>
       if is_call callId (failure_of stage u) then true
       else if retries stage u then false
       else failed)
    us before.

(** The sum of the call counts of the date ranges recorded. *)
Definition calls_extracted (us : list update) : Z :=
  fold_right (fun u n => call_count u + n) 0 us.

(** [callId] is one of the ids of a list. *)
Definition listed (callId : string) (l : list string) : bool :=
  existsb (String.eqb callId) l.

(** Some call of the list is the success mark of the stage for the call. *)
Definition marked (stage callId : string) (us : list update) : bool :=
  existsb (fun u => is_call callId (success_of stage u)) us.

(** The path of the state file of a store on [base], and an update that
    does not move that file away. *)
Definition state_file_path (base : string) : string :=
  path_join (path_join base "logs") "pipeline_state.json".

Definition keeps_state_file (base : string) (u : update) : bool :=
  match u with
  | ArchiveFile sourceFile _ _ =>
      negb (String.eqb sourceFile (state_file_path base))
  | _ => true
  end.

(** The file at [stateFile] holds the text of [this.state]. *)
Definition saved (s : Sys) : Prop :=
  exists text,
    disk (world s) !! stateFile (this s) = Some text /\
    JSON_parse text = Parsed (encode (state (this s))).

(** ** The status tool

    [--retry-failed] and [--reset-failed] of the status script make the
    same four calls on a new [PipelineState]:
    [['download_audio', 'transcribe', 'upload_audio', 'analyze'].forEach(
       stage => { pipelineState.retryFailed(stage); })]. *)
Fixpoint forEach {A : Type} (l : list A) (f : A -> M unit) : M unit :=
  match l with
  | [] => ret tt
  | a :: r => f a;; forEach r f
  end.

Definition retry_all_stages : M unit :=
  forEach ["download_audio"; "transcribe"; "upload_audio"; "analyze"]
    retryFailed.

(** The directories [ensureDirectories] asks for, and a path on which a
    directory can be made: no file is at the path or above it. *)
Definition layout (base : string) : list string :=
  [path_join base "logs";
   path_join base "archive";
   path_join (path_join base "archive") "call_ids";
   path_join (path_join base "archive") "audio";
   path_join (path_join base "archive") "transcripts";
   path_join (path_join base "archive") "failed"].

Definition free_path (w : env) (p : string) : bool :=
  forallb (fun a => negb (is_file a w)) (ancestors "" p ++ [p]).

(** Every success map has at most as many entries as its running total
    says. *)
Definition counted (d : document) : bool :=
  forallb
    (fun stage =>
       Z.of_nat (length (success_map stage d)) <=? running_total stage d)
    stage_names.

(** ** Strings of the stage scripts

    The string methods the scripts use, on the UTF-8 image of the
    JavaScript string.  Every pattern below is ASCII, and no byte of a
    multi-byte character is an ASCII byte or the first byte of another
    character, so that searching the bytes finds what searching the code
    units finds. *)

(** [s.split(c)] for a separator of one ASCII character. *)
Fixpoint split_on (c : ascii) (s : string) : list string :=
  match s with
  | EmptyString => [""]
  | String a r =>
      if Ascii.eqb a c then "" :: split_on c r
      else match split_on c r with
           | first :: rest => String a first :: rest
           | [] => [String a ""]
           end
  end.

(** [s.includes(p)], [s.endsWith(p)] and [s.replace(p, new)] for a string
    pattern [p]: the first occurrence is replaced. *)
Fixpoint includes (p s : string) : bool :=
  match strip_prefix p s with
  | Some _ => true
  | None => match s with
            | String _ r => includes p r
            | EmptyString => false
            end
  end.

Fixpoint endsWith (p s : string) : bool :=
  String.eqb s p
  || match s with
     | String _ r => endsWith p r
     | EmptyString => false
     end.

Fixpoint replace_first (p new s : string) : string :=
  match strip_prefix p s with
  | Some rest => new +:+ rest
  | None => match s with
            | String a r => String a (replace_first p new r)
            | EmptyString => ""
            end
  end.

(** The white space of ECMAScript ([WhiteSpace] and [LineTerminator]:
    what [trim] removes and [\s] matches) in UTF-8: the six characters of
    ASCII, U+00A0, and in three bytes U+1680, U+2000 to U+200A, U+2028,
    U+2029, U+202F, U+205F, U+3000 and U+FEFF. *)
Definition space1 (a : ascii) : bool :=
  let n := char_code a in
  (n =? 9) || (n =? 10) || (n =? 11) || (n =? 12) || (n =? 13) || (n =? 32).

Definition space2 (a b : ascii) : bool :=
  (char_code a =? 194) && (char_code b =? 160).

Definition space3 (a b c : ascii) : bool :=
  let x := char_code a in
  let y := char_code b in
  let z := char_code c in
  ((x =? 225) && (y =? 154) && (z =? 128))
  || ((x =? 226) && (y =? 128)
      && (((128 <=? z) && (z <=? 138)) || (z =? 168) || (z =? 169)
          || (z =? 175)))
  || ((x =? 226) && (y =? 129) && (z =? 159))
  || ((x =? 227) && (y =? 128) && (z =? 128))
  || ((x =? 239) && (y =? 187) && (z =? 191)).

(** [!s.trim()]: the string is white space only. *)
Fixpoint blank_text (s : string) : bool :=
  match s with
  | EmptyString => true
  | String a r =>
      if space1 a then blank_text r
      else match r with
           | String b r1 =>
               if space2 a b then blank_text r1
               else match r1 with
                    | String c r2 => space3 a b c && blank_text r2
                    | EmptyString => false
                    end
           | EmptyString => false
           end
  end.

(** The rest of a string after the white space it starts with: what is
    left to match after [\s*]. *)
Fixpoint skip_spaces (s : string) : string :=
  match s with
  | EmptyString => ""
  | String a r =>
      if space1 a then skip_spaces r
      else match r with
           | String b r1 =>
               if space2 a b then skip_spaces r1
               else match r1 with
                    | String c r2 => if space3 a b c then skip_spaces r2 else s
                    | EmptyString => s
                    end
           | EmptyString => s
           end
  end.

(** A character occurs in a string. *)
Fixpoint has_char (c : ascii) (s : string) : bool :=
  match s with
  | EmptyString => false
  | String a r => Ascii.eqb a c || has_char c r
  end.

(** ** Transcript files (stage 5)

    [getTranscriptFiles] of analyze_and_upload.js: the names of the
    directory that end in [.txt], split at the underscores after the
    first [.txt] is removed; a name without underscore is dropped. *)
Record transcript_file : Type := {
  file_filepath : string;
  file_filename : string;
  file_brokerId : string;
  file_callId : string
}.

(** The function of [.map]: [None] is [null]. *)
Definition transcript_file_of (transcriptsDir file : string)
  : option transcript_file :=
  let parts := split_on "_" (replace_first ".txt" "" file) in
  if (2 <=? length parts)%nat then
    Some {| file_filepath := path_join transcriptsDir file;
            file_filename := file;
            file_brokerId := hd "" parts;
            file_callId := join "_" (tl parts) |}
  else None.

Fixpoint defined {A : Type} (l : list (option A)) : list A :=
  match l with
  | [] => []
  | Some a :: r => a :: defined r
  | None :: r => defined r
  end.

(** [files] is what [fs.readdirSync (transcriptsDir)] lists, when the
    path is a directory; it throws when the path is a file. *)
Definition getTranscriptFiles (transcriptsDir : string) (files : list string)
  : M (list transcript_file) :=
  present ← fs_existsSync transcriptsDir;
  if negb present then
    console_log ("⚠️ Transcripts directory not found: " +:+ transcriptsDir);;
    ret []
  else
    w ← get_world;
    if is_file transcriptsDir w
    then throw (SystemError "ENOTDIR" transcriptsDir)
    else ret (defined (map (transcript_file_of transcriptsDir)
                         (List.filter (endsWith ".txt") files))).

(** The name the transcription stage gives the transcript of a call:
    [`${brokerId}_${callId}.txt`]. *)
Definition transcript_name (brokerId callId : string) : string :=
  brokerId +:+ "_" +:+ callId +:+ ".txt".

(** ** The audio URL log (stages 4 and 5)

    The upload stage writes one line per uploaded file under a header;
    [loadAudioUrlMapping] of the analysis stage reads the lines back into
    an object from call ids to URLs. *)
Record upload_mapping : Type := {
  broker_id : string;
  call_id : string;
  file_url : string
}.

(** [csvLines.join('\n')] of the upload stage. *)
Definition mapping_line (mapping : upload_mapping) : string :=
  broker_id mapping +:+ "," +:+ call_id mapping +:+ ","
    +:+ String dquote (file_url mapping +:+ String dquote "").

Definition mapping_csv (uploadMappings : list upload_mapping) : string :=
  join newline ("broker_id,call_id,file_url" :: map mapping_line uploadMappings).

(** [fileUrl.replace(/^"|"$/g, '')]: a quote at the start goes, and a
    quote at the end of what is left. *)
Fixpoint drop_last_quote (s : string) : string :=
  match s with
  | EmptyString => ""
  | String c EmptyString => if Ascii.eqb c dquote then "" else s
  | String c r => String c (drop_last_quote r)
  end.

Definition strip_quotes (s : string) : string :=
  drop_last_quote
    (match s with
     | String c r => if Ascii.eqb c dquote then r else s
     | EmptyString => ""
     end).

Definition is_empty (s : string) : bool :=
  match s with EmptyString => true | String _ _ => false end.

(** The function of [lines.slice(1).forEach]: a line with a call id and a
    URL sets the URL of the call. *)
Definition audio_map_line (audioMap : obj string) (line : string)
  : obj string :=
  match split_on "," line with
  | _ :: callId :: fileUrl :: _ =>
      if negb (is_empty callId) && negb (is_empty fileUrl)
      then obj_set callId (strip_quotes fileUrl) audioMap
      else audioMap
  | _ => audioMap
  end.

(** The object [loadAudioUrlMapping] builds from the content of the
    latest log. *)
Definition audio_map_of (content : string) : obj string :=
  let lines :=
    List.filter (fun line => negb (blank_text line))
      (split_on (char_of_code 10) content) in
  fold_left audio_map_line (tl lines) [].

(** The URL the last mapping of a call gives, if any. *)
Definition last_url (callId : string) (uploadMappings : list upload_mapping)
  : option string :=
  fold_left
    (fun url mapping =>
       if String.eqb (call_id mapping) callId then Some (file_url mapping)
       else url)
    uploadMappings None.

(** A field of the log: it holds neither a comma nor a line feed. *)
Definition csv_field (s : string) : bool :=
  negb (has_char "," s) && negb (has_char (char_of_code 10) s).

Definition csv_mapping (mapping : upload_mapping) : bool :=
  csv_field (broker_id mapping) && csv_field (call_id mapping)
  && csv_field (file_url mapping) && negb (is_empty (call_id mapping)).

(** ** Code fences (stage 5)

    [analyzeTranscript] removes the Markdown fences of the reply before
    it parses it. *)

(** [s.replace(/p\s*/g, '')] for a literal [p] that is not empty: the
    matches are taken from left to right and do not overlap.  [fuel]
    bounds the number of steps; the length of [s] is enough. *)
Fixpoint remove_all (fuel : nat) (p s : string) : string :=
  match fuel with
  | O => s
  | S f =>
      match strip_prefix p s with
      | Some rest => remove_all f p (skip_spaces rest)
      | None => match s with
                | String c r => String c (remove_all f p r)
                | EmptyString => ""
                end
      end
  end.

(** [s.replace(/p\s*$/g, '')]: the text is cut at the first place where
    [p] is followed by white space only, up to the end. *)
Fixpoint cut_trailing (p s : string) : string :=
  match s with
  | EmptyString => ""
  | String c r =>
      match strip_prefix p s with
      | Some rest =>
          if blank_text rest then "" else String c (cut_trailing p r)
      | None => String c (cut_trailing p r)
      end
  end.

Definition fence : string := "```".

Definition strip_code_fences (analysisText : string) : string :=
  let text :=
    if includes "```json" analysisText
    then cut_trailing fence
           (remove_all (String.length analysisText) "```json" analysisText)
    else analysisText in
  if includes fence text
  then remove_all (String.length text) fence text
  else text.

(** ** Audio files (stage 3)

    The transcription stage, [main] of mock_transcribe.js, collects the
    [.wav] files of the audio directory with the ids their names hold;
    [transcribeAudioFile] names the transcript after the ids. *)
Record audio_file : Type := {
  audio_filePath : string;
  audio_brokerId : string;
  audio_callId : string;
  audio_filename : string
}.

(** The body of [for (const file of files)]: [None] when nothing is
    pushed. *)
Definition audio_file_of (audioDir file : string) : option audio_file :=
  if endsWith ".wav" file then
    let parts := split_on "_" (replace_first ".wav" "" file) in
    if (2 <=? length parts)%nat then
      Some {| audio_filePath := path_join audioDir file;
              audio_brokerId := hd "" parts;
              audio_callId := join "_" (tl parts);
              audio_filename := file |}
    else None
  else None.

Definition audioFiles (audioDir : string) (files : list string)
  : list audio_file :=
  defined (map (audio_file_of audioDir) files).

(** ** The broker id of an upload (stage 5)

    [uploadAnalysis] turns the broker id into a number for the payload.
    The result is a number, [NaN] or [null].  Numbers are integers, as
    everywhere in this development. *)
Inductive broker_number : Type :=
| BrokerNumber (n : Z)
| BrokerNaN
| BrokerNull.

(** [ToBoolean], and [a || b]. *)
Definition truthy (v : value) : bool :=
  match v with
  | VUndefined | VNull => false
  | VBool b => b
  | VNum n => negb (n =? 0)
  | VStr s => negb (is_empty s)
  | VArr _ | VObj _ => true
  end.

Definition or_else (a b : value) : value := if truthy a then a else b.

Fixpoint skip_digits (s : string) : string :=
  match s with
  | String c r => if is_digit c then skip_digits r else s
  | EmptyString => ""
  end.

Fixpoint take_digits (s : string) : string :=
  match s with
  | String c r => if is_digit c then String c (take_digits r) else ""
  | EmptyString => ""
  end.

Definition starts_with (class : ascii -> bool) (s : string) : bool :=
  match s with
  | String c _ => class c
  | EmptyString => false
  end.

Fixpoint skip_class (class : ascii -> bool) (s : string) : string :=
  match s with
  | String c r => if class c then skip_class class r else s
  | EmptyString => ""
  end.

Definition is_sign (c : ascii) : bool := Ascii.eqb c "+" || Ascii.eqb c "-".

Definition skip_sign (s : string) : string :=
  match s with
  | String c r => if is_sign c then r else s
  | EmptyString => ""
  end.

(** [ExponentPart], if there is one: what follows it. *)
Definition exponent_part (s : string) : string :=
  match s with
  | String c r =>
      if Ascii.eqb c "e" || Ascii.eqb c "E" then
        if starts_with is_digit (skip_sign r) then skip_digits (skip_sign r)
        else s
      else s
  | EmptyString => ""
  end.

(** [StrUnsignedDecimalLiteral] at the start of a string: what follows
    the longest one, [None] if there is none. *)
Definition unsigned_decimal (s : string) : option string :=
  match strip_prefix "Infinity" s with
  | Some rest => Some rest
  | None =>
      if starts_with is_digit s then
        match skip_digits s with
        | String c r =>
            if Ascii.eqb c "." then Some (exponent_part (skip_digits r))
            else Some (exponent_part (String c r))
        | EmptyString => Some ""
        end
      else
        match s with
        | String c r =>
            if Ascii.eqb c "." && starts_with is_digit r
            then Some (exponent_part (skip_digits r))
            else None
        | EmptyString => None
        end
  end.

Definition is_hex (c : ascii) : bool :=
  let n := char_code c in
  is_digit c || ((97 <=? n) && (n <=? 102)) || ((65 <=? n) && (n <=? 70)).

Definition is_octal (c : ascii) : bool :=
  let n := char_code c in (48 <=? n) && (n <=? 55).

Definition is_binary (c : ascii) : bool :=
  Ascii.eqb c "0" || Ascii.eqb c "1".

(** [NonDecimalIntegerLiteral] at the start of a string. *)
Definition radix_literal (s : string) : option string :=
  match s with
  | String z (String x r) =>
      if Ascii.eqb z "0" then
        let class :=
          if Ascii.eqb x "x" || Ascii.eqb x "X" then Some is_hex
          else if Ascii.eqb x "o" || Ascii.eqb x "O" then Some is_octal
          else if Ascii.eqb x "b" || Ascii.eqb x "B" then Some is_binary
          else None in
        match class with
        | Some class =>
            if starts_with class r then Some (skip_class class r) else None
        | None => None
        end
      else None
  | _ => None
  end.

Definition ends_blank (rest : option string) : bool :=
  match rest with
  | Some rest => blank_text rest
  | None => false
  end.

(** [!isNaN(id)] for a string: [StringToNumber] gives a number, that
    is, the string is white space around nothing or around one
    [StrNumericLiteral]. *)
Definition numeric_string (s : string) : bool :=
  let t := skip_spaces s in
  is_empty t
  || ends_blank (radix_literal t)
  || ends_blank (unsigned_decimal (skip_sign t)).

(** [parseInt(s, 10)]: white space, a sign, then the digits up to the
    first character that is none.  The result is the integer the digits
    denote, which the double is below 2^53. *)
Definition parseInt (s : string) : broker_number :=
  let t := skip_spaces s in
  let negative :=
    match t with
    | String c _ => Ascii.eqb c "-"
    | EmptyString => false
    end in
  if starts_with is_digit (skip_sign t) then
    let n := fst (parse_digits 0 (skip_sign t)) in
    BrokerNumber (if negative then - n else n)
  else BrokerNaN.

(** [s.match(/\d+/)]: the first run of digits, [None] for [null]. *)
Fixpoint first_digits (s : string) : option string :=
  match s with
  | String c r => if is_digit c then Some (take_digits s) else first_digits r
  | EmptyString => None
  end.

(** [String(id)] on a value that is no object. *)
Definition String_of (id : value) : option string :=
  match id with
  | VUndefined => Some "undefined"
  | VNull => Some "null"
  | VBool b => Some (if b then "true" else "false")
  | VNum n => Some (Number_toString n)
  | VStr s => Some s
  | VArr _ | VObj _ => None
  end.

Definition is_numeric_text (id : value) : bool :=
  match id with
  | VStr s => numeric_string s
  | _ => false
  end.

(** The function that is called in place, on the three places a broker
    id can come from.  [None]: the id is an object, outside the model. *)
Definition numericBrokerId (brokerId metadata_broker_id analysis_broker_id
  : value) : option broker_number :=
  let id := or_else brokerId (or_else metadata_broker_id analysis_broker_id) in
  if is_numeric_text id then
    match id with
    | VStr s => Some (parseInt s)
    | _ => None
    end
  else
    match id with
    | VNum n => Some (BrokerNumber n)
    | _ =>
        match String_of id with
        | Some text =>
            match first_digits text with
            | Some digits => Some (parseInt digits)
            | None => Some BrokerNull
            end
        | None => None
        end
    end.

(** ** The status report (setup.sh, pipeline-status)

    The stage progress and the next action [main] prints, from the
    figures of [getProcessingStats]. *)
Record progress : Type := {
  progress_call_id_extraction : string;
  progress_audio_download : string;
  progress_transcription : string;
  progress_audio_upload : string;
  progress_analysis : string
}.

(** [((part / whole) * 100).toFixed(1)] *)
Definition percent (part whole : Z) : string :=
  toFixed1 (double_of_Z part / double_of_Z whole * 100)%float.

(** [`${part}/${whole} (${rate}%)`] *)
Definition progress_row (part whole : Z) (rate : string) : string :=
  decimal part +:+ "/" +:+ decimal whole +:+ " (" +:+ rate +:+ "%)".

Definition stage_progress (st : stats) : progress :=
  let ready := Z.min (stats_transcribed st) (stats_uploaded_to_bubble st) in
  {| progress_call_id_extraction :=
       if 0 <? stats_total_calls_extracted st then "✅ Complete"
       else "⚠️ Pending";
     progress_audio_download :=
       progress_row (stats_audio_downloaded st)
         (stats_total_calls_extracted st)
         (percent (stats_audio_downloaded st)
            (stats_total_calls_extracted st));
     progress_transcription :=
       progress_row (stats_transcribed st) (stats_audio_downloaded st)
         (if 0 <? stats_audio_downloaded st
          then percent (stats_transcribed st) (stats_audio_downloaded st)
          else "0");
     progress_audio_upload :=
       progress_row (stats_uploaded_to_bubble st) (stats_audio_downloaded st)
         (if 0 <? stats_audio_downloaded st
          then percent (stats_uploaded_to_bubble st)
                 (stats_audio_downloaded st)
          else "0");
     progress_analysis :=
       progress_row (stats_analyzed st) ready
         (if 0 <? ready then percent (stats_analyzed st) ready else "0") |}.

(** The lines under [Next Actions]. *)
Definition next_actions (st : stats) : list string :=
  if stats_total_calls_extracted st =? 0 then
    ["  • Run pipeline to extract call IDs for your date range"]
  else if stats_audio_downloaded st <? stats_total_calls_extracted st then
    ["  • Continue audio download process"]
  else if stats_transcribed st <? stats_audio_downloaded st then
    ["  • Continue transcription process"]
  else if stats_uploaded_to_bubble st <? stats_audio_downloaded st then
    ["  • Continue audio upload to Bubble"]
  else if stats_analyzed st
          <? Z.min (stats_transcribed st) (stats_uploaded_to_bubble st) then
    ["  • Continue AI analysis and upload"]
  else
    ["  • ✅ All processing complete for current data set";
     "  • Update date range in config to process more calls"].

(** ** Paths, stores and counts as the source has them

    [path.join] (of POSIX) normalises what [path_join] appends, the file
    system resolves the spelling of a path, and its calls throw where
    something stands in their way.  On absolute paths in normal form, in
    a store whose directories are where the constructor makes them, the
    definitions above are what the source does; the properties that
    depend on it are stated of such paths and stores. *)

(** A name between two separators: not empty, not [.] or [..], without
    separator. *)
Definition plain_segment (x : string) : bool :=
  negb (is_empty x) && negb (String.eqb x ".") && negb (String.eqb x "..")
  && negb (has_char "/" x).

(** An absolute path in normal form: a separator before each of one or
    more plain segments.  [path.join] of such a path and plain segments
    is the path, a separator and the segments. *)
Definition normalised (p : string) : bool :=
  match p with
  | String c r => Ascii.eqb c "/" && forallb plain_segment (split_on "/" r)
  | EmptyString => false
  end.

(** A file system as the source can meet it: every file and every
    directory is held under its normal form, lies in directories that
    are held too, and no path is both a file and a directory.  Then
    nothing is at a path that is neither a file nor a directory. *)
Definition tidy (w : env) : bool :=
  let files := map fst (map_to_list (disk w)) in
  let held := files ++ elements (dirs w) in
  forallb normalised held
  && forallb (fun p => forallb (fun a => is_dir a w) (ancestors "" p)) held
  && forallb (fun p => negb (is_dir p w)) files.

(** The object is the one the constructor makes on [base], the [logs]
    directory is there and no directory stands at the path of the state
    file: the state file can be written. *)
Definition store_at (base : string) (s : Sys) : bool :=
  normalised base
  && String.eqb (baseDir (this s)) base
  && String.eqb (stateFile (this s)) (state_file_path base)
  && String.eqb (archiveDir (this s)) (path_join base "archive")
  && tidy (world s)
  && is_dir (path_join base "logs") (world s)
  && negb (is_dir (state_file_path base) (world s)).

(** [a] is [p] or a directory above it, for paths in normal form. *)
Definition above (a p : string) : bool :=
  String.eqb a p || is_some (strip_prefix (a +:+ "/") p).

(** A call that archives names its source in normal form and a category
    that is a plain segment, and the source is neither the state file
    nor a directory above it. *)
Definition tidy_update (base : string) (u : update) : bool :=
  match u with
  | ArchiveFile sourceFile category _ =>
      normalised sourceFile && plain_segment category
      && negb (above sourceFile (state_file_path base))
  | _ => true
  end.

(** An integer that a double holds exactly. *)
Definition exact_number (n : Z) : bool := (- 2 ^ 53 <=? n) && (n <=? 2 ^ 53).

(** The counts stay exact: the totals and the call counts are not
    negative, and no total passes 2^53 by the calls. *)
Definition counts_exact (d : document) (us : list update) : bool :=
  forallb (fun u => 0 <=? call_count u) us
  && forallb
       (fun stage =>
          (0 <=? running_total stage d)
          && (running_total stage d + success_marks stage us <=? 2 ^ 53))
       stage_names
  && (0 <=? total_calls_extracted (get_call_ids (stages d)))
  && (total_calls_extracted (get_call_ids (stages d)) + calls_extracted us
      <=? 2 ^ 53).

(** The numbers of a value, and of the arguments of a call, are exact. *)
Fixpoint exact_value (v : value) : bool :=
  match v with
  | VNum n => exact_number n
  | VArr elems => forallb exact_value elems
  | VObj props => forallb (fun p => exact_value (snd p)) props
  | _ => true
  end.

Definition exact_update (u : update) : bool :=
  match u with
  | MarkDateRangeProcessed _ _ callCount => exact_number callCount
  | MarkAudioDownloaded _ brokerId filename filepath =>
      exact_value brokerId && exact_value filename && exact_value filepath
  | MarkTranscribed _ filename transcriptPath =>
      exact_value filename && exact_value transcriptPath
  | MarkAudioUploaded _ bubbleUrl => exact_value bubbleUrl
  | MarkAnalyzed _ analysisData => exact_value analysisData
  | MarkAudioDownloadFailed _ error | MarkTranscriptionFailed _ error
  | MarkAudioUploadFailed _ error | MarkAnalysisFailed _ error =>
      exact_value error
  | ArchiveFile _ _ callId => exact_value callId
  | RetryFailed _ => true
  end.

(** * Properties *)

(** ** Ordinary objects *)

Section ObjectFacts.
Context {V : Type}.
Implicit Types (o : obj V) (k : string) (v : V).

Lemma obj_get_Some_keys k o v : obj_get k o = Some v -> In k (obj_keys o).
Proof.
  induction o as [|[k' v'] r IH]; simpl; [discriminate|].
  destruct (String.eqb_spec k' k); [left; assumption|].
  intros H. right. apply IH, H.
Qed.

Lemma obj_get_None_keys k o : obj_get k o = None <-> ~ In k (obj_keys o).
Proof.
  induction o as [|[k' v'] r IH]; simpl; [tauto|].
  destruct (String.eqb_spec k' k); [split; [discriminate|tauto]|].
  rewrite IH. tauto.
Qed.

Lemma obj_has_keys k o : obj_has k o = true <-> In k (obj_keys o).
Proof.
  unfold obj_has. destruct (obj_get k o) eqn:E.
  - split; [intros _; eapply obj_get_Some_keys, E|reflexivity].
  - apply obj_get_None_keys in E. split; [discriminate|contradiction].
Qed.

Lemma obj_get_update_eq k v o :
  obj_has k o = true -> obj_get k (obj_update k v o) = Some v.
Proof.
  unfold obj_has.
  induction o as [|[k' v'] r IH]; simpl; [discriminate|].
  destruct (String.eqb_spec k' k) as [->|Hne]; simpl.
  - rewrite String.eqb_refl. reflexivity.
  - destruct (String.eqb_spec k' k); [contradiction|]. exact IH.
Qed.

Lemma obj_get_update_ne k k' v o :
  k' <> k -> obj_get k' (obj_update k v o) = obj_get k' o.
Proof.
  intros Hne. induction o as [|[k0 v0] r IH]; simpl; [reflexivity|].
  destruct (String.eqb_spec k0 k) as [->|]; simpl.
  - destruct (String.eqb_spec k k'); [congruence|reflexivity].
  - rewrite IH. reflexivity.
Qed.

Lemma obj_keys_update k v o : obj_keys (obj_update k v o) = obj_keys o.
Proof.
  unfold obj_keys.
  induction o as [|[k0 v0] r IH]; simpl; [reflexivity|].
  destruct (String.eqb k0 k); simpl; [reflexivity|].
  rewrite IH. reflexivity.
Qed.

Lemma obj_get_place k' n k v o :
  obj_get k o = None ->
  obj_get k' (obj_place n k v o)
  = if String.eqb k k' then Some v else obj_get k' o.
Proof.
  induction o as [|[k0 v0] r IH]; simpl; [reflexivity|].
  destruct (String.eqb_spec k0 k) as [->|Hne]; [discriminate|]. intros Hk.
  destruct (array_index k0) as [m|]; [destruct (m <? n)|]; simpl;
    try reflexivity.
  rewrite (IH Hk).
  destruct (String.eqb_spec k0 k'), (String.eqb_spec k k');
    try reflexivity; congruence.
Qed.

Lemma obj_keys_place k' n k v o :
  In k' (obj_keys (obj_place n k v o)) <-> k' = k \/ In k' (obj_keys o).
Proof.
  unfold obj_keys.
  induction o as [|[k0 v0] r IH]; simpl; [intuition congruence|].
  destruct (array_index k0) as [m|]; [destruct (m <? n)|]; simpl;
    rewrite ?IH; intuition congruence.
Qed.

Lemma obj_get_app k o o' :
  obj_get k (o ++ o') =
  match obj_get k o with Some v => Some v | None => obj_get k o' end.
Proof.
  induction o as [|[k0 v0] r IH]; simpl; [reflexivity|].
  destruct (String.eqb k0 k); [reflexivity|exact IH].
Qed.

(** Reading a property of [o] after [CreateDataProperty (o, k, v)]. *)
Lemma obj_get_define k' k v o :
  obj_get k' (obj_define k v o)
  = if String.eqb k k' then Some v else obj_get k' o.
Proof.
  unfold obj_define. destruct (obj_has k o) eqn:Hh.
  - destruct (String.eqb_spec k k') as [<-|Hne].
    + apply obj_get_update_eq, Hh.
    + apply obj_get_update_ne. congruence.
  - assert (Hn : obj_get k o = None).
    { unfold obj_has in Hh. destruct (obj_get k o); [discriminate|reflexivity]. }
    destruct (array_index k) as [n|].
    + apply obj_get_place, Hn.
    + rewrite obj_get_app. simpl.
      destruct (String.eqb_spec k k') as [<-|Hne].
      * rewrite Hn. reflexivity.
      * destruct (obj_get k' o); reflexivity.
Qed.

Lemma obj_keys_define k' k v o :
  In k' (obj_keys (obj_define k v o)) <-> k' = k \/ In k' (obj_keys o).
Proof.
  unfold obj_define. destruct (obj_has k o) eqn:Hh.
  - rewrite obj_keys_update. apply obj_has_keys in Hh.
    split; [tauto|]. intros [->|H]; assumption.
  - destruct (array_index k) as [n|]; [apply obj_keys_place|].
    unfold obj_keys. rewrite map_app, in_app_iff. simpl. intuition congruence.
Qed.

(** Reading [o[k]] after [o[k] = v], for a key that names a property. *)
Lemma obj_get_set_eq k v o :
  k <> "__proto__" -> obj_get k (obj_set k v o) = Some v.
Proof.
  intros Hk. unfold obj_set.
  destruct (String.eqb_spec k "__proto__"); [contradiction|].
  rewrite andb_false_r, obj_get_define, String.eqb_refl. reflexivity.
Qed.

Lemma obj_get_set_ne k k' v o :
  k' <> k -> obj_get k' (obj_set k v o) = obj_get k' o.
Proof.
  intros Hne. unfold obj_set.
  destruct (negb (obj_has k o) && String.eqb k "__proto__")%bool;
    [reflexivity|].
  rewrite obj_get_define.
  destruct (String.eqb_spec k k'); [congruence|reflexivity].
Qed.

Lemma obj_keys_set_eq k v o :
  k <> "__proto__" -> In k (obj_keys (obj_set k v o)).
Proof.
  intros Hk. unfold obj_set.
  destruct (String.eqb_spec k "__proto__"); [contradiction|].
  rewrite andb_false_r. apply obj_keys_define. left. reflexivity.
Qed.

Lemma obj_keys_delete k' k o :
  In k' (obj_keys (obj_delete k o)) <-> k' <> k /\ In k' (obj_keys o).
Proof.
  unfold obj_keys, obj_delete.
  induction o as [|[k0 v0] r IH]; simpl; [tauto|].
  destruct (String.eqb_spec k0 k) as [->|Hne]; simpl.
  - rewrite IH. intuition congruence.
  - rewrite IH. intuition congruence.
Qed.

Lemma delete_all_keys (ks : list string) o :
  (forall k, In k (obj_keys o) -> In k ks) ->
  fold_left (fun acc k => obj_delete k acc) ks o = [].
Proof.
  revert o. induction ks as [|k ks IH]; intros o Hsub; simpl.
  - destruct o as [|[k v] r]; [reflexivity|].
    exfalso. apply (Hsub k). left. reflexivity.
  - apply IH. intros k' Hk'. apply obj_keys_delete in Hk' as [Hne Hin].
    destruct (Hsub k' Hin); [congruence|assumption].
Qed.

(** Deleting every own key leaves the empty object. *)
Lemma obj_clear_empty o : obj_clear o = [].
Proof. apply delete_all_keys. auto. Qed.
End ObjectFacts.

(** ** Method calls *)

Lemma stringify_encode d : exists text, JSON_stringify (encode d) = Some text.
Proof. eexists. reflexivity. Qed.

Ltac monad_unfold :=
  unfold run, exec, console_log, console_warn, console_error,
    fs_writeFileSync;
  unfold modify_state, Date_toISOString, print_line, put_disk;
  unfold mbind, M_bind, bind, mret, M_ret, ret, throw, outside_model,
    get_state, put_state, get_this, put_this, get_world, put_world.

Ltac proj_simpl :=
  cbn [this world state fst snd baseDir stateFile archiveDir
       disk dirs clock ticks console].

(** [saveState] stamps the document, writes its text and returns. *)
Lemma saveState_effect s :
  exists text,
    JSON_stringify
      (encode (set_last_updated (clock (world s) (ticks (world s)))
                 (state (this s)))) = Some text /\
    saveState s =
    (Returns tt,
     {| this := {| baseDir := baseDir (this s);
                   stateFile := stateFile (this s);
                   archiveDir := archiveDir (this s);
                   state := set_last_updated (clock (world s) (ticks (world s)))
                              (state (this s)) |};
        world := {| disk := <[ stateFile (this s) := text ]> (disk (world s));
                    dirs := dirs (world s);
                    clock := clock (world s);
                    ticks := S (ticks (world s));
                    console := console (world s) |} |}).
Proof.
  destruct (stringify_encode
              (set_last_updated (clock (world s) (ticks (world s)))
                 (state (this s)))) as [text E].
  exists text. split; [exact E|].
  unfold saveState. monad_unfold. proj_simpl. rewrite E. reflexivity.
Qed.

Ltac save :=
  match goal with
  | |- context [saveState ?s] =>
      let text := fresh "text" in
      let E := fresh "E" in
      destruct (saveState_effect s) as (text & _ & E); rewrite E; clear E
  end.

Ltac method_effect := monad_unfold; proj_simpl; save; proj_simpl.


Lemma retryFailed_effect stage s :
  run (retryFailed stage) s = Returns tt /\
  exists t,
    state (this (exec (retryFailed stage) s)) =
    set_last_updated t
      (clear_failures stage "failed_analyses"
         (clear_failures stage "failed_uploads"
            (clear_failures stage "failed_transcriptions"
               (clear_failures stage "failed_downloads" (state (this s)))))).
Proof.
  unfold retryFailed, clear_if_present. method_effect.
  split; [reflexivity|]. eexists. reflexivity.
Qed.

(** ** Retry-reset scope *)

(** C1.  [retryFailed('download_audio')] returns, empties the map
    [failed_downloads] and leaves [failed_transcriptions], [failed_uploads]
    and [failed_analyses] as they were; for each of the four stage names,
    [retryFailed] empties the failure map of the named stage and leaves the
    failure maps of the other three stages unchanged. *)
Theorem retryFailed_clears_named_stage_only (s : Sys) :
  (run (retryFailed "download_audio") s = Returns tt /\
   let d' := state_after (retryFailed "download_audio") s in
   failed_downloads (download_audio (stages d')) = [] /\
   failed_transcriptions (transcribe (stages d'))
   = failed_transcriptions (transcribe (stages (state (this s)))) /\
   failed_uploads (upload_audio (stages d'))
   = failed_uploads (upload_audio (stages (state (this s)))) /\
   failed_analyses (analyze (stages d'))
   = failed_analyses (analyze (stages (state (this s))))) /\
  (forall stage stage' : string,
     In stage stage_names -> In stage' stage_names ->
     failure_map stage' (state_after (retryFailed stage) s)
     = if String.eqb stage' stage then [] else failure_map stage' (state (this s))).
Proof.
  split.
  - destruct (retryFailed_effect "download_audio" s) as [Hr [t Hd]].
    split; [exact Hr|]. unfold state_after. rewrite Hd.
    cbn. rewrite obj_clear_empty. repeat split; reflexivity.
  - intros stage stage' Hs Hs'. unfold state_after.
    destruct (retryFailed_effect stage s) as [_ [t Hd]]. rewrite Hd.
    simpl in Hs, Hs'.
    destruct Hs as [<-|[<-|[<-|[<-|[]]]]];
      destruct Hs' as [<-|[<-|[<-|[<-|[]]]]];
      cbn; rewrite ?obj_clear_empty; reflexivity.
Qed.

(** ** What the marking methods do to the document *)

Section MarkEffects.
Variable s : Sys.
Variable callId : string.
Let d := state (this s).
Let t := clock (world s) (ticks (world s)).
Let t' := clock (world s) (S (ticks (world s))).

Lemma markAudioDownloaded_effect brokerId filename filepath :
  let m := markAudioDownloaded callId brokerId filename filepath in
  run m s = Returns tt /\
  state_after m s =
  set_last_updated t'
    (set_download_audio
       {| downloaded_files :=
            obj_set callId
              [("status", VStr "completed"); ("broker_id", brokerId);
               ("filename", filename); ("filepath", filepath);
               ("completed_at", VStr t)]
              (downloaded_files (download_audio (stages d)));
          failed_downloads := failed_downloads (download_audio (stages d));
          total_downloaded := total_downloaded (download_audio (stages d)) + 1 |}
       d).
Proof.
  unfold markAudioDownloaded, state_after. method_effect.
  split; reflexivity.
Qed.

Lemma markAudioDownloadFailed_effect error :
  let m := markAudioDownloadFailed callId error in
  run m s = Returns tt /\
  state_after m s =
  set_last_updated t'
    (set_download_audio
       {| downloaded_files := downloaded_files (download_audio (stages d));
          failed_downloads :=
            obj_set callId [("error", error); ("failed_at", VStr t)]
              (failed_downloads (download_audio (stages d)));
          total_downloaded := total_downloaded (download_audio (stages d)) |}
       d).
Proof.
  unfold markAudioDownloadFailed, state_after. method_effect.
  split; reflexivity.
Qed.

Lemma markTranscribed_effect filename transcriptPath :
  let m := markTranscribed callId filename transcriptPath in
  run m s = Returns tt /\
  state_after m s =
  set_last_updated t'
    (set_transcribe
       {| transcribed_files :=
            obj_set callId
              [("status", VStr "completed"); ("filename", filename);
               ("transcript_path", transcriptPath); ("completed_at", VStr t)]
              (transcribed_files (transcribe (stages d)));
          failed_transcriptions := failed_transcriptions (transcribe (stages d));
          total_transcribed := total_transcribed (transcribe (stages d)) + 1 |}
       d).
Proof.
  unfold markTranscribed, state_after. method_effect. split; reflexivity.
Qed.

Lemma markTranscriptionFailed_effect error :
  let m := markTranscriptionFailed callId error in
  run m s = Returns tt /\
  state_after m s =
  set_last_updated t'
    (set_transcribe
       {| transcribed_files := transcribed_files (transcribe (stages d));
          failed_transcriptions :=
            obj_set callId [("error", error); ("failed_at", VStr t)]
              (failed_transcriptions (transcribe (stages d)));
          total_transcribed := total_transcribed (transcribe (stages d)) |}
       d).
Proof.
  unfold markTranscriptionFailed, state_after. method_effect.
  split; reflexivity.
Qed.

Lemma markAudioUploaded_effect bubbleUrl :
  let m := markAudioUploaded callId bubbleUrl in
  run m s = Returns tt /\
  state_after m s =
  set_last_updated t'
    (set_upload_audio
       {| uploaded_files :=
            obj_set callId
              [("status", VStr "completed"); ("bubble_url", bubbleUrl);
               ("completed_at", VStr t)]
              (uploaded_files (upload_audio (stages d)));
          failed_uploads := failed_uploads (upload_audio (stages d));
          total_uploaded := total_uploaded (upload_audio (stages d)) + 1 |}
       d).
Proof.
  unfold markAudioUploaded, state_after. method_effect. split; reflexivity.
Qed.

Lemma markAudioUploadFailed_effect error :
  let m := markAudioUploadFailed callId error in
  run m s = Returns tt /\
  state_after m s =
  set_last_updated t'
    (set_upload_audio
       {| uploaded_files := uploaded_files (upload_audio (stages d));
          failed_uploads :=
            obj_set callId [("error", error); ("failed_at", VStr t)]
              (failed_uploads (upload_audio (stages d)));
          total_uploaded := total_uploaded (upload_audio (stages d)) |}
       d).
Proof.
  unfold markAudioUploadFailed, state_after. method_effect.
  split; reflexivity.
Qed.

Lemma markAnalyzed_effect (analysis : obj value) :
  let m := markAnalyzed callId (VObj analysis) in
  let field name :=
    match obj_get name analysis with Some x => x | None => VUndefined end in
  run m s = Returns tt /\
  state_after m s =
  set_last_updated t'
    (set_analyze
       {| analyzed_calls :=
            obj_set callId
              [("status", VStr "completed");
               ("analysis_summary",
                  VObj [("sentiment", field "sentiment");
                        ("success_rating", field "success_rating");
                        ("call_disposition", field "call_disposition")]);
               ("completed_at", VStr t)]
              (analyzed_calls (analyze (stages d)));
          failed_analyses := failed_analyses (analyze (stages d));
          total_analyzed := total_analyzed (analyze (stages d)) + 1 |}
       d).
Proof.
  unfold markAnalyzed, state_after, property. method_effect.
  split; reflexivity.
Qed.

Lemma markAnalysisFailed_effect error :
  let m := markAnalysisFailed callId error in
  run m s = Returns tt /\
  state_after m s =
  set_last_updated t'
    (set_analyze
       {| analyzed_calls := analyzed_calls (analyze (stages d));
          failed_analyses :=
            obj_set callId [("error", error); ("failed_at", VStr t)]
              (failed_analyses (analyze (stages d)));
          total_analyzed := total_analyzed (analyze (stages d)) |}
       d).
Proof.
  unfold markAnalysisFailed, state_after. method_effect.
  split; reflexivity.
Qed.
End MarkEffects.

(** ** Running totals *)

(** C2, as stated, fails: on a new store, marking call "C1" downloaded
    leaves [total_downloaded] at 1 with "C1" completed, and marking it a
    second time raises the total to 2. *)
Lemma second_mark_counts_again :
  let mark := markAudioDownloaded "C1" (VStr "B1") (VStr "B1_C1.wav")
                (VStr "/tmp/B1_C1.wav") in
  let first := exec mark fresh in
  let second := exec mark first in
  isAudioDownloaded "C1" (state (this first)) = true /\
  total_downloaded (download_audio (stages (state (this first)))) = 1 /\
  total_downloaded (download_audio (stages (state (this second)))) = 2.
Proof. vm_compute. repeat split. Qed.

(** C2, amended.  Every success mark adds one to the running total of its
    stage, whether or not the call id already has a completed entry: after
    a second mark of the same call id the total is the total after the
    first mark plus one. *)
Theorem mark_adds_one_to_total (s : Sys) (callId : string)
  (brokerId filename filepath transcriptPath bubbleUrl : value)
  (analysis : obj value) :
  total_downloaded (download_audio (stages
    (state_after (markAudioDownloaded callId brokerId filename filepath) s)))
  = total_downloaded (download_audio (stages (state (this s)))) + 1 /\
  total_transcribed (transcribe (stages
    (state_after (markTranscribed callId filename transcriptPath) s)))
  = total_transcribed (transcribe (stages (state (this s)))) + 1 /\
  total_uploaded (upload_audio (stages
    (state_after (markAudioUploaded callId bubbleUrl) s)))
  = total_uploaded (upload_audio (stages (state (this s)))) + 1 /\
  total_analyzed (analyze (stages
    (state_after (markAnalyzed callId (VObj analysis)) s)))
  = total_analyzed (analyze (stages (state (this s)))) + 1.
Proof.
  destruct (markAudioDownloaded_effect s callId brokerId filename filepath)
    as [_ ->].
  destruct (markTranscribed_effect s callId filename transcriptPath) as [_ ->].
  destruct (markAudioUploaded_effect s callId bubbleUrl) as [_ ->].
  destruct (markAnalyzed_effect s callId analysis) as [_ ->].
  repeat split; reflexivity.
Qed.

(** ** Success and failure maps *)

Lemma completed_set callId (entry : obj value) m :
  callId <> "__proto__" ->
  obj_get "status" entry = Some (VStr "completed") ->
  completed callId (obj_set callId entry m) = true.
Proof.
  intros Hk He. unfold completed.
  rewrite (obj_get_set_eq _ _ _ Hk), He. reflexivity.
Qed.

(** C3, as stated, fails: on a new store, after the download of "C1" is
    marked failed and then marked completed, "C1" is downloaded and is
    still listed among the failed downloads. *)
Lemma failure_entry_survives_success :
  let failed := exec (markAudioDownloadFailed "C1" (VStr "timeout")) fresh in
  let done := exec (markAudioDownloaded "C1" (VStr "B1") (VStr "B1_C1.wav")
                      (VStr "/tmp/B1_C1.wav")) failed in
  isAudioDownloaded "C1" (state (this done)) = true /\
  items_failed_downloads (getFailedItems (state (this done))) = ["C1"].
Proof. vm_compute. split; reflexivity. Qed.

(** C3, amended.  For every call id that names a property and every stage,
    after the failure mark followed by the success mark the call id is
    completed for the stage, and it is still listed by [getFailedItems] for
    that stage: a success mark removes no failure entry. *)
Theorem success_after_failure (s : Sys) (callId : string)
  (error brokerId filename filepath transcriptPath bubbleUrl : value)
  (analysis : obj value) :
  callId <> "__proto__" ->
  (let d := state_after (markAudioDownloaded callId brokerId filename filepath)
              (exec (markAudioDownloadFailed callId error) s) in
   isAudioDownloaded callId d = true /\
   In callId (items_failed_downloads (getFailedItems d))) /\
  (let d := state_after (markTranscribed callId filename transcriptPath)
              (exec (markTranscriptionFailed callId error) s) in
   isTranscribed callId d = true /\
   In callId (items_failed_transcriptions (getFailedItems d))) /\
  (let d := state_after (markAudioUploaded callId bubbleUrl)
              (exec (markAudioUploadFailed callId error) s) in
   isAudioUploaded callId d = true /\
   In callId (items_failed_uploads (getFailedItems d))) /\
  (let d := state_after (markAnalyzed callId (VObj analysis))
              (exec (markAnalysisFailed callId error) s) in
   isAnalyzed callId d = true /\
   In callId (items_failed_analyses (getFailedItems d))).
Proof.
  intros Hk.
  repeat split.
  - destruct (markAudioDownloaded_effect
                (exec (markAudioDownloadFailed callId error) s)
                callId brokerId filename filepath) as [_ ->].
    apply completed_set; [exact Hk|reflexivity].
  - destruct (markAudioDownloaded_effect
                (exec (markAudioDownloadFailed callId error) s)
                callId brokerId filename filepath) as [_ ->].
    fold (state_after (markAudioDownloadFailed callId error) s).
    destruct (markAudioDownloadFailed_effect s callId error) as [_ ->].
    apply obj_keys_set_eq, Hk.
  - destruct (markTranscribed_effect
                (exec (markTranscriptionFailed callId error) s)
                callId filename transcriptPath) as [_ ->].
    apply completed_set; [exact Hk|reflexivity].
  - destruct (markTranscribed_effect
                (exec (markTranscriptionFailed callId error) s)
                callId filename transcriptPath) as [_ ->].
    fold (state_after (markTranscriptionFailed callId error) s).
    destruct (markTranscriptionFailed_effect s callId error) as [_ ->].
    apply obj_keys_set_eq, Hk.
  - destruct (markAudioUploaded_effect
                (exec (markAudioUploadFailed callId error) s)
                callId bubbleUrl) as [_ ->].
    apply completed_set; [exact Hk|reflexivity].
  - destruct (markAudioUploaded_effect
                (exec (markAudioUploadFailed callId error) s)
                callId bubbleUrl) as [_ ->].
    fold (state_after (markAudioUploadFailed callId error) s).
    destruct (markAudioUploadFailed_effect s callId error) as [_ ->].
    apply obj_keys_set_eq, Hk.
  - destruct (markAnalyzed_effect
                (exec (markAnalysisFailed callId error) s)
                callId analysis) as [_ ->].
    apply completed_set; [exact Hk|reflexivity].
  - destruct (markAnalyzed_effect
                (exec (markAnalysisFailed callId error) s)
                callId analysis) as [_ ->].
    fold (state_after (markAnalysisFailed callId error) s).
    destruct (markAnalysisFailed_effect s callId error) as [_ ->].
    apply obj_keys_set_eq, Hk.
Qed.

Lemma success_after_failure_witness :
  let s := fresh in
  let d := state_after (markAudioDownloaded "C1" VNull VNull VNull)
             (exec (markAudioDownloadFailed "C1" VNull) s) in
  isAudioDownloaded "C1" d = true /\
  In "C1" (items_failed_downloads (getFailedItems d)).
Proof.
  apply (success_after_failure fresh "C1" VNull VNull VNull VNull VNull VNull []).
  discriminate.
Defined.

(** ** The readiness filter *)

Lemma set_add_In x y (l : list string) : In y (set_add x l) <-> y = x \/ In y l.
Proof.
  unfold set_add. destruct (existsb (String.eqb x) l) eqn:E.
  - apply existsb_exists in E as (z & Hz & Hxz).
    apply String.eqb_eq in Hxz. subst z.
    split; [tauto|]. intros [->|H]; assumption.
  - rewrite in_app_iff. simpl. intuition congruence.
Qed.

Lemma NoDup_snoc (x : string) (l : list string) :
  ~ In x l -> List.NoDup l -> List.NoDup (l ++ [x]).
Proof.
  intros Hx Hl. induction Hl as [|y l Hy Hl IH]; simpl.
  - constructor; [intros []|constructor].
  - constructor.
    + rewrite in_app_iff. simpl. intros [H|[->|[]]]; [auto|].
      apply Hx. left. reflexivity.
    + apply IH. intros H. apply Hx. right. exact H.
Qed.

Lemma set_add_NoDup x (l : list string) :
  List.NoDup l -> List.NoDup (set_add x l).
Proof.
  intros Hl. unfold set_add. destruct (existsb (String.eqb x) l) eqn:E.
  - exact Hl.
  - apply NoDup_snoc; [|exact Hl]. intros Hx.
    assert (existsb (String.eqb x) l = true); [|congruence].
    apply existsb_exists. exists x. split; [exact Hx|apply String.eqb_refl].
Qed.

Lemma add_completed_spec (files : obj (obj value)) (ks calls : list string) y :
  In y (fold_left
          (fun calls callId =>
             if completed callId files then set_add callId calls else calls)
          ks calls)
  <-> In y calls \/ (In y ks /\ completed y files = true).
Proof.
  revert calls. induction ks as [|k ks IH]; intros calls; simpl; [tauto|].
  rewrite IH. destruct (completed k files) eqn:E.
  - rewrite set_add_In. intuition (subst; auto).
  - intuition (subst; auto; congruence).
Qed.

Lemma add_completed_NoDup (files : obj (obj value)) (ks calls : list string) :
  List.NoDup calls ->
  List.NoDup (fold_left
           (fun calls callId =>
              if completed callId files then set_add callId calls else calls)
           ks calls).
Proof.
  revert calls. induction ks as [|k ks IH]; intros calls H; simpl; [exact H|].
  apply IH. destruct (completed k files); [apply set_add_NoDup|]; exact H.
Qed.

(** The baseline holds each call id with a completed download, once. *)
Lemma allCalls_spec (d : document) (callId : string) :
  In callId (allCalls d) <-> isAudioDownloaded callId d = true.
Proof.
  unfold allCalls, isAudioDownloaded. rewrite add_completed_spec. simpl.
  split; [intros [[]|[_ H]]; exact H|].
  intros H. right. split; [|exact H].
  unfold completed in H.
  destruct (obj_get callId (downloaded_files (download_audio (stages d))))
    eqn:E; [|discriminate].
  eapply obj_get_Some_keys, E.
Qed.

Lemma allCalls_NoDup (d : document) : List.NoDup (allCalls d).
Proof. apply add_completed_NoDup. constructor. Qed.

Lemma NoDup_filter {A : Type} (f : A -> bool) (l : list A) :
  List.NoDup l -> List.NoDup (List.filter f l).
Proof.
  induction 1 as [|x l Hx Hl IH]; simpl; [constructor|].
  destruct (f x); [constructor|]; try exact IH.
  intros Hin. apply filter_In in Hin. tauto.
Qed.

(** C4.  For every document, [getCallsForProcessing] lists, without
    repetition, for 'transcribe' exactly the downloaded call ids that are
    not transcribed, for 'upload_audio' exactly the downloaded call ids
    that are not uploaded, and for 'analyze' exactly the downloaded call
    ids that are transcribed and uploaded and not analyzed; with A
    downloaded, transcribed and uploaded, B downloaded and transcribed, and
    C downloaded only, it returns [A] for 'analyze' and [B, C] for
    'upload_audio'. *)
Theorem getCallsForProcessing_readiness (d : document) :
  (forall callId,
     In callId (getCallsForProcessing "transcribe" d) <->
     isAudioDownloaded callId d = true /\ isTranscribed callId d = false) /\
  (forall callId,
     In callId (getCallsForProcessing "upload_audio" d) <->
     isAudioDownloaded callId d = true /\ isAudioUploaded callId d = false) /\
  (forall callId,
     In callId (getCallsForProcessing "analyze" d) <->
     isAudioDownloaded callId d = true /\ isTranscribed callId d = true /\
     isAudioUploaded callId d = true /\ isAnalyzed callId d = false) /\
  List.NoDup (getCallsForProcessing "transcribe" d) /\
  List.NoDup (getCallsForProcessing "upload_audio" d) /\
  List.NoDup (getCallsForProcessing "analyze" d) /\
  (let s :=
     exec (markAudioDownloaded "A" (VStr "B1") (VStr "B1_A.wav") (VStr "/in/B1_A.wav");;
           markAudioDownloaded "B" (VStr "B1") (VStr "B1_B.wav") (VStr "/in/B1_B.wav");;
           markAudioDownloaded "C" (VStr "B1") (VStr "B1_C.wav") (VStr "/in/B1_C.wav");;
           markTranscribed "A" (VStr "B1_A.wav") (VStr "/out/B1_A.txt");;
           markTranscribed "B" (VStr "B1_B.wav") (VStr "/out/B1_B.txt");;
           markAudioUploaded "A" (VStr "https://bubble/B1_A.wav")) fresh in
   getCallsForProcessing "analyze" (state (this s)) = ["A"] /\
   getCallsForProcessing "upload_audio" (state (this s)) = ["B"; "C"]).
Proof.
  unfold getCallsForProcessing; simpl String.eqb; cbv iota.
  split; [|split; [|split; [|split; [|split; [|split]]]]].
  - intros callId. rewrite filter_In, allCalls_spec, negb_true_iff. reflexivity.
  - intros callId. rewrite filter_In, allCalls_spec, negb_true_iff. reflexivity.
  - intros callId.
    rewrite filter_In, allCalls_spec, !andb_true_iff, negb_true_iff. tauto.
  - apply NoDup_filter, allCalls_NoDup.
  - apply NoDup_filter, allCalls_NoDup.
  - apply NoDup_filter, allCalls_NoDup.
  - vm_compute. split; reflexivity.
Qed.

(** C10.  For every stage string other than 'transcribe', 'upload_audio'
    and 'analyze', the unknown and the empty string among them,
    [getCallsForProcessing] returns the unfiltered baseline: each call id
    whose download entry has status 'completed', and no other. *)
Theorem getCallsForProcessing_default (d : document) (stage : string) :
  stage <> "transcribe" -> stage <> "upload_audio" -> stage <> "analyze" ->
  getCallsForProcessing stage d = allCalls d /\
  List.NoDup (getCallsForProcessing stage d) /\
  forall callId,
    In callId (getCallsForProcessing stage d) <->
    isAudioDownloaded callId d = true.
Proof.
  intros H1 H2 H3.
  assert (E : getCallsForProcessing stage d = allCalls d).
  { unfold getCallsForProcessing.
    destruct (String.eqb_spec stage "transcribe"); [contradiction|].
    destruct (String.eqb_spec stage "upload_audio"); [contradiction|].
    destruct (String.eqb_spec stage "analyze"); [contradiction|].
    reflexivity. }
  rewrite E. split; [reflexivity|]. split; [apply allCalls_NoDup|].
  intros callId. apply allCalls_spec.
Qed.

Lemma getCallsForProcessing_default_witness :
  let d := state_after (markAudioDownloaded "C1" VNull VNull VNull) fresh in
  getCallsForProcessing "" d = allCalls d /\
  List.NoDup (getCallsForProcessing "" d) /\
  forall callId,
    In callId (getCallsForProcessing "" d) <->
    isAudioDownloaded callId d = true.
Proof.
  apply (getCallsForProcessing_default
           (state_after (markAudioDownloaded "C1" VNull VNull VNull) fresh) "");
    discriminate.
Defined.

(** ** Date ranges *)

Lemma is_string_spec (s : string) (v : option value) :
  is_string s v = true <-> v = Some (VStr s).
Proof.
  unfold is_string. destruct v as [[]|]; try (split; [discriminate|congruence]).
  rewrite String.eqb_eq. split; [intros ->; reflexivity|congruence].
Qed.

Lemma markDateRangeProcessed_effect s startDate endDate callCount :
  let m := markDateRangeProcessed startDate endDate callCount in
  let g := get_call_ids (stages (state (this s))) in
  let w := world s in
  run m s = Returns tt /\
  state_after m s =
  set_last_updated (clock w (S (S (ticks w))))
    (set_get_call_ids
       {| processed_date_ranges :=
            processed_date_ranges g ++
              [[("start_date", VStr startDate); ("end_date", VStr endDate);
                ("call_count", VNum callCount);
                ("processed_at", VStr (clock w (ticks w)))]];
          total_calls_extracted := total_calls_extracted g + callCount;
          last_run := VStr (clock w (S (ticks w))) |}
       (state (this s))).
Proof.
  unfold markDateRangeProcessed, state_after. method_effect.
  split; reflexivity.
Qed.

(** C8.  For every document and all strings [startDate] and [endDate],
    [isDateRangeProcessed] is true exactly when some entry of
    [processed_date_ranges] has the string [startDate] as its [start_date]
    and the string [endDate] as its [end_date].  So a recorded range that
    only contains the queried one does not count: after the range
    2025-01-01 to 2025-01-31 is recorded on a new store, that range is
    processed and the range 2025-01-10 to 2025-01-20 is not. *)
Theorem isDateRangeProcessed_exact_match (d : document)
  (startDate endDate : string) :
  (isDateRangeProcessed startDate endDate d = true <->
   exists range,
     In range (processed_date_ranges (get_call_ids (stages d))) /\
     obj_get "start_date" range = Some (VStr startDate) /\
     obj_get "end_date" range = Some (VStr endDate)) /\
  (let recorded :=
     state_after (markDateRangeProcessed "2025-01-01" "2025-01-31" 5) fresh in
   isDateRangeProcessed "2025-01-01" "2025-01-31" recorded = true /\
   isDateRangeProcessed "2025-01-10" "2025-01-20" recorded = false /\
   isDateRangeProcessed "2025-01-01" "2025-01-20" recorded = false).
Proof.
  split.
  - unfold isDateRangeProcessed. rewrite existsb_exists.
    split; intros (range & Hin & H); exists range; (split; [exact Hin|]).
    + apply andb_true_iff in H as [H1 H2].
      split; apply is_string_spec; assumption.
    + destruct H as [H1 H2]. apply andb_true_iff.
      split; apply is_string_spec; assumption.
  - vm_compute. repeat split.
Qed.

(** Recording a range makes exactly that pair of strings processed. *)
Lemma markDateRangeProcessed_recorded s startDate endDate callCount :
  isDateRangeProcessed startDate endDate
    (state_after (markDateRangeProcessed startDate endDate callCount) s) = true.
Proof.
  destruct (markDateRangeProcessed_effect s startDate endDate callCount)
    as [_ ->].
  unfold isDateRangeProcessed. apply existsb_exists. eexists. split.
  - cbn. apply in_app_iff. right. left. reflexivity.
  - cbn. rewrite !String.eqb_refl. reflexivity.
Qed.

(** ** Completion rate *)

(** C6.  [getProcessingStats] does not divide when nothing was extracted:
    with [total_calls_extracted = 0] the completion rate is the string "0%";
    with 10 calls extracted and 3 analyzed it is "30.0%"; whenever the
    number of extracted calls is positive it is the binary64 value of
    analyzed / extracted * 100 printed by [toFixed(1)], followed by '%'. *)
Theorem completion_rate_spec (d : document) :
  let extracted := total_calls_extracted (get_call_ids (stages d)) in
  let analyzed := total_analyzed (analyze (stages d)) in
  let rate := completion_rate (getProcessingStats d) in
  (extracted = 0 -> rate = "0%") /\
  (extracted = 10 -> analyzed = 3 -> rate = "30.0%") /\
  (0 < extracted ->
   rate = toFixed1 (double_of_Z analyzed / double_of_Z extracted * 100)%float
            +:+ "%").
Proof.
  cbn zeta. unfold getProcessingStats, completion_rate.
  split; [|split].
  - intros ->. reflexivity.
  - intros -> ->. vm_compute. reflexivity.
  - intros H. apply Z.ltb_lt in H. rewrite H. reflexivity.
Qed.

(** ** Archiving *)

Ltac fs_unfold :=
  unfold fs_existsSync, fs_mkdirSync, fs_renameSync, fs_readFileSync,
    try_catch.

(** A source file that is not on the disk: the move throws, the handler
    reports it, nothing is recorded. *)
Lemma archiveFile_missing s sourceFile category callId :
  disk (world s) !! sourceFile = None ->
  run (archiveFile sourceFile category callId) s = Returns None /\
  state_after (archiveFile sourceFile category callId) s = state (this s) /\
  disk (world (exec (archiveFile sourceFile category callId) s))
  = disk (world s).
Proof.
  intros Hmiss. unfold archiveFile, state_after. fs_unfold.
  monad_unfold. proj_simpl.
  match goal with |- context [negb ?b] => destruct b end;
    cbn [negb]; proj_simpl; rewrite Hmiss; proj_simpl;
    repeat split; reflexivity.
Qed.

(** A source file on the disk and a category of [archived_files]: the file
    moves, one record is appended, the document is saved. *)
Lemma archiveFile_moved s sourceFile category callId content entries :
  disk (world s) !! sourceFile = Some content ->
  obj_get category (archived_files (state (this s))) = Some entries ->
  let m := archiveFile sourceFile category callId in
  let dest := archive_destination s sourceFile category in
  exists text,
    run m s = Returns (Some dest) /\
    state_after m s =
    set_last_updated (clock (world s) (S (S (ticks (world s)))))
      (set_archived_files
         (obj_update category
            (entries ++ [archive_entry s sourceFile category callId])
            (archived_files (state (this s))))
         (state (this s))) /\
    disk (world (exec m s))
    = <[ stateFile (this s) := text ]>
        (<[ dest := content ]> (delete sourceFile (disk (world s)))).
Proof.
  intros Hfile Hcat. unfold archiveFile, state_after. fs_unfold.
  monad_unfold. proj_simpl.
  match goal with |- context [negb ?b] => destruct b end;
    cbn [negb]; proj_simpl; rewrite Hfile; proj_simpl; rewrite Hcat;
    proj_simpl; save; proj_simpl; exists text; repeat split; reflexivity.
Qed.

(** A source file on the disk and a category that [archived_files] does
    not have: the file has moved when [push] fails, and nothing is
    recorded. *)
Lemma archiveFile_unknown_category s sourceFile category callId content :
  disk (world s) !! sourceFile = Some content ->
  obj_get category (archived_files (state (this s))) = None ->
  let m := archiveFile sourceFile category callId in
  run m s = Returns None /\
  state_after m s = state (this s) /\
  disk (world (exec m s))
  = <[ archive_destination s sourceFile category := content ]>
      (delete sourceFile (disk (world s))).
Proof.
  intros Hfile Hcat. unfold archiveFile, state_after. fs_unfold.
  monad_unfold. proj_simpl.
  match goal with |- context [negb ?b] => destruct b end;
    cbn [negb]; proj_simpl; rewrite Hfile; proj_simpl; rewrite Hcat;
    proj_simpl; repeat split; reflexivity.
Qed.

(** The transcript of call "C1" is archived on a new store; archiving it a
    second time finds no file. *)
Example archiveFile_twice :
  let source := "/data/output/transcripts/B1_C1.txt" in
  let s := exec (fs_writeFileSync source "Agent: hello") fresh in
  let m := archiveFile source "transcripts" (VStr "C1") in
  run m s = Returns (Some "/data/archive/transcripts/2025-01-01/B1_C1.txt") /\
  disk (world (exec m s)) !! source = None /\
  disk (world (exec m s)) !! "/data/archive/transcripts/2025-01-01/B1_C1.txt"
  = Some "Agent: hello" /\
  obj_get "transcripts" (archived_files (state_after m s))
  = Some [[("call_id", VStr "C1"); ("original_filename", VStr "B1_C1.txt");
           ("archive_path",
              VStr "/data/archive/transcripts/2025-01-01/B1_C1.txt");
           ("archived_at", VStr "2025-01-01T00:00:3.000Z")]] /\
  run m (exec m s) = Returns None /\
  archived_files (state_after m (exec m s)) = archived_files (state_after m s).
Proof. vm_compute. repeat split. Qed.

(** The rate on a few more totals: thirds are rounded to the nearest
    tenth, and a store with more analyses than extracted calls shows more
    than 100%. *)
Example completion_rate_examples :
  let rate extracted analyzed :=
    let d := default_state "" "" in
    completion_rate
      (getProcessingStats
         (set_analyze {| analyzed_calls := []; failed_analyses := [];
                         total_analyzed := analyzed |}
            (set_get_call_ids {| processed_date_ranges := [];
                                 total_calls_extracted := extracted;
                                 last_run := VNull |} d))) in
  rate 3 1 = "33.3%" /\ rate 3 2 = "66.7%" /\ rate 8 1 = "12.5%" /\
  rate 7 7 = "100.0%" /\ rate 2 3 = "150.0%" /\ rate 1000 1 = "0.1%" /\
  rate 0 5 = "0%" /\ rate (-1) 5 = "0%".
Proof. vm_compute. repeat split. Qed.

(** ** Loading the state *)

(** Creating the missing directories returns and touches neither the
    object, nor the files, nor the clock, nor the console. *)
Lemma make_missing_effect (l : list string) (s : Sys) :
  exists ds,
    make_missing l s =
    (Returns tt,
     {| this := this s;
        world := {| disk := disk (world s); dirs := ds;
                    clock := clock (world s); ticks := ticks (world s);
                    console := console (world s) |} |}).
Proof.
  revert s. induction l as [|dir l IH]; intros s.
  - exists (dirs (world s)). destruct s as [p []]. reflexivity.
  - cbn [make_missing]. unfold fs_existsSync, fs_mkdirSync.
    monad_unfold. proj_simpl.
    destruct (is_file dir (world s) || is_dir dir (world s));
      cbn [negb]; proj_simpl;
      match goal with |- context [make_missing l ?s'] =>
        destruct (IH s') as [ds ->] end;
      proj_simpl; eexists; reflexivity.
Qed.

(** The whole effect of the constructor on a state file that is not
    JSON. *)
Lemma constructor_corrupt_state (s : Sys) (base text : string) :
  let file := path_join (path_join base "logs") "pipeline_state.json" in
  disk (world s) !! file = Some text ->
  JSON_parse text = SyntaxError ->
  let w := world s in
  exists ds,
    constructor base s =
    (Returns tt,
     {| this := {| baseDir := base; stateFile := file;
                   archiveDir := path_join base "archive";
                   state := default_state (clock w (ticks w))
                              (clock w (S (ticks w))) |};
        world := {| disk := disk w; dirs := ds; clock := clock w;
                    ticks := S (S (ticks w));
                    console :=
                      console w ++
                        [Warn ("⚠️ Could not load pipeline state: Unexpected token in JSON")] |} |}).
Proof.
  intros file Hfile Hparse w. subst file w.
  unfold constructor, loadState, ensureDirectories, parse_document.
  fs_unfold. monad_unfold. proj_simpl.
  unfold is_file. proj_simpl. rewrite Hfile. cbn [orb].
  proj_simpl. rewrite Hfile. proj_simpl. rewrite Hparse. proj_simpl.
  cbn [message].
  match goal with |- context [make_missing ?l ?s'] =>
    destruct (make_missing_effect l s') as [ds ->] end.
  proj_simpl. exists ds. reflexivity.
Qed.

(** ** JSON texts: what is written is what is read *)

#[local] Arguments String.append : simpl nomatch.

Lemma append_assoc (a b c : string) : (a +:+ b) +:+ c = a +:+ (b +:+ c).
Proof. induction a as [|x a IH]; simpl; congruence. Qed.

Lemma append_empty_r (a : string) : a +:+ "" = a.
Proof. induction a as [|x a IH]; simpl; congruence. Qed.

Lemma length_append (a b : string) :
  String.length (a +:+ b) = (String.length a + String.length b)%nat.
Proof.
  induction a as [|x a IH]; simpl; [reflexivity|].
  rewrite IH. reflexivity.
Qed.

Lemma skip_ws_blank (w s : string) :
  blank_string w = true -> skip_ws (w +:+ s) = skip_ws s.
Proof.
  induction w as [|c w IH]; simpl; [reflexivity|].
  intros H. apply andb_true_iff in H as [Hc Hw]. rewrite Hc. apply IH, Hw.
Qed.

Lemma skip_ws_stop (c : ascii) (r : string) :
  is_ws c = false -> skip_ws (String c r) = String c r.
Proof. intros H. simpl. rewrite H. reflexivity. Qed.

Lemma blank_append (a b : string) :
  blank_string a = true -> blank_string b = true -> blank_string (a +:+ b) = true.
Proof.
  induction a as [|c a IH]; simpl; [auto|].
  intros H Hb. apply andb_true_iff in H as [Hc Ha]. rewrite Hc. apply IH; assumption.
Qed.

Lemma next_is_blank (c : ascii) (w s : string) :
  blank_string w = true -> is_ws c = false ->
  next_is c (w +:+ String c s) = Some s.
Proof.
  intros Hw Hc. unfold next_is.
  rewrite (skip_ws_blank _ _ Hw), (skip_ws_stop _ _ Hc), Ascii.eqb_refl.
  reflexivity.
Qed.

Lemma next_is_other (c c' : ascii) (w s : string) :
  blank_string w = true -> is_ws c' = false -> Ascii.eqb c' c = false ->
  next_is c (w +:+ String c' s) = None.
Proof.
  intros Hw Hc Hne. unfold next_is.
  rewrite (skip_ws_blank _ _ Hw), (skip_ws_stop _ _ Hc), Hne. reflexivity.
Qed.

(** *** Strings *)

Lemma parse_quote_char (c : ascii) (s : string) :
  parse_chars (quote_char c +:+ s)
  = pbind (parse_chars s) (fun t rest => POk (String c t) rest).
Proof.
  destruct c as [[] [] [] [] [] [] [] []]; reflexivity.
Qed.

Lemma parse_quote_chars (s rest : string) :
  parse_chars (quote_chars s +:+ rest) = POk s rest.
Proof.
  induction s as [|c s IH]; cbn [quote_chars].
  - reflexivity.
  - rewrite append_assoc, parse_quote_char, IH. reflexivity.
Qed.

(** *** Numbers *)

Lemma digit_char (k : Z) :
  0 <= k < 10 ->
  let c := char_of_code (48 + k) in
  is_digit c = true /\ digit_value c = k /\
  Ascii.eqb c "0" = (k =? 0) /\ Ascii.eqb c "-" = false.
Proof.
  intros Hk.
  assert (H : k = 0 \/ k = 1 \/ k = 2 \/ k = 3 \/ k = 4 \/ k = 5 \/ k = 6
              \/ k = 7 \/ k = 8 \/ k = 9) by lia.
  repeat (destruct H as [->|H]; [repeat split; reflexivity|]).
  subst k. repeat split; reflexivity.
Qed.

Lemma parse_digits_stop (a : Z) (rest : string) :
  ends_number rest = true -> parse_digits a rest = (a, rest).
Proof.
  destruct rest as [|c r]; simpl; [reflexivity|].
  intros H. apply andb_true_iff in H as [H _].
  apply negb_true_iff in H. rewrite H. reflexivity.
Qed.

(** The digits of [n]: a digit string without a leading zero, unless it is
    "0", that reads back as [n]. *)
Lemma decimal_digits_spec (fuel : nat) :
  forall (n : Z) (acc : string),
    0 <= n < 10 * 2 ^ Z.of_nat fuel ->
    exists (c : ascii) (r : string) (P : Z),
      decimal_digits fuel n acc = String c r +:+ acc /\
      is_digit c = true /\ Ascii.eqb c "-" = false /\
      (Ascii.eqb c "0" = true -> n = 0 /\ r = "") /\
      forall a X, parse_digits a (String c r +:+ X) = parse_digits (a * P + n) X.
Proof.
  assert (One : forall n acc, 0 <= n < 10 ->
    exists (c : ascii) (r : string) (P : Z),
      String (char_of_code (48 + n mod 10)) acc = String c r +:+ acc /\
      is_digit c = true /\ Ascii.eqb c "-" = false /\
      (Ascii.eqb c "0" = true -> n = 0 /\ r = "") /\
      forall a X, parse_digits a (String c r +:+ X) = parse_digits (a * P + n) X).
  { intros n acc Hn. rewrite (Z.mod_small n 10) by lia.
    destruct (digit_char n Hn) as (Hd & Hv & Hz & Hm).
    exists (char_of_code (48 + n)), "", 10.
    split; [reflexivity|]. split; [exact Hd|]. split; [exact Hm|]. split.
    - rewrite Hz. intros H. split; [apply Z.eqb_eq, H|reflexivity].
    - intros a X. simpl. rewrite Hd, Hv. f_equal. lia. }
  induction fuel as [|f IH]; intros n acc Hn.
  - simpl. apply One. simpl in Hn. lia.
  - cbn [decimal_digits]. destruct (n <? 10) eqn:Hlt.
    + apply One. apply Z.ltb_lt in Hlt. lia.
    + apply Z.ltb_ge in Hlt.
      assert (Hq : 0 <= n / 10 < 10 * 2 ^ Z.of_nat f).
      { rewrite Nat2Z.inj_succ, Z.pow_succ_r in Hn by lia.
        split; [apply Z.div_pos; lia|].
        apply Z.div_lt_upper_bound; lia. }
      destruct (IH (n / 10) (String (char_of_code (48 + n mod 10)) acc) Hq)
        as (c & r & P & Heq & Hd & Hm & Hz & Hp).
      assert (Hk : 0 <= n mod 10 < 10) by (apply Z.mod_pos_bound; lia).
      destruct (digit_char (n mod 10) Hk) as (Hd' & Hv' & _ & _).
      exists c, (r +:+ String (char_of_code (48 + n mod 10)) ""), (P * 10).
      split; [|split; [exact Hd|split; [exact Hm|split]]].
      * rewrite Heq. simpl. rewrite append_assoc. reflexivity.
      * intros H. destruct (Hz H) as [H0 _].
        assert (1 <= n / 10) by (apply Z.div_le_lower_bound; lia). lia.
      * intros a X.
        replace (String c (r +:+ String (char_of_code (48 + n mod 10)) "") +:+ X)
          with (String c r +:+ String (char_of_code (48 + n mod 10)) X)
          by (simpl; rewrite append_assoc; reflexivity).
        rewrite Hp. simpl. rewrite Hd', Hv'. f_equal.
        pose proof (Z.div_mod n 10). lia.
Qed.

Lemma log2_fuel (n : Z) :
  0 <= n -> 0 <= n < 10 * 2 ^ Z.of_nat (Z.to_nat (Z.log2 n)).
Proof.
  intros Hn. rewrite Z2Nat.id by apply Z.log2_nonneg.
  destruct (Z.eq_dec n 0) as [->|Hne]; [simpl; lia|].
  pose proof (Z.log2_spec n ltac:(lia)) as [_ H].
  rewrite Z.pow_succ_r in H by apply Z.log2_nonneg. lia.
Qed.

Lemma parse_int_digits (n : Z) (c : ascii) (r rest : string) (P : Z) :
  is_digit c = true ->
  (Ascii.eqb c "0" = true -> n = 0 /\ r = "") ->
  (forall a X, parse_digits a (String c r +:+ X) = parse_digits (a * P + n) X) ->
  ends_number rest = true ->
  parse_int (String c r +:+ rest) = POk n rest.
Proof.
  intros Hd Hz Hp Hrest. cbn [String.append parse_int]. rewrite Hd. cbn [negb].
  assert (Hend : (if starts_fraction_or_exponent rest then PUnmodelled
                  else match rest with
                       | String d _ => if is_digit d then PSyntaxError
                                       else POk n rest
                       | EmptyString => POk n rest
                       end) = POk n rest).
  { destruct rest as [|d rest']; [reflexivity|].
    unfold ends_number in Hrest. apply andb_true_iff in Hrest as [H1 H2].
    apply negb_true_iff in H1, H2. rewrite H1, H2. reflexivity. }
  destruct (Ascii.eqb c "0") eqn:E0.
  - destruct (Hz eq_refl) as [-> ->]. simpl. exact Hend.
  - specialize (Hp 0 rest). cbn [String.append] in Hp. rewrite Hp.
    rewrite (parse_digits_stop _ _ Hrest). simpl. exact Hend.
Qed.

Lemma parse_number_toString (n : Z) (rest : string) :
  ends_number rest = true ->
  parse_number (Number_toString n +:+ rest) = POk n rest.
Proof.
  intros Hrest. unfold Number_toString. destruct (n <? 0) eqn:Hneg.
  - apply Z.ltb_lt in Hneg.
    destruct (decimal_digits_spec _ (- n) "" (log2_fuel (- n) ltac:(lia)))
      as (c & r & P & Heq & Hd & Hm & Hz & Hp).
    rewrite Heq, append_empty_r. cbn [String.append parse_number].
    change (Ascii.eqb "-" "-") with true. cbv iota.
    change (String c (r +:+ rest)) with (String c r +:+ rest).
    rewrite (parse_int_digits (- n) c r rest P Hd Hz Hp Hrest). simpl.
    f_equal. lia.
  - apply Z.ltb_ge in Hneg.
    destruct (decimal_digits_spec _ n "" (log2_fuel n Hneg))
      as (c & r & P & Heq & Hd & Hm & Hz & Hp).
    rewrite Heq, append_empty_r. cbn [String.append parse_number].
    rewrite Hm.
    change (String c (r +:+ rest)) with (String c r +:+ rest).
    apply (parse_int_digits n c r rest P Hd Hz Hp Hrest).
Qed.

(** *** Objects in own-property order *)

Lemma distinct_prefix (l l' : list string) :
  distinct (l ++ l') = true -> distinct l = true.
Proof.
  induction l as [|k l IH]; simpl; [reflexivity|].
  intros H. apply andb_true_iff in H as [H1 H2].
  rewrite existsb_app in H1. apply negb_true_iff, orb_false_iff in H1 as [H1 _].
  rewrite H1. simpl. apply IH, H2.
Qed.

Lemma distinct_last (l : list string) (k : string) :
  distinct (l ++ [k]) = true -> ~ In k l.
Proof.
  induction l as [|k' l IH]; simpl; [tauto|].
  intros H. apply andb_true_iff in H as [H1 H2].
  rewrite existsb_app in H1. apply negb_true_iff, orb_false_iff in H1 as [_ H1].
  simpl in H1. rewrite orb_false_r in H1. apply String.eqb_neq in H1.
  intros [E|Hin]; [congruence|]. exact (IH H2 Hin).
Qed.

Lemma property_order_prefix (ks ks' : list string) :
  forall lower,
    property_order lower (ks ++ ks') = true -> property_order lower ks = true.
Proof.
  induction ks as [|k ks IH]; intros lower; [reflexivity|].
  cbn [app property_order]. destruct (array_index k) as [n|].
  - intros H. apply andb_true_iff in H as [H1 H2].
    rewrite H1. simpl. apply (IH _ H2).
  - intros H. apply andb_true_iff in H as [H1 H2].
    rewrite forallb_app in H1. apply andb_true_iff in H1 as [H1 _].
    rewrite H1. simpl.
    apply (distinct_prefix (k :: ks) ks'). exact H2.
Qed.

(** The last key of an ordered list, when it is an array index, exceeds
    the bound and every key before it is a smaller array index. *)
Lemma property_order_last_index (ks : list string) (k : string) (n : Z) :
  forall lower,
    property_order lower (ks ++ [k]) = true -> array_index k = Some n ->
    lower <= n.
Proof.
  induction ks as [|k' ks IH]; intros lower; cbn [app property_order].
  - intros H Hk. rewrite Hk in H. apply andb_true_iff in H as [H _].
    apply Z.leb_le, H.
  - destruct (array_index k') as [m|].
    + intros H Hk. apply andb_true_iff in H as [H1 H2].
      apply Z.leb_le in H1. specialize (IH _ H2 Hk). lia.
    + intros H Hk. apply andb_true_iff in H as [H _].
      rewrite forallb_app in H. apply andb_true_iff in H as [_ H].
      simpl in H. unfold not_index in H. rewrite Hk in H. discriminate.
Qed.

Lemma property_order_last_new (ks : list string) (k : string) :
  forall lower, property_order lower (ks ++ [k]) = true -> ~ In k ks.
Proof.
  induction ks as [|k' ks IH]; intros lower; [simpl; tauto|].
  cbn [app property_order]. destruct (array_index k') as [m|] eqn:Hk'.
  - intros H. apply andb_true_iff in H as [_ H2].
    intros [->|Hin]; [|exact (IH _ H2 Hin)].
    pose proof (property_order_last_index _ _ _ _ H2 Hk'). lia.
  - intros H. apply andb_true_iff in H as [_ H].
    apply (distinct_last (k' :: ks) k). exact H.
Qed.

Lemma obj_place_last {V : Type} (o : obj V) (k : string) (v : V) (n : Z) :
  forall lower,
    property_order lower (map fst o ++ [k]) = true -> array_index k = Some n ->
    obj_place n k v o = o ++ [(k, v)].
Proof.
  induction o as [|[k' v'] o IH]; intros lower; [reflexivity|].
  cbn [map fst app property_order obj_place].
  destruct (array_index k') as [m|].
  - intros H Hk. apply andb_true_iff in H as [_ H2].
    pose proof (property_order_last_index _ _ _ _ H2 Hk) as Hmn.
    replace (m <? n) with true by (symmetry; apply Z.ltb_lt; lia).
    rewrite (IH _ H2 Hk). reflexivity.
  - intros H Hk. apply andb_true_iff in H as [H _].
    rewrite forallb_app in H. apply andb_true_iff in H as [_ H].
    simpl in H. unfold not_index in H. rewrite Hk in H. discriminate.
Qed.

(** Defining the next property of an ordered object appends it. *)
Lemma obj_define_last {V : Type} (o : obj V) (k : string) (v : V) :
  property_order 0 (map fst o ++ [k]) = true ->
  obj_define k v o = o ++ [(k, v)].
Proof.
  intros H. unfold obj_define.
  assert (Hnew : obj_has k o = false).
  { destruct (obj_has k o) eqn:E; [|reflexivity].
    apply obj_has_keys in E. destruct (property_order_last_new _ _ _ H E). }
  rewrite Hnew. destruct (array_index k) as [n|] eqn:Hk; [|reflexivity].
  apply (obj_place_last o k v n 0 H Hk).
Qed.

(** Defining the properties of an ordered object one after the other, as
    [JSON.parse] does, builds that object. *)
Lemma obj_rebuild {V : Type} (o acc : obj V) :
  property_order 0 (map fst (acc ++ o)) = true ->
  fold_left (fun a p => obj_define (fst p) (snd p) a) o acc = acc ++ o.
Proof.
  revert acc. induction o as [|[k v] o IH]; intros acc H; simpl.
  - rewrite app_nil_r. reflexivity.
  - assert (Hk : property_order 0 (map fst acc ++ [k]) = true).
    { apply (property_order_prefix _ (map fst o)).
      rewrite <- app_assoc. simpl. rewrite map_app in H. exact H. }
    rewrite (obj_define_last acc k v Hk).
    rewrite IH; rewrite <- app_assoc; [reflexivity|exact H].
Qed.

(** *** Values *)

Lemma value_ind' (P : value -> Prop) :
  P VUndefined -> P VNull -> (forall b, P (VBool b)) ->
  (forall n, P (VNum n)) -> (forall s, P (VStr s)) ->
  (forall elems, Forall P elems -> P (VArr elems)) ->
  (forall props, Forall (fun p => P (snd p)) props -> P (VObj props)) ->
  forall v, P v.
Proof.
  intros HU HN HB HZ HS HA HO. fix IH 1. intros [| |b|n|s|elems|props].
  - exact HU.
  - exact HN.
  - apply HB.
  - apply HZ.
  - apply HS.
  - apply HA. induction elems as [|e elems IHl]; constructor;
      [apply IH|exact IHl].
  - apply HO. induction props as [|[k e] props IHl]; constructor;
      [apply IH|exact IHl].
Qed.

Lemma value_size_arr (l : list value) :
  value_size (VArr l) = S (elements_size l).
Proof. reflexivity. Qed.

Lemma value_size_obj (l : list (string * value)) :
  value_size (VObj l) = S (members_size l).
Proof. reflexivity. Qed.

Lemma serialize_arr (stepback : string) (l : list value) :
  SerializeJSONProperty stepback (VArr l)
  = Some (bracketed "[" "]" stepback
            (serialized_elements (stepback +:+ gap) l)).
Proof.
  cbn [SerializeJSONProperty]. do 2 f_equal.
  induction l as [|e l IH]; [reflexivity|].
  cbn [serialized_elements]. rewrite <- IH.
  destruct (SerializeJSONProperty (stepback +:+ gap) e); reflexivity.
Qed.

Lemma serialize_obj (stepback : string) (l : list (string * value)) :
  SerializeJSONProperty stepback (VObj l)
  = Some (bracketed "{" "}" stepback
            (serialized_members (stepback +:+ gap) l)).
Proof.
  cbn [SerializeJSONProperty]. do 2 f_equal.
  induction l as [|[k e] l IH]; [reflexivity|].
  cbn [serialized_members]. rewrite <- IH.
  destruct (SerializeJSONProperty (stepback +:+ gap) e); reflexivity.
Qed.

Lemma json_value_serialized (v : value) (stepback : string) :
  json_value v = true -> exists text, SerializeJSONProperty stepback v = Some text.
Proof. destruct v as [| |[]| | | |]; try discriminate; intros _; eexists; reflexivity. Qed.

Lemma serialized_starts (v : value) (stepback text : string) :
  SerializeJSONProperty stepback v = Some text -> starts_value text = true.
Proof.
  destruct v as [| |[]|n|s|elems|props]; simpl; try discriminate;
    try (intros [= <-]; reflexivity).
  - intros [= <-]. unfold Number_toString. destruct (n <? 0) eqn:Hneg.
    + reflexivity.
    + apply Z.ltb_ge in Hneg.
      destruct (decimal_digits_spec _ n "" (log2_fuel n Hneg))
        as (c & r & P & Heq & Hd & _).
      rewrite Heq. cbn [String.append starts_value].
      revert Hd. destruct c as [[] [] [] [] [] [] [] []]; 
        try discriminate; reflexivity.
  - intros [= <-].
    match goal with |- context [bracketed _ _ _ ?p] => destruct p end;
      reflexivity.
  - intros [= <-].
    match goal with |- context [bracketed _ _ _ ?p] => destruct p end;
      reflexivity.
Qed.

Lemma parse_value_blank (fuel : nat) (w s : string) :
  blank_string w = true -> parse_value fuel (w +:+ s) = parse_value fuel s.
Proof.
  intros Hw. destruct fuel as [|f]; [reflexivity|].
  cbn [parse_value]. rewrite (skip_ws_blank _ _ Hw). reflexivity.
Qed.

Lemma join_items (lead tail : string) (items : list string) :
  forall t,
    join ("," +:+ lead) (t :: items) +:+ tail = items_text lead (t :: items) tail.
Proof.
  induction items as [|t' items IH]; intros t; [reflexivity|].
  change (join ("," +:+ lead) (t :: t' :: items))
    with (t +:+ ("," +:+ lead) +:+ join ("," +:+ lead) (t' :: items)).
  change (items_text lead (t :: t' :: items) tail)
    with (t +:+ String "," (lead +:+ items_text lead (t' :: items) tail)).
  rewrite <- IH, !append_assoc. reflexivity.
Qed.

Lemma bracketed_items (open close stepback rest t : string)
  (items : list string) :
  bracketed open close stepback (t :: items) +:+ rest
  = open +:+ (newline +:+ stepback +:+ gap)
      +:+ items_text (newline +:+ stepback +:+ gap) (t :: items)
            ((newline +:+ stepback) +:+ close +:+ rest).
Proof.
  rewrite <- join_items. unfold bracketed. rewrite !append_assoc.
  reflexivity.
Qed.

Lemma blank_lead (stepback : string) :
  blank_string stepback = true ->
  blank_string (newline +:+ stepback +:+ gap) = true /\
  blank_string (newline +:+ stepback) = true /\
  blank_string (stepback +:+ gap) = true.
Proof.
  intros H. repeat split; repeat apply blank_append; try assumption; reflexivity.
Qed.

Lemma next_is_here (c : ascii) (s : string) :
  is_ws c = false -> next_is c (String c s) = Some s.
Proof. intros H. apply (next_is_blank c "" s eq_refl H). Qed.

Lemma items_text_more (lead tail t : string) (items : list string) :
  items <> [] ->
  items_text lead (t :: items) tail
  = t +:+ String "," (lead +:+ items_text lead items tail).
Proof. destruct items; [contradiction|reflexivity]. Qed.

Lemma serialized_elements_step (indent te : string) (e : value)
  (l : list value) :
  SerializeJSONProperty indent e = Some te ->
  serialized_elements indent (e :: l) = te :: serialized_elements indent l.
Proof. intros H. cbn [serialized_elements]. rewrite H. reflexivity. Qed.

Lemma serialized_members_step (indent te k : string) (e : value)
  (l : list (string * value)) :
  SerializeJSONProperty indent e = Some te ->
  serialized_members indent ((k, e) :: l)
  = (QuoteJSONString k +:+ ": " +:+ te) :: serialized_members indent l.
Proof. intros H. cbn [serialized_members]. rewrite H. reflexivity. Qed.

Lemma serialized_elements_nonempty (indent : string) (e : value)
  (l : list value) :
  serialized_elements indent (e :: l) <> [].
Proof.
  cbn [serialized_elements].
  destruct (SerializeJSONProperty indent e); discriminate.
Qed.

Lemma serialized_members_nonempty (indent k : string) (e : value)
  (l : list (string * value)) :
  json_value e = true -> serialized_members indent ((k, e) :: l) <> [].
Proof.
  intros H. destruct (json_value_serialized e indent H) as [te Hte].
  rewrite (serialized_members_step _ _ _ _ _ Hte). discriminate.
Qed.

Lemma member_text (k te tail : string) :
  (QuoteJSONString k +:+ ": " +:+ te) +:+ tail
  = String dquote (quote_chars k +:+ String ":" (" " +:+ te +:+ tail)).
Proof.
  unfold QuoteJSONString. cbn [String.append]. rewrite !append_assoc.
  reflexivity.
Qed.

Section ReadingBack.
Variables stepback rest : string.
Hypothesis Hblank : blank_string stepback = true.
Let indent := stepback +:+ gap.
Let lead := newline +:+ stepback +:+ gap.

Lemma parse_elements_items (l : list value) :
  forall (e : value) (acc : list value) (fuel : nat),
    Forall reads_back (e :: l) ->
    forallb json_value (e :: l) = true ->
    (elements_size (e :: l) <= fuel)%nat ->
    parse_elements fuel acc
      (lead +:+ items_text lead (serialized_elements indent (e :: l))
                  ((newline +:+ stepback) +:+ String "]" rest))
    = POk (VArr (acc ++ e :: l)) rest.
Proof.
  destruct (blank_lead stepback Hblank) as (Hlead & Htail & Hindent).
  induction l as [|e' l IH]; intros e acc fuel HP Hj Hsize.
  - apply Forall_inv in HP.
    cbn [forallb] in Hj. apply andb_true_iff in Hj as [Hj _].
    destruct (json_value_serialized e indent Hj) as [te Hte].
    rewrite (serialized_elements_step _ _ _ _ Hte). cbn [items_text serialized_elements].
    destruct fuel as [|f]; [cbn in Hsize; lia|]. cbn [parse_elements].
    rewrite (parse_value_blank _ _ _ Hlead).
    rewrite (HP Hj indent te _ f Hindent Hte); [|cbn in Hsize; lia|reflexivity].
    cbn [pbind].
    rewrite (next_is_other "," "]" _ _ Htail eq_refl eq_refl).
    rewrite (next_is_blank "]" _ _ Htail eq_refl). reflexivity.
  - pose proof (Forall_inv HP) as He. apply Forall_inv_tail in HP.
    cbn [forallb] in Hj. apply andb_true_iff in Hj as [Hj Hj'].
    destruct (json_value_serialized e indent Hj) as [te Hte].
    rewrite (serialized_elements_step _ _ _ _ Hte).
    rewrite items_text_more by apply serialized_elements_nonempty.
    cbn [elements_size] in Hsize.
    destruct fuel as [|f]; [lia|]. cbn [parse_elements].
    rewrite (parse_value_blank _ _ _ Hlead).
    rewrite (He Hj indent te _ f Hindent Hte); [|lia|reflexivity].
    cbn [pbind]. rewrite (next_is_here "," _ eq_refl).
    rewrite (IH e' (acc ++ [e]) f HP Hj'); [|cbn [elements_size]; lia].
    rewrite <- app_assoc. reflexivity.
Qed.

Lemma parse_members_items (l : list (string * value)) :
  forall (k : string) (e : value) (acc : obj value) (fuel : nat),
    Forall (fun p => reads_back (snd p)) ((k, e) :: l) ->
    forallb (fun p => json_value (snd p)) ((k, e) :: l) = true ->
    (members_size ((k, e) :: l) <= fuel)%nat ->
    parse_members fuel acc
      (lead +:+ items_text lead (serialized_members indent ((k, e) :: l))
                  ((newline +:+ stepback) +:+ String "}" rest))
    = POk (VObj (fold_left (fun a p => obj_define (fst p) (snd p) a)
                   ((k, e) :: l) acc)) rest.
Proof.
  destruct (blank_lead stepback Hblank) as (Hlead & Htail & Hindent).
  induction l as [|[k' e'] l IH]; intros k e acc fuel HP Hj Hsize.
  - apply Forall_inv in HP. cbn [snd] in HP.
    cbn [forallb snd] in Hj. apply andb_true_iff in Hj as [Hj _].
    destruct (json_value_serialized e indent Hj) as [te Hte].
    rewrite (serialized_members_step _ _ _ _ _ Hte).
    cbn [items_text serialized_members]. rewrite member_text.
    destruct fuel as [|f]; [cbn in Hsize; lia|]. cbn [parse_members].
    rewrite (next_is_blank dquote _ _ Hlead eq_refl).
    rewrite parse_quote_chars. cbn [pbind].
    rewrite (next_is_here ":" _ eq_refl).
    rewrite (parse_value_blank _ " " _ eq_refl).
    rewrite (HP Hj indent te _ f Hindent Hte); [|cbn in Hsize; lia|reflexivity].
    cbn [pbind].
    rewrite (next_is_other "," "}" _ _ Htail eq_refl eq_refl).
    rewrite (next_is_blank "}" _ _ Htail eq_refl). reflexivity.
  - pose proof (Forall_inv HP) as He. cbn [snd] in He.
    apply Forall_inv_tail in HP.
    cbn [forallb snd] in Hj. apply andb_true_iff in Hj as [Hj Hj'].
    destruct (json_value_serialized e indent Hj) as [te Hte].
    rewrite (serialized_members_step _ _ _ _ _ Hte).
    rewrite items_text_more.
    2:{ apply serialized_members_nonempty.
        apply andb_true_iff in Hj' as [H _]. exact H. }
    rewrite member_text.
    cbn [members_size] in Hsize.
    destruct fuel as [|f]; [lia|]. cbn [parse_members].
    rewrite (next_is_blank dquote _ _ Hlead eq_refl).
    rewrite parse_quote_chars. cbn [pbind].
    rewrite (next_is_here ":" _ eq_refl).
    rewrite (parse_value_blank _ " " _ eq_refl).
    rewrite (He Hj indent te _ f Hindent Hte); [|lia|reflexivity].
    cbn [pbind]. rewrite (next_is_here "," _ eq_refl).
    rewrite (IH k' e' (obj_define k e acc) f HP Hj');
      [|cbn [members_size]; lia].
    reflexivity.
Qed.
End ReadingBack.

Lemma number_head (n : Z) :
  exists c r,
    Number_toString n = String c r /\
    (is_digit c || Ascii.eqb c "-")%bool = true.
Proof.
  unfold Number_toString. destruct (n <? 0) eqn:Hneg.
  - eexists _, _. split; reflexivity.
  - apply Z.ltb_ge in Hneg.
    destruct (decimal_digits_spec _ n "" (log2_fuel n Hneg))
      as (c & r & P & Heq & Hd & _).
    rewrite Heq. exists c, (r +:+ ""). split; [reflexivity|].
    rewrite Hd. reflexivity.
Qed.

Lemma parse_value_number (f : nat) (c : ascii) (s : string) :
  (is_digit c || Ascii.eqb c "-")%bool = true ->
  parse_value (S f) (String c s)
  = pbind (parse_number (String c s)) (fun n rest => POk (VNum n) rest).
Proof.
  destruct c as [[] [] [] [] [] [] [] []]; try discriminate; reflexivity.
Qed.

(** Every value without [undefined] whose objects are in own-property
    order reads back. *)
Lemma serialized_reads_back (v : value) : reads_back v.
Proof.
  induction v as [| |b|n|s|elems IH|props IH] using value_ind';
    intros Hj stepback text rest fuel Hblank Htext Hsize Hrest.
  - discriminate.
  - injection Htext as <-. destruct fuel as [|f]; [cbn in Hsize; lia|].
    reflexivity.
  - destruct fuel as [|f]; [cbn in Hsize; lia|].
    destruct b; injection Htext as <-; reflexivity.
  - injection Htext as <-. destruct fuel as [|f]; [cbn in Hsize; lia|].
    destruct (number_head n) as (c & r & Heq & Hc).
    pose proof (parse_number_toString n rest Hrest) as Hp.
    rewrite Heq in Hp |- *. cbn [String.append] in Hp |- *.
    rewrite (parse_value_number f c _ Hc), Hp. reflexivity.
  - injection Htext as <-. destruct fuel as [|f]; [cbn in Hsize; lia|].
    unfold QuoteJSONString. cbn [String.append].
    change (parse_value (S f) (String dquote (quote_chars s +:+ rest)))
      with (pbind (parse_chars (quote_chars s +:+ rest))
              (fun t rest => POk (VStr t) rest)).
    rewrite parse_quote_chars. reflexivity.
  - rewrite serialize_arr in Htext. injection Htext as <-.
    rewrite value_size_arr in Hsize.
    destruct fuel as [|f]; [lia|].
    destruct elems as [|e l]; [reflexivity|].
    destruct (blank_lead stepback Hblank) as (Hlead & _ & _).
    assert (Hne : serialized_elements (stepback +:+ gap) (e :: l) <> [])
      by apply serialized_elements_nonempty.
    destruct (serialized_elements (stepback +:+ gap) (e :: l))
      as [|t ts] eqn:Hts; [contradiction|].
    rewrite bracketed_items, <- Hts.
    assert (Hstart : starts_value t = true).
    { cbn [serialized_elements] in Hts.
      destruct (SerializeJSONProperty (stepback +:+ gap) e) eqn:He.
      - injection Hts as <- _. apply (serialized_starts _ _ _ He).
      - injection Hts as <- _. reflexivity. }
    change ("[" +:+ ?x) with (String "[" x).
    cbn [parse_value]. rewrite (skip_ws_stop "[" _ eq_refl).
    change (Ascii.eqb "[" "{") with false.
    change (Ascii.eqb "[" "[") with true. cbv iota.
    assert (Hnext : forall X,
      next_is "]" ((newline +:+ stepback +:+ gap)
                     +:+ items_text (newline +:+ stepback +:+ gap) (t :: ts) X)
      = None).
    { intros X. destruct t as [|c r]; [discriminate|].
      cbn [starts_value] in Hstart. apply andb_true_iff in Hstart as [H1 H2].
      apply negb_true_iff in H1, H2.
      assert (E : exists Y, items_text (newline +:+ stepback +:+ gap)
                              (String c r :: ts) X = String c Y).
      { destruct ts; eexists; reflexivity. }
      destruct E as [Y ->]. apply (next_is_other "]" c _ _ Hlead H1 H2). }
    rewrite Hts, Hnext, <- Hts.
    apply (parse_elements_items stepback rest Hblank l e [] f IH Hj).
    exact (le_S_n _ _ Hsize).
  - rewrite serialize_obj in Htext. injection Htext as <-.
    rewrite value_size_obj in Hsize.
    destruct fuel as [|f]; [lia|].
    cbn [json_value] in Hj. apply andb_true_iff in Hj as [Horder Hj].
    destruct props as [|[k e] l]; [reflexivity|].
    destruct (blank_lead stepback Hblank) as (Hlead & _ & _).
    assert (Hje : json_value e = true).
    { cbn [forallb snd] in Hj. apply andb_true_iff in Hj as [H _]. exact H. }
    destruct (json_value_serialized e (stepback +:+ gap) Hje) as [te Hte].
    pose proof (serialized_members_step (stepback +:+ gap) te k e l Hte) as Hts.
    rewrite Hts, bracketed_items, <- Hts.
    change ("{" +:+ ?x) with (String "{" x).
    cbn [parse_value]. rewrite (skip_ws_stop "{" _ eq_refl).
    change (Ascii.eqb "{" "{") with true. cbv iota.
    assert (Hnext : forall X,
      next_is "}" ((newline +:+ stepback +:+ gap)
                     +:+ items_text (newline +:+ stepback +:+ gap)
                           ((QuoteJSONString k +:+ ": " +:+ te)
                              :: serialized_members (stepback +:+ gap) l) X)
      = None).
    { intros X.
      assert (E : exists Y, items_text (newline +:+ stepback +:+ gap)
                              ((QuoteJSONString k +:+ ": " +:+ te)
                                 :: serialized_members (stepback +:+ gap) l) X
                            = String dquote Y).
      { destruct (serialized_members (stepback +:+ gap) l);
          eexists; reflexivity. }
      destruct E as [Y ->].
      apply (next_is_other "}" dquote _ _ Hlead eq_refl eq_refl). }
    rewrite Hts, Hnext, <- Hts.
    rewrite <- (obj_rebuild ((k, e) :: l) [] Horder) at 2.
    apply (parse_members_items stepback rest Hblank l k e [] f IH Hj).
    exact (le_S_n _ _ Hsize).
Qed.

(** The text of a value has at least as many characters as the value has
    values: the budget [JSON_parse] gives itself is enough. *)
Lemma items_length (lead tail : string) (sizes : list (nat * string)) :
  (1 <= String.length lead)%nat ->
  sizes <> [] ->
  Forall (fun p => (fst p <= String.length (snd p))%nat) sizes ->
  (fold_right (fun p n => S (fst p + n)) O sizes + String.length tail
   <= S (String.length (items_text lead (map snd sizes) tail)))%nat.
Proof.
  intros Hlead. induction sizes as [|[n t] sizes IH]; [contradiction|].
  intros _ HF. pose proof (Forall_inv HF) as Hn. cbn [fst snd] in Hn.
  apply Forall_inv_tail in HF.
  destruct sizes as [|p sizes].
  - cbn [map fold_right items_text snd fst]. rewrite length_append. lia.
  - specialize (IH ltac:(discriminate) HF).
    cbn [map] in IH |- *. rewrite items_text_more by discriminate.
    cbn [fold_right fst snd] in IH |- *.
    rewrite length_append. cbn [String.length]. rewrite length_append. lia.
Qed.

Lemma serialized_length (v : value) :
  json_value v = true ->
  forall stepback text,
    SerializeJSONProperty stepback v = Some text ->
    (value_size v <= String.length text)%nat.
Proof.
  induction v as [| |b|n|s|elems IH|props IH] using value_ind';
    intros Hj stepback text Htext.
  - discriminate.
  - injection Htext as <-. cbn. lia.
  - destruct b; injection Htext as <-; cbn; lia.
  - injection Htext as <-. destruct (number_head n) as (c & r & -> & _).
    cbn. lia.
  - injection Htext as <-. cbn. lia.
  - rewrite serialize_arr in Htext. injection Htext as <-.
    rewrite value_size_arr. destruct elems as [|e l]; [cbn; lia|].
    set (indent := stepback +:+ gap).
    assert (H : exists sizes,
               sizes <> [] /\
               map snd sizes = serialized_elements indent (e :: l) /\
               fold_right (fun p n => S (fst p + n)) O sizes
               = elements_size (e :: l) /\
               Forall (fun p => (fst p <= String.length (snd p))%nat) sizes).
    { cbn [json_value] in Hj. clear -IH Hj.
      assert (G : forall l, Forall (fun e => json_value e = true ->
                   forall stepback text,
                     SerializeJSONProperty stepback e = Some text ->
                     (value_size e <= String.length text)%nat) l ->
                 forallb json_value l = true ->
                 exists sizes,
                   length sizes = length l /\
                   map snd sizes = serialized_elements indent l /\
                   fold_right (fun p n => S (fst p + n)) O sizes
                   = elements_size l /\
                   Forall (fun p => (fst p <= String.length (snd p))%nat) sizes).
      { clear. induction l as [|e l IHl]; intros HF Hj.
        - exists []. repeat split. constructor.
        - cbn [forallb] in Hj. apply andb_true_iff in Hj as [Hje Hjl].
          destruct (IHl (Forall_inv_tail HF) Hjl) as (sizes & H0 & H1 & H2 & H3).
          destruct (json_value_serialized e indent Hje) as [te Hte].
          exists ((value_size e, te) :: sizes).
          rewrite (serialized_elements_step _ _ _ _ Hte).
          cbn [map fold_right fst snd elements_size length].
          rewrite H0, H1, H2. repeat split.
          constructor; [|exact H3]. exact (Forall_inv HF Hje indent te Hte). }
      destruct (G (e :: l) IH Hj) as (sizes & H0 & H1 & H2 & H3).
      exists sizes. repeat split; try assumption.
      intros ->. discriminate. }
    destruct H as (sizes & Hne & Hmap & Hsum & HF).
    destruct sizes as [|[n0 t0] sizes]; [contradiction|].
    pose proof (bracketed_items "[" "]" stepback "" t0 (map snd sizes)) as Hb.
    rewrite append_empty_r in Hb. cbn [map snd] in Hmap. rewrite <- Hmap, Hb.
    pose proof (items_length (newline +:+ stepback +:+ gap)
                  ((newline +:+ stepback) +:+ "]" +:+ "")
                  ((n0, t0) :: sizes) ltac:(cbn; lia) Hne HF) as Hl.
    rewrite Hsum in Hl. cbn [map snd] in Hl.
    rewrite !length_append in Hl |- *.
    unfold newline, gap in *. cbn [String.length] in *. lia.
  - rewrite serialize_obj in Htext. injection Htext as <-.
    rewrite value_size_obj. destruct props as [|[k e] l]; [cbn; lia|].
    set (indent := stepback +:+ gap).
    cbn [json_value] in Hj. apply andb_true_iff in Hj as [_ Hj].
    assert (G : forall l, Forall (fun p => json_value (snd p) = true ->
                   forall stepback text,
                     SerializeJSONProperty stepback (snd p) = Some text ->
                     (value_size (snd p) <= String.length text)%nat) l ->
                 forallb (fun p => json_value (snd p)) l = true ->
                 exists sizes,
                   length sizes = length l /\
                   map snd sizes = serialized_members indent l /\
                   fold_right (fun p n => S (fst p + n)) O sizes
                   = members_size l /\
                   Forall (fun p => (fst p <= String.length (snd p))%nat) sizes).
    { clear. induction l as [|[k e] l IHl]; intros HF Hj.
      - exists []. repeat split. constructor.
      - cbn [forallb snd] in Hj. apply andb_true_iff in Hj as [Hje Hjl].
        destruct (IHl (Forall_inv_tail HF) Hjl) as (sizes & H0 & H1 & H2 & H3).
        destruct (json_value_serialized e indent Hje) as [te Hte].
        exists ((value_size e, QuoteJSONString k +:+ ": " +:+ te) :: sizes).
        rewrite (serialized_members_step _ _ _ _ _ Hte).
        cbn [map fold_right fst snd members_size length].
        rewrite H0, H1, H2. repeat split.
        constructor; [|exact H3]. cbn [fst snd].
        pose proof (Forall_inv HF Hje indent te Hte) as Hle. cbn [snd] in Hle.
        rewrite !length_append. lia. }
    destruct (G ((k, e) :: l) IH Hj) as (sizes & H0 & Hmap & Hsum & HF).
    destruct sizes as [|[n0 t0] sizes]; [discriminate|].
    pose proof (bracketed_items "{" "}" stepback "" t0 (map snd sizes)) as Hb.
    rewrite append_empty_r in Hb. cbn [map snd] in Hmap. rewrite <- Hmap, Hb.
    pose proof (items_length (newline +:+ stepback +:+ gap)
                  ((newline +:+ stepback) +:+ "}" +:+ "")
                  ((n0, t0) :: sizes) ltac:(cbn; lia) ltac:(discriminate) HF)
      as Hl.
    rewrite Hsum in Hl. cbn [map snd] in Hl.
    rewrite !length_append in Hl |- *.
    unfold newline, gap in *. cbn [String.length] in *. lia.
Qed.

(** [JSON.parse (JSON.stringify (v, null, 2))] is [v], for every value
    without [undefined] whose objects are in own-property order. *)
Lemma JSON_parse_stringify (v : value) :
  json_value v = true ->
  exists text, JSON_stringify v = Some text /\ JSON_parse text = Parsed v.
Proof.
  intros Hj. destruct (json_value_serialized v "" Hj) as [text Htext].
  exists text. split; [exact Htext|]. unfold JSON_parse.
  pose proof (serialized_reads_back v Hj "" text "" (S (String.length text))
                eq_refl Htext) as H.
  rewrite append_empty_r in H. rewrite H; [reflexivity| |reflexivity].
  pose proof (serialized_length v Hj "" text Htext). lia.
Qed.

(** ** The typed view of the stored document *)

Lemma as_objects_objects (l : list (obj value)) : as_objects (objects l) = Some l.
Proof.
  unfold as_objects, objects.
  induction l as [|o l IH]; [reflexivity|]. cbn [map all_some as_object].
  rewrite IH. reflexivity.
Qed.

Lemma as_object_map_object_map (m : obj (obj value)) :
  as_object_map (object_map m) = Some m.
Proof.
  unfold as_object_map, object_map.
  induction m as [|[k o] m IH]; [reflexivity|].
  cbn [map all_some as_object fst snd]. rewrite IH. reflexivity.
Qed.

Lemma decode_archived_files_encoded (a : obj (list (obj value))) :
  decode_archived_files (VObj (map (fun p => (fst p, objects (snd p))) a))
  = Some a.
Proof.
  unfold decode_archived_files.
  induction a as [|[k l] a IH]; [reflexivity|].
  cbn [map all_some fst snd]. rewrite as_objects_objects, IH. reflexivity.
Qed.

Lemma decode_stage_value (successes failures total : string)
  (s f : obj (obj value)) (n : Z) :
  decode_stage successes failures total
    (stage_value successes failures total s f n) = Some (s, f, n).
Proof.
  unfold decode_stage, stage_value, fields. cbn [map fst snd same_keys].
  rewrite !String.eqb_refl. cbn [andb].
  rewrite !as_object_map_object_map. reflexivity.
Qed.

(** Every document is the typed view of its own JavaScript object. *)
Lemma decode_encode (d : document) : decode (encode d) = Some d.
Proof.
  destruct d as [ver cr lu [[ranges extracted run] [ds df dn] [ts tf tn]
                              [us uf un] [zs zf zn]] af].
  unfold encode, decode, decode_stages, decode_get_call_ids.
  cbn -[decode_stage stage_value as_objects objects decode_archived_files].
  rewrite !decode_stage_value, as_objects_objects,
    decode_archived_files_encoded.
  reflexivity.
Qed.

(** Stamping the document does not change whether it can be stored. *)
Lemma storable_set_last_updated (t : string) (d : document) :
  storable (set_last_updated t d) = storable d.
Proof. reflexivity. Qed.

(** ** Persistence round trip *)

(** C9, as stated, fails: on a new store, the analysis of call "C1" has
    no [sentiment], [success_rating] or [call_disposition], so the entry
    [markAnalyzed] stores holds these three properties with the value
    [undefined]; the saved text leaves them out, and the document loaded
    back has an [analysis_summary] without properties. *)
Lemma undefined_fields_are_not_saved :
  let s := exec (markAnalyzed "C1" (VObj [("summary", VStr "Rate inquiry")]))
             fresh in
  let saved := exec saveState s in
  let entry d := obj_get "C1" (analyzed_calls (analyze (stages d))) in
  entry (state (this saved))
  = Some [("status", VStr "completed");
          ("analysis_summary",
             VObj [("sentiment", VUndefined); ("success_rating", VUndefined);
                   ("call_disposition", VUndefined)]);
          ("completed_at", VStr "2025-01-01T00:00:2.000Z")] /\
  match run loadState saved with
  | Returns loaded => entry loaded
  | _ => None
  end
  = Some [("status", VStr "completed");
          ("analysis_summary", VObj []);
          ("completed_at", VStr "2025-01-01T00:00:2.000Z")].
Proof. vm_compute. split; reflexivity. Qed.

(** C9, amended.  For every document that can be stored (no property or
    element below it is [undefined], and the properties of its objects
    are in own-property order), [saveState] followed by [loadState]
    returns the saved document, field for field: the stage success and
    failure maps, the archive lists, the running totals and the stamps. *)
Theorem saved_state_loads_back (s : Sys) :
  storable (state (this s)) = true ->
  run saveState s = Returns tt /\
  run loadState (exec saveState s) = Returns (state_after saveState s) /\
  console (world (exec loadState (exec saveState s))) = console (world s).
Proof.
  intros Hst.
  destruct (saveState_effect s) as (text & Htext & E).
  unfold run, exec, state_after. rewrite E. proj_simpl.
  split; [reflexivity|].
  set (d := set_last_updated (clock (world s) (ticks (world s)))
              (state (this s))) in *.
  assert (Hparse : JSON_parse text = Parsed (encode d)).
  { destruct (JSON_parse_stringify (encode d)) as (text' & H1 & H2).
    - exact Hst.
    - rewrite Htext in H1. injection H1 as <-. exact H2. }
  unfold loadState, parse_document. fs_unfold. monad_unfold. proj_simpl.
  unfold is_file. proj_simpl. rewrite !lookup_insert_eq. cbn [orb].
  proj_simpl. rewrite !lookup_insert_eq. proj_simpl.
  rewrite Hparse, decode_encode. proj_simpl. split; reflexivity.
Qed.

Lemma saved_state_loads_back_witness :
  run saveState fresh = Returns tt /\
  run loadState (exec saveState fresh) = Returns (state_after saveState fresh) /\
  console (world (exec loadState (exec saveState fresh)))
  = console (world fresh).
Proof. apply (saved_state_loads_back fresh). reflexivity. Defined.

(** ** The methods keep the document storable *)

(** *** Array indices are canonical *)

Lemma digit_value_range (c : ascii) :
  is_digit c = true -> 0 <= digit_value c < 10.
Proof.
  unfold is_digit, digit_value. intros H. apply andb_true_iff in H as [H1 H2].
  apply Nat.leb_le in H1, H2. lia.
Qed.

Lemma digit_value_inj (c c' : ascii) :
  digit_value c = digit_value c' -> c = c'.
Proof.
  unfold digit_value. intros H.
  rewrite <- (ascii_nat_embedding c), <- (ascii_nat_embedding c').
  f_equal. lia.
Qed.

Lemma digits_value_range (s : string) :
  forall a x,
    0 <= a -> digits_value a s = Some x ->
    a * 10 ^ Z.of_nat (String.length s) <= x
    < (a + 1) * 10 ^ Z.of_nat (String.length s).
Proof.
  induction s as [|c r IH]; intros a x Ha; cbn [digits_value String.length].
  - intros [= <-]. simpl. lia.
  - destruct (is_digit c) eqn:Hc; [|discriminate]. intros H.
    pose proof (digit_value_range c Hc) as Hd.
    apply IH in H; [|lia].
    rewrite Nat2Z.inj_succ, Z.pow_succ_r by lia.
    assert (0 < 10 ^ Z.of_nat (String.length r)) by (apply Z.pow_pos_nonneg; lia).
    nia.
Qed.

Lemma digits_value_inj (s : string) :
  forall s' a a' x,
    String.length s = String.length s' -> 0 <= a -> 0 <= a' ->
    digits_value a s = Some x -> digits_value a' s' = Some x ->
    a = a' /\ s = s'.
Proof.
  induction s as [|c r IH]; intros [|c' r'] a a' x Hlen Ha Ha';
    try discriminate; cbn [digits_value].
  - intros [= <-] [= <-]. split; reflexivity.
  - destruct (is_digit c) eqn:Hc; [|discriminate].
    destruct (is_digit c') eqn:Hc'; [|discriminate]. intros H H'.
    pose proof (digit_value_range c Hc). pose proof (digit_value_range c' Hc').
    injection Hlen as Hlen.
    destruct (IH r' (10 * a + digit_value c) (10 * a' + digit_value c') x
                Hlen ltac:(lia) ltac:(lia) H H') as [E ->].
    assert (digit_value c = digit_value c') by lia.
    split; [lia|]. f_equal. apply digit_value_inj. assumption.
Qed.

(** The digits of an array index: no leading zero, so their number is
    fixed by the value. *)
Lemma array_index_digits (k : string) (n : Z) :
  array_index k = Some n ->
  digits_value 0 k = Some n /\ (1 <= String.length k)%nat /\
  (n = 0 /\ k = "0" \/
   10 ^ (Z.of_nat (String.length k) - 1) <= n
   < 10 ^ Z.of_nat (String.length k)).
Proof.
  unfold array_index. destruct k as [|c r]; [discriminate|].
  destruct (Ascii.eqb c "0" && negb (String.eqb r ""))%bool eqn:Hlead;
    [discriminate|].
  destruct (digits_value 0 (String c r)) as [x|] eqn:Hx; [|discriminate].
  destruct (x <? 2 ^ 32 - 1); [|discriminate]. intros [= ->].
  split; [reflexivity|]. split; [cbn [String.length]; lia|].
  cbn [digits_value] in Hx. destruct (is_digit c) eqn:Hc; [|discriminate].
  pose proof (digit_value_range c Hc) as Hd.
  apply digits_value_range in Hx; [|lia].
  cbn [String.length]. rewrite Nat2Z.inj_succ.
  replace (Z.succ (Z.of_nat (String.length r)) - 1)
    with (Z.of_nat (String.length r)) by lia.
  rewrite Z.pow_succ_r by lia.
  assert (0 < 10 ^ Z.of_nat (String.length r)) by (apply Z.pow_pos_nonneg; lia).
  destruct (Ascii.eqb_spec c "0") as [->|Hne].
  - left. cbn [andb] in Hlead. apply negb_false_iff, String.eqb_eq in Hlead.
    subst r. simpl in Hx. split; [|reflexivity]. change (digit_value "0") with 0 in Hx.
    lia.
  - right. assert (digit_value c <> 0).
    { intros E. apply Hne. apply digit_value_inj. exact E. }
    nia.
Qed.

Lemma array_index_inj (k k' : string) (n : Z) :
  array_index k = Some n -> array_index k' = Some n -> k = k'.
Proof.
  intros H H'.
  apply array_index_digits in H as (Hv & Hl & Hr), H' as (Hv' & Hl' & Hr').
  assert (Hlen : String.length k = String.length k').
  { destruct Hr as [[-> ->]|Hr], Hr' as [[E ->]|Hr']; try reflexivity.
    - assert (0 < 10 ^ (Z.of_nat (String.length k') - 1)); [|lia].
      apply Z.pow_pos_nonneg; lia.
    - subst n. assert (0 < 10 ^ (Z.of_nat (String.length k) - 1)); [|lia].
      apply Z.pow_pos_nonneg; lia.
    - destruct (Nat.lt_trichotomy (String.length k) (String.length k'))
        as [Hlt|[E|Hlt]]; [|exact E|].
      + assert (10 ^ Z.of_nat (String.length k)
                <= 10 ^ (Z.of_nat (String.length k') - 1))
          by (apply Z.pow_le_mono_r; lia). lia.
      + assert (10 ^ Z.of_nat (String.length k')
                <= 10 ^ (Z.of_nat (String.length k) - 1))
          by (apply Z.pow_le_mono_r; lia). lia. }
  apply (digits_value_inj k k' 0 0 n Hlen ltac:(lia) ltac:(lia) Hv Hv').
Qed.

(** *** Assignments keep the own-property order *)

Lemma distinct_snoc (l : list string) (k : string) :
  distinct l = true -> ~ In k l -> distinct (l ++ [k]) = true.
Proof.
  induction l as [|k' l IH]; intros Hd Hk; [reflexivity|].
  cbn [app distinct] in Hd |- *. apply andb_true_iff in Hd as [H1 H2].
  apply andb_true_iff. split.
  - rewrite existsb_app. apply negb_true_iff in H1. rewrite H1. simpl.
    rewrite orb_false_r. apply negb_true_iff, String.eqb_neq.
    intros ->. apply Hk. left. reflexivity.
  - apply IH; [exact H2|]. intros H. apply Hk. right. exact H.
Qed.

Lemma property_order_snoc (k : string) (ks : list string) :
  forall lower,
    property_order lower ks = true -> array_index k = None -> ~ In k ks ->
    property_order lower (ks ++ [k]) = true.
Proof.
  induction ks as [|k' ks IH]; intros lower Hpo Hk Hnew.
  - cbn [app property_order]. rewrite Hk. simpl.
    rewrite String.eqb_refl || reflexivity.
  - cbn [app property_order] in Hpo |- *.
    destruct (array_index k') as [m|].
    + apply andb_true_iff in Hpo as [H1 H2]. rewrite H1. simpl.
      apply IH; [exact H2|exact Hk|]. intros H. apply Hnew. right. exact H.
    + apply andb_true_iff in Hpo as [H1 H2]. apply andb_true_iff. split.
      * rewrite forallb_app, H1. simpl. unfold not_index. rewrite Hk.
        reflexivity.
      * apply (distinct_snoc (k' :: ks) k H2 Hnew).
Qed.

Lemma property_order_place {V : Type} (k : string) (v : V) (n : Z)
  (o : obj V) :
  forall lower,
    property_order lower (map fst o) = true -> array_index k = Some n ->
    lower <= n -> ~ In k (map fst o) ->
    property_order lower (map fst (obj_place n k v o)) = true.
Proof.
  induction o as [|[k' v'] o IH]; intros lower Hpo Hk Hle Hnew.
  - cbn [obj_place map fst property_order]. rewrite Hk.
    apply andb_true_iff. split; [apply Z.leb_le, Hle|reflexivity].
  - cbn [obj_place map fst property_order] in Hpo |- *.
    destruct (array_index k') as [m|] eqn:Hk'.
    + apply andb_true_iff in Hpo as [H1 H2].
      destruct (m <? n) eqn:Hmn.
      * cbn [map fst property_order]. rewrite Hk', H1. simpl.
        apply Z.ltb_lt in Hmn.
        apply IH; [exact H2|exact Hk|lia|].
        intros H. apply Hnew. right. exact H.
      * cbn [map fst property_order]. rewrite Hk, Hk'.
        apply Z.ltb_ge in Hmn.
        assert (m <> n).
        { intros ->. apply Hnew. left.
          apply (array_index_inj k' k n Hk' Hk). }
        replace (lower <=? n) with true by (symmetry; apply Z.leb_le; lia).
        replace (n + 1 <=? m) with true by (symmetry; apply Z.leb_le; lia).
        exact H2.
    + cbn [map fst property_order]. rewrite Hk, Hk'.
      replace (lower <=? n) with true by (symmetry; apply Z.leb_le; lia).
      exact Hpo.
Qed.

Lemma property_order_define {V : Type} (k : string) (v : V) (o : obj V) :
  property_order 0 (map fst o) = true ->
  property_order 0 (map fst (obj_define k v o)) = true.
Proof.
  intros Hpo. unfold obj_define. destruct (obj_has k o) eqn:Hhas.
  - fold (obj_keys (obj_update k v o)). rewrite obj_keys_update. exact Hpo.
  - assert (Hnew : ~ In k (map fst o)).
    { intros H. apply obj_has_keys in H. congruence. }
    destruct (array_index k) as [n|] eqn:Hk.
    + apply (property_order_place k v n o 0 Hpo Hk); [|exact Hnew].
      apply array_index_digits in Hk as (_ & _ & [[-> _]|[H _]]); [lia|].
      assert (0 <= 10 ^ (Z.of_nat (String.length k) - 1))
        by (apply Z.pow_nonneg; lia). lia.
    + rewrite map_app. apply property_order_snoc; assumption.
Qed.

Lemma property_order_set {V : Type} (k : string) (v : V) (o : obj V) :
  property_order 0 (map fst o) = true ->
  property_order 0 (map fst (obj_set k v o)) = true.
Proof.
  intros H. unfold obj_set.
  destruct (negb (obj_has k o) && String.eqb k "__proto__")%bool;
    [exact H|apply property_order_define, H].
Qed.

(** *** Assignments of JSON values keep JSON values *)

Lemma forallb_update {V : Type} (P : V -> bool) (k : string) (v : V)
  (o : obj V) :
  P v = true -> forallb (fun p => P (snd p)) o = true ->
  forallb (fun p => P (snd p)) (obj_update k v o) = true.
Proof.
  intros Hv. induction o as [|[k' v'] o IH]; [reflexivity|].
  cbn [obj_update forallb snd]. intros H. apply andb_true_iff in H as [H1 H2].
  destruct (String.eqb k' k); cbn [forallb snd].
  - rewrite Hv, H2. reflexivity.
  - rewrite H1, (IH H2). reflexivity.
Qed.

Lemma forallb_place {V : Type} (P : V -> bool) (n : Z) (k : string) (v : V)
  (o : obj V) :
  P v = true -> forallb (fun p => P (snd p)) o = true ->
  forallb (fun p => P (snd p)) (obj_place n k v o) = true.
Proof.
  intros Hv. induction o as [|[k' v'] o IH]; intros H.
  - cbn [obj_place forallb snd]. rewrite Hv. reflexivity.
  - cbn [obj_place]. pose proof H as H'.
    cbn [forallb snd] in H'. apply andb_true_iff in H' as [H1 H2].
    destruct (array_index k') as [m|]; [destruct (m <? n)|];
      cbn [forallb snd]; rewrite ?Hv, ?H1, ?H2, ?(IH H2); reflexivity.
Qed.

Lemma forallb_set {V : Type} (P : V -> bool) (k : string) (v : V)
  (o : obj V) :
  P v = true -> forallb (fun p => P (snd p)) o = true ->
  forallb (fun p => P (snd p)) (obj_set k v o) = true.
Proof.
  intros Hv H. unfold obj_set, obj_define.
  destruct (negb (obj_has k o) && String.eqb k "__proto__")%bool; [exact H|].
  destruct (obj_has k o); [apply forallb_update; assumption|].
  destruct (array_index k); [apply forallb_place; assumption|].
  rewrite forallb_app, H. cbn [forallb snd]. rewrite Hv. reflexivity.
Qed.

(** *** The parts of a storable document *)

Ltac json_literal :=
  cbn [json_value map fst snd forallb];
  repeat match goal with
         | |- context [property_order 0 ?l] =>
             change (property_order 0 l) with true
         end;
  cbn [andb].

Lemma storable_parts (d : document) :
  storable d = true <->
  json_records (processed_date_ranges (get_call_ids (stages d))) = true /\
  json_value (last_run (get_call_ids (stages d))) = true /\
  (json_entries (downloaded_files (download_audio (stages d))) = true /\
   json_entries (failed_downloads (download_audio (stages d))) = true) /\
  (json_entries (transcribed_files (transcribe (stages d))) = true /\
   json_entries (failed_transcriptions (transcribe (stages d))) = true) /\
  (json_entries (uploaded_files (upload_audio (stages d))) = true /\
   json_entries (failed_uploads (upload_audio (stages d))) = true) /\
  (json_entries (analyzed_calls (analyze (stages d))) = true /\
   json_entries (failed_analyses (analyze (stages d))) = true) /\
  json_archive (archived_files d) = true.
Proof.
  unfold storable, encode, stage_value, json_records, json_entries,
    json_archive.
  json_literal. rewrite !andb_true_iff. tauto.
Qed.

Lemma forallb_map {A B : Type} (f : A -> B) (P : B -> bool) (l : list A) :
  forallb P (map f l) = forallb (fun a => P (f a)) l.
Proof.
  induction l as [|a l IH]; [reflexivity|]. cbn [map forallb].
  rewrite IH. reflexivity.
Qed.

Lemma json_entries_set (k : string) (e : obj value) (m : obj (obj value)) :
  json_entries m = true -> json_value (VObj e) = true ->
  json_entries (obj_set k e m) = true.
Proof.
  intros H He. unfold json_entries, object_map in *.
  cbn [json_value] in H |- *.
  rewrite map_map, forallb_map in H |- *. cbn [fst snd] in H |- *.
  apply andb_true_iff in H as [H1 H2]. apply andb_true_iff.
  split.
  - apply property_order_set, H1.
  - apply (forallb_set (fun e => json_value (VObj e))); assumption.
Qed.

Lemma json_records_snoc (l : list (obj value)) (r : obj value) :
  json_records l = true -> json_value (VObj r) = true ->
  json_records (l ++ [r]) = true.
Proof.
  intros Hl Hr. unfold json_records, objects in *.
  cbn [json_value] in Hl |- *. rewrite forallb_map in Hl |- *.
  rewrite forallb_app. apply andb_true_iff. split; [exact Hl|].
  cbn [forallb]. rewrite Hr. reflexivity.
Qed.

Lemma json_archive_push (category : string) (entries : list (obj value))
  (r : obj value) (a : obj (list (obj value))) :
  json_archive a = true -> obj_get category a = Some entries ->
  json_value (VObj r) = true ->
  json_archive (obj_update category (entries ++ [r]) a) = true.
Proof.
  intros H Hget Hr. unfold json_archive in *. cbn [json_value] in H |- *.
  rewrite map_map, forallb_map in H |- *. cbn [fst snd] in H |- *.
  apply andb_true_iff in H as [H1 H2]. apply andb_true_iff.
  split.
  { change (property_order 0
              (obj_keys (obj_update category (entries ++ [r]) a)) = true).
    rewrite obj_keys_update. exact H1. }
  apply (forallb_update (fun l => json_value (objects l))); [|exact H2].
  apply json_records_snoc; [|exact Hr].
  clear -H2 Hget. induction a as [|[k l] a IH]; [discriminate|].
  cbn [obj_get] in Hget. cbn [forallb snd] in H2.
  apply andb_true_iff in H2 as [Hl Ha].
  destruct (String.eqb k category); [injection Hget as <-; exact Hl|].
  apply IH; assumption.
Qed.

(** *** The mutators *)

Ltac storable_goal H :=
  apply storable_parts; apply storable_parts in H;
  destruct H as (Hr & Hl & (Hd1 & Hd2) & (Ht1 & Ht2) & (Hu1 & Hu2)
                 & (Ha1 & Ha2) & Hf);
  cbn -[json_entries json_records json_archive json_value obj_set
        obj_update obj_clear];
  repeat split; try assumption.

Ltac json_entry :=
  json_literal;
  repeat match goal with
         | H : json_value ?v = true |- context [json_value ?v] => rewrite H
         end;
  reflexivity.

Section KeepsStorable.
Variable s : Sys.
Hypothesis Hst : storable (state (this s)) = true.
Variable callId : string.

(** A new [PipelineState] on a disk without state file holds a storable
    document. *)
Lemma default_state_storable (t1 t2 : string) :
  storable (default_state t1 t2) = true.
Proof. reflexivity. Qed.

Lemma markDateRangeProcessed_storable (startDate endDate : string)
  (callCount : Z) :
  storable (state_after (markDateRangeProcessed startDate endDate callCount) s)
  = true.
Proof.
  destruct (markDateRangeProcessed_effect s startDate endDate callCount)
    as [_ ->].
  pose proof Hst as H. storable_goal H.
  apply json_records_snoc; [assumption|json_entry].
Qed.

Lemma markAudioDownloaded_storable (brokerId filename filepath : value) :
  json_value brokerId = true -> json_value filename = true ->
  json_value filepath = true ->
  storable (state_after
              (markAudioDownloaded callId brokerId filename filepath) s) = true.
Proof.
  intros H1 H2 H3.
  destruct (markAudioDownloaded_effect s callId brokerId filename filepath)
    as [_ ->].
  pose proof Hst as H. storable_goal H.
  apply json_entries_set; [assumption|json_entry].
Qed.

Lemma markTranscribed_storable (filename transcriptPath : value) :
  json_value filename = true -> json_value transcriptPath = true ->
  storable (state_after (markTranscribed callId filename transcriptPath) s)
  = true.
Proof.
  intros H1 H2.
  destruct (markTranscribed_effect s callId filename transcriptPath) as [_ ->].
  pose proof Hst as H. storable_goal H.
  apply json_entries_set; [assumption|json_entry].
Qed.

Lemma markAudioUploaded_storable (bubbleUrl : value) :
  json_value bubbleUrl = true ->
  storable (state_after (markAudioUploaded callId bubbleUrl) s) = true.
Proof.
  intros H1.
  destruct (markAudioUploaded_effect s callId bubbleUrl) as [_ ->].
  pose proof Hst as H. storable_goal H.
  apply json_entries_set; [assumption|json_entry].
Qed.

(** An analysis that has the three properties [markAnalyzed] reads. *)
Lemma markAnalyzed_storable (analysis : obj value)
  (sentiment success_rating call_disposition : value) :
  obj_get "sentiment" analysis = Some sentiment ->
  obj_get "success_rating" analysis = Some success_rating ->
  obj_get "call_disposition" analysis = Some call_disposition ->
  json_value sentiment = true -> json_value success_rating = true ->
  json_value call_disposition = true ->
  storable (state_after (markAnalyzed callId (VObj analysis)) s) = true.
Proof.
  intros G1 G2 G3 H1 H2 H3.
  destruct (markAnalyzed_effect s callId analysis) as [_ ->].
  rewrite G1, G2, G3.
  pose proof Hst as H. storable_goal H.
  apply json_entries_set; [assumption|json_entry].
Qed.

Lemma mark_failed_storable (error : value) :
  json_value error = true ->
  storable (state_after (markAudioDownloadFailed callId error) s) = true /\
  storable (state_after (markTranscriptionFailed callId error) s) = true /\
  storable (state_after (markAudioUploadFailed callId error) s) = true /\
  storable (state_after (markAnalysisFailed callId error) s) = true.
Proof.
  intros H1.
  destruct (markAudioDownloadFailed_effect s callId error) as [_ ->].
  destruct (markTranscriptionFailed_effect s callId error) as [_ ->].
  destruct (markAudioUploadFailed_effect s callId error) as [_ ->].
  destruct (markAnalysisFailed_effect s callId error) as [_ ->].
  split; [|split; [|split]]; pose proof Hst as H; storable_goal H;
    (apply json_entries_set; [assumption|json_entry]).
Qed.

Lemma retryFailed_storable (stage : string) :
  storable (state_after (retryFailed stage) s) = true.
Proof.
  destruct (retryFailed_effect stage s) as [_ [t E]].
  unfold state_after. rewrite E. rewrite storable_set_last_updated.
  assert (Step : forall field d,
            storable d = true -> storable (clear_failures stage field d) = true).
  { intros field d Hd. unfold clear_failures.
    destruct (stage_field stage field d); [|exact Hd].
    rewrite obj_clear_empty. unfold put_stage_field.
    destruct (String.eqb stage "download_audio"
              && String.eqb field "failed_downloads")%bool;
      [pose proof Hd as H; storable_goal H|].
    destruct (String.eqb stage "transcribe"
              && String.eqb field "failed_transcriptions")%bool;
      [pose proof Hd as H; storable_goal H|].
    destruct (String.eqb stage "upload_audio"
              && String.eqb field "failed_uploads")%bool;
      [pose proof Hd as H; storable_goal H|].
    destruct (String.eqb stage "analyze"
              && String.eqb field "failed_analyses")%bool;
      [pose proof Hd as H; storable_goal H|].
    exact Hd. }
  do 4 apply Step. exact Hst.
Qed.

Lemma archiveFile_storable (sourceFile category : string) (call : value) :
  json_value (default_null call) = true ->
  storable (state_after (archiveFile sourceFile category call) s) = true.
Proof.
  intros Hc.
  destruct (disk (world s) !! sourceFile) as [content|] eqn:Hfile.
  - destruct (obj_get category (archived_files (state (this s))))
      as [entries|] eqn:Hcat.
    + destruct (archiveFile_moved s sourceFile category call content entries
                  Hfile Hcat) as (text & _ & -> & _).
      pose proof Hst as H. storable_goal H.
      apply json_archive_push; [assumption|exact Hcat|].
      unfold archive_entry. json_entry.
    + destruct (archiveFile_unknown_category s sourceFile category call
                  content Hfile Hcat) as (_ & -> & _).
      exact Hst.
  - destruct (archiveFile_missing s sourceFile category call Hfile)
      as (_ & -> & _).
    exact Hst.
Qed.
End KeepsStorable.

(** ** Sequences of calls *)

Lemma perform_all_cons (u : update) (r : list update) (s : Sys) :
  run (perform u) s = Returns tt ->
  perform_all (u :: r) s = perform_all r (exec (perform u) s).
Proof.
  unfold run, exec. cbn [perform_all]. unfold mbind, M_bind, bind.
  destruct (perform u s) as [[[]| |] s']; cbn [fst snd];
    [reflexivity|discriminate|discriminate].
Qed.

Lemma obj_set_define {V : Type} (k : string) (v : V) (o : obj V) :
  k <> "__proto__" -> obj_set k v o = obj_define k v o.
Proof.
  intros Hk. unfold obj_set.
  replace (String.eqb k "__proto__") with false
    by (symmetry; apply String.eqb_neq, Hk).
  rewrite andb_false_r. reflexivity.
Qed.

Lemma obj_get_set {V : Type} (k k' : string) (v : V) (o : obj V) :
  k <> "__proto__" ->
  obj_get k' (obj_set k v o) = if String.eqb k k' then Some v else obj_get k' o.
Proof. intros Hk. rewrite obj_set_define by exact Hk. apply obj_get_define. Qed.

Lemma completed_obj_set (k callId : string) (entry : obj value)
  (m : obj (obj value)) :
  k <> "__proto__" ->
  obj_get "status" entry = Some (VStr "completed") ->
  completed callId (obj_set k entry m)
  = (completed callId m || String.eqb k callId)%bool.
Proof.
  intros Hk He. unfold completed. rewrite obj_get_set by exact Hk.
  destruct (String.eqb k callId).
  - rewrite He, orb_true_r. reflexivity.
  - rewrite orb_false_r. reflexivity.
Qed.

Lemma obj_has_set {V : Type} (k k' : string) (v : V) (o : obj V) :
  k <> "__proto__" ->
  obj_has k' (obj_set k v o) = (obj_has k' o || String.eqb k k')%bool.
Proof.
  intros Hk. unfold obj_has. rewrite obj_get_set by exact Hk.
  destruct (String.eqb k k'); [rewrite orb_true_r|rewrite orb_false_r];
    reflexivity.
Qed.

Lemma plain_filed (u : update) (callId : string) :
  plain u = true -> filed_under u = Some callId -> callId <> "__proto__".
Proof.
  unfold plain. intros H E. rewrite E in H. cbn [is_call] in H.
  apply andb_true_iff in H as [H _]. apply negb_true_iff in H.
  apply String.eqb_neq. exact H.
Qed.

Lemma markAnalyzed_effect_any (s : Sys) (callId : string) (analysisData : value) :
  plain (MarkAnalyzed callId analysisData) = true ->
  let m := markAnalyzed callId analysisData in
  let d := state (this s) in
  run m s = Returns tt /\
  state_after m s =
  set_last_updated (clock (world s) (S (ticks (world s))))
    (set_analyze
       {| analyzed_calls :=
            obj_set callId
              [("status", VStr "completed");
               ("analysis_summary",
                  VObj [("sentiment", analysis_field "sentiment" analysisData);
                        ("success_rating",
                           analysis_field "success_rating" analysisData);
                        ("call_disposition",
                           analysis_field "call_disposition" analysisData)]);
               ("completed_at", VStr (clock (world s) (ticks (world s))))]
              (analyzed_calls (analyze (stages d)));
          failed_analyses := failed_analyses (analyze (stages d));
          total_analyzed := total_analyzed (analyze (stages d)) + 1 |}
       d).
Proof.
  intros Hp. unfold plain in Hp. apply andb_true_iff in Hp as [_ Hp].
  destruct analysisData; try discriminate Hp;
    unfold markAnalyzed, state_after, property; method_effect;
    split; reflexivity.
Qed.

Lemma archiveFile_stages (s : Sys) (sourceFile category : string)
  (callId : value) :
  let m := archiveFile sourceFile category callId in
  (exists r, run m s = Returns r) /\
  stages (state_after m s) = stages (state (this s)).
Proof.
  cbn zeta.
  destruct (disk (world s) !! sourceFile) as [content|] eqn:Hfile.
  - destruct (obj_get category (archived_files (state (this s))))
      as [entries|] eqn:Hcat.
    + destruct (archiveFile_moved s sourceFile category callId content
                  entries Hfile Hcat) as (text & Hr & -> & _).
      split; [eexists; exact Hr|reflexivity].
    + destruct (archiveFile_unknown_category s sourceFile category callId
                  content Hfile Hcat) as (Hr & -> & _).
      split; [eexists; exact Hr|reflexivity].
  - destruct (archiveFile_missing s sourceFile category callId Hfile)
      as (Hr & -> & _).
    split; [eexists; exact Hr|reflexivity].
Qed.

Lemma perform_archive (s : Sys) (sourceFile category : string)
  (callId : value) :
  let u := ArchiveFile sourceFile category callId in
  run (perform u) s = Returns tt /\
  exec (perform u) s = exec (archiveFile sourceFile category callId) s.
Proof.
  cbn zeta. destruct (archiveFile_stages s sourceFile category callId)
    as [[r Hr] _].
  unfold run, exec in *. cbn [perform]. unfold mbind, M_bind, bind, mret, M_ret, ret.
  destruct (archiveFile sourceFile category callId s) as [[a| |] s'];
    cbn [fst snd] in *; try discriminate. split; reflexivity.
Qed.

Lemma clear_failures_stages (stage field : string) (d : document) :
  success_map "download_audio" (clear_failures stage field d)
  = success_map "download_audio" d /\
  success_map "transcribe" (clear_failures stage field d)
  = success_map "transcribe" d /\
  success_map "upload_audio" (clear_failures stage field d)
  = success_map "upload_audio" d /\
  success_map "analyze" (clear_failures stage field d)
  = success_map "analyze" d /\
  running_total "download_audio" (clear_failures stage field d)
  = running_total "download_audio" d /\
  running_total "transcribe" (clear_failures stage field d)
  = running_total "transcribe" d /\
  running_total "upload_audio" (clear_failures stage field d)
  = running_total "upload_audio" d /\
  running_total "analyze" (clear_failures stage field d)
  = running_total "analyze" d /\
  get_call_ids (stages (clear_failures stage field d)) = get_call_ids (stages d) /\
  archived_files (clear_failures stage field d) = archived_files d.
Proof.
  unfold clear_failures. destruct (stage_field stage field d);
    [|repeat split; reflexivity].
  unfold put_stage_field.
  repeat match goal with
         | |- context [if ?b then _ else _] => destruct b
         end; repeat split; reflexivity.
Qed.

Ltac stage_cases H :=
  simpl in H; destruct H as [<-|[<-|[<-|[<-|[]]]]].

Ltac clear_one stage0 Hin :=
  unfold clear_failures, stage_field, put_stage_field;
  destruct (String.eqb stage0 "download_audio"),
           (String.eqb stage0 "transcribe"),
           (String.eqb stage0 "upload_audio"),
           (String.eqb stage0 "analyze");
  stage_cases Hin; cbn [andb String.eqb Ascii.eqb Bool.eqb];
  cbn; rewrite ?obj_clear_empty; reflexivity.

Lemma clear_failed_downloads (stage0 stage : string) (d : document) :
  In stage stage_names ->
  failure_map stage (clear_failures stage0 "failed_downloads" d)
  = if (String.eqb stage0 "download_audio" && String.eqb stage "download_audio")%bool
    then [] else failure_map stage d.
Proof. intros Hin. clear_one stage0 Hin. Qed.

Lemma clear_failed_transcriptions (stage0 stage : string) (d : document) :
  In stage stage_names ->
  failure_map stage (clear_failures stage0 "failed_transcriptions" d)
  = if (String.eqb stage0 "transcribe" && String.eqb stage "transcribe")%bool
    then [] else failure_map stage d.
Proof. intros Hin. clear_one stage0 Hin. Qed.

Lemma clear_failed_uploads (stage0 stage : string) (d : document) :
  In stage stage_names ->
  failure_map stage (clear_failures stage0 "failed_uploads" d)
  = if (String.eqb stage0 "upload_audio" && String.eqb stage "upload_audio")%bool
    then [] else failure_map stage d.
Proof. intros Hin. clear_one stage0 Hin. Qed.

Lemma clear_failed_analyses (stage0 stage : string) (d : document) :
  In stage stage_names ->
  failure_map stage (clear_failures stage0 "failed_analyses" d)
  = if (String.eqb stage0 "analyze" && String.eqb stage "analyze")%bool
    then [] else failure_map stage d.
Proof. intros Hin. clear_one stage0 Hin. Qed.

Lemma clear_failures_failure_map (stage0 stage : string) (d : document) :
  In stage stage_names ->
  failure_map stage
    (clear_failures stage0 "failed_analyses"
       (clear_failures stage0 "failed_uploads"
          (clear_failures stage0 "failed_transcriptions"
             (clear_failures stage0 "failed_downloads" d))))
  = if String.eqb stage0 stage then [] else failure_map stage d.
Proof.
  intros Hin.
  rewrite clear_failed_analyses, clear_failed_uploads,
    clear_failed_transcriptions, clear_failed_downloads by exact Hin.
  stage_cases Hin; cbn [String.eqb Ascii.eqb Bool.eqb andb];
    rewrite ?andb_true_r, ?andb_false_r;
    match goal with
    | |- context [String.eqb stage0 ?x] => destruct (String.eqb stage0 x)
    end; reflexivity.
Qed.

(** One call: what it does to the success maps, the running totals and
    the failure maps. *)
Lemma perform_step (u : update) (s : Sys) :
  plain u = true ->
  let d := state (this s) in
  let d' := state_after (perform u) s in
  run (perform u) s = Returns tt /\
  (forall stage callId,
     In stage stage_names ->
     completed callId (success_map stage d')
     = (completed callId (success_map stage d)
        || is_call callId (success_of stage u))%bool) /\
  (forall stage callId,
     In stage stage_names ->
     obj_has callId (success_map stage d')
     = (obj_has callId (success_map stage d)
        || is_call callId (success_of stage u))%bool) /\
  (forall stage,
     In stage stage_names ->
     running_total stage d'
     = running_total stage d + if is_some (success_of stage u) then 1 else 0) /\
  total_calls_extracted (get_call_ids (stages d'))
  = total_calls_extracted (get_call_ids (stages d)) + call_count u /\
  (forall stage callId,
     In stage stage_names ->
     obj_has callId (failure_map stage d')
     = if is_call callId (failure_of stage u) then true
       else if retries stage u then false
       else obj_has callId (failure_map stage d)) /\
  (saves u = true -> archived_files d' = archived_files d).
Proof.
  intros Hp. cbn zeta.
  assert (Hid : forall callId, filed_under u = Some callId ->
                               callId <> "__proto__")
    by (intros callId; apply plain_filed, Hp).
  destruct u; cbn [filed_under] in *.
  - cbn [perform]. destruct (markDateRangeProcessed_effect s startDate endDate callCount)
      as [Hr ->].
    split; [exact Hr|].
    repeat split; intros; try stage_cases H; cbn;
      rewrite ?orb_false_r, ?Z.add_0_r; reflexivity.
  - cbn [perform]. destruct (markAudioDownloaded_effect s callId brokerId filename filepath)
      as [Hr ->].
    specialize (Hid callId eq_refl).
    split; [exact Hr|].
    repeat split; intros; try stage_cases H; cbn;
      rewrite ?completed_obj_set, ?obj_has_set by (exact Hid || reflexivity);
      rewrite ?orb_false_r, ?Z.add_0_r; reflexivity.
  - cbn [perform]. destruct (markAudioDownloadFailed_effect s callId error) as [Hr ->].
    specialize (Hid callId eq_refl).
    split; [exact Hr|].
    repeat split; intros; try stage_cases H; cbn;
      rewrite ?obj_has_set by exact Hid;
      rewrite ?orb_false_r, ?Z.add_0_r;
      try match goal with
          | |- context [String.eqb ?a ?b] =>
              destruct (String.eqb a b); rewrite ?orb_true_r, ?orb_false_r
          end; reflexivity.
  - cbn [perform]. destruct (markTranscribed_effect s callId filename transcriptPath)
      as [Hr ->].
    specialize (Hid callId eq_refl).
    split; [exact Hr|].
    repeat split; intros; try stage_cases H; cbn;
      rewrite ?completed_obj_set, ?obj_has_set by (exact Hid || reflexivity);
      rewrite ?orb_false_r, ?Z.add_0_r; reflexivity.
  - cbn [perform]. destruct (markTranscriptionFailed_effect s callId error) as [Hr ->].
    specialize (Hid callId eq_refl).
    split; [exact Hr|].
    repeat split; intros; try stage_cases H; cbn;
      rewrite ?obj_has_set by exact Hid;
      rewrite ?orb_false_r, ?Z.add_0_r;
      try match goal with
          | |- context [String.eqb ?a ?b] =>
              destruct (String.eqb a b); rewrite ?orb_true_r, ?orb_false_r
          end; reflexivity.
  - cbn [perform]. destruct (markAudioUploaded_effect s callId bubbleUrl) as [Hr ->].
    specialize (Hid callId eq_refl).
    split; [exact Hr|].
    repeat split; intros; try stage_cases H; cbn;
      rewrite ?completed_obj_set, ?obj_has_set by (exact Hid || reflexivity);
      rewrite ?orb_false_r, ?Z.add_0_r; reflexivity.
  - cbn [perform]. destruct (markAudioUploadFailed_effect s callId error) as [Hr ->].
    specialize (Hid callId eq_refl).
    split; [exact Hr|].
    repeat split; intros; try stage_cases H; cbn;
      rewrite ?obj_has_set by exact Hid;
      rewrite ?orb_false_r, ?Z.add_0_r;
      try match goal with
          | |- context [String.eqb ?a ?b] =>
              destruct (String.eqb a b); rewrite ?orb_true_r, ?orb_false_r
          end; reflexivity.
  - cbn [perform]. destruct (markAnalyzed_effect_any s callId analysisData Hp) as [Hr ->].
    specialize (Hid callId eq_refl).
    split; [exact Hr|].
    repeat split; intros; try stage_cases H; cbn;
      rewrite ?completed_obj_set, ?obj_has_set by (exact Hid || reflexivity);
      rewrite ?orb_false_r, ?Z.add_0_r; reflexivity.
  - cbn [perform]. destruct (markAnalysisFailed_effect s callId error) as [Hr ->].
    specialize (Hid callId eq_refl).
    split; [exact Hr|].
    repeat split; intros; try stage_cases H; cbn;
      rewrite ?obj_has_set by exact Hid;
      rewrite ?orb_false_r, ?Z.add_0_r;
      try match goal with
          | |- context [String.eqb ?a ?b] =>
              destruct (String.eqb a b); rewrite ?orb_true_r, ?orb_false_r
          end; reflexivity.
  - destruct (perform_archive s sourceFile category callId) as [Hr He].
    split; [exact Hr|]. unfold state_after. rewrite He.
    destruct (archiveFile_stages s sourceFile category callId) as [_ Hs].
    unfold state_after in Hs.
    unfold success_map, running_total, failure_map. rewrite Hs.
    repeat split; intros; try discriminate; try stage_cases H; cbn;
      rewrite ?orb_false_r, ?Z.add_0_r; reflexivity.
  - cbn [perform]. destruct (retryFailed_effect stage s) as [Hr [t E]].
    split; [exact Hr|]. unfold state_after. rewrite E.
    set (d1 := clear_failures stage "failed_downloads" (state (this s))).
    set (d2 := clear_failures stage "failed_transcriptions" d1).
    set (d3 := clear_failures stage "failed_uploads" d2).
    set (d4 := clear_failures stage "failed_analyses" d3).
    pose proof (clear_failures_stages stage "failed_downloads" (state (this s)))
      as (A1 & A2 & A3 & A4 & A5 & A6 & A7 & A8 & A9 & A10).
    pose proof (clear_failures_stages stage "failed_transcriptions" d1)
      as (B1 & B2 & B3 & B4 & B5 & B6 & B7 & B8 & B9 & B10).
    pose proof (clear_failures_stages stage "failed_uploads" d2)
      as (C1 & C2 & C3 & C4 & C5 & C6 & C7 & C8 & C9 & C10).
    pose proof (clear_failures_stages stage "failed_analyses" d3)
      as (D1 & D2 & D3 & D4 & D5 & D6 & D7 & D8 & D9 & D10).
    fold d1 in A1, A2, A3, A4, A5, A6, A7, A8, A9, A10.
    fold d2 in B1, B2, B3, B4, B5, B6, B7, B8, B9, B10.
    fold d3 in C1, C2, C3, C4, C5, C6, C7, C8, C9, C10.
    fold d4 in D1, D2, D3, D4, D5, D6, D7, D8, D9, D10.
    assert (S : forall st, In st stage_names ->
                success_map st (set_last_updated t d4)
                = success_map st (state (this s))).
    { intros st H. stage_cases H;
        [change (success_map "download_audio" d4 = success_map "download_audio" (state (this s)))
        |change (success_map "transcribe" d4 = success_map "transcribe" (state (this s)))
        |change (success_map "upload_audio" d4 = success_map "upload_audio" (state (this s)))
        |change (success_map "analyze" d4 = success_map "analyze" (state (this s)))];
        congruence. }
    assert (T : forall st, In st stage_names ->
                running_total st (set_last_updated t d4)
                = running_total st (state (this s))).
    { intros st H. stage_cases H;
        [change (running_total "download_audio" d4 = running_total "download_audio" (state (this s)))
        |change (running_total "transcribe" d4 = running_total "transcribe" (state (this s)))
        |change (running_total "upload_audio" d4 = running_total "upload_audio" (state (this s)))
        |change (running_total "analyze" d4 = running_total "analyze" (state (this s)))];
        congruence. }
    split; [|split; [|split; [|split; [|split]]]].
    + intros st callId H. rewrite (S st H).
      destruct (success_of st (RetryFailed stage)) eqn:Hs; [discriminate Hs|].
      cbn. rewrite orb_false_r. reflexivity.
    + intros st callId H. rewrite (S st H). cbn. rewrite orb_false_r.
      reflexivity.
    + intros st H. rewrite (T st H). cbn. lia.
    + cbn [call_count]. rewrite Z.add_0_r.
      change (total_calls_extracted (get_call_ids (stages d4))
              = total_calls_extracted (get_call_ids (stages (state (this s))))).
      congruence.
    + intros st callId H. cbn [failure_of is_call retries].
      change (failure_map st (set_last_updated t d4))
        with (failure_map st d4).
      unfold d4, d3, d2, d1. rewrite clear_failures_failure_map by exact H.
      destruct (String.eqb stage st); reflexivity.
    + intros _.
      change (archived_files d4 = archived_files (state (this s))).
      congruence.
Qed.

Lemma perform_all_returns (us : list update) :
  forall s, forallb plain us = true -> run (perform_all us) s = Returns tt.
Proof.
  induction us as [|u r IH]; intros s Hp; [reflexivity|].
  cbn [forallb] in Hp. apply andb_true_iff in Hp as [Hu Hr].
  destruct (perform_step u s Hu) as [Hrun _].
  unfold run. rewrite (perform_all_cons u r s Hrun). apply IH, Hr.
Qed.

Lemma state_after_cons (u : update) (r : list update) (s : Sys) :
  plain u = true ->
  state_after (perform_all (u :: r)) s
  = state_after (perform_all r) (exec (perform u) s).
Proof.
  intros Hu. destruct (perform_step u s Hu) as [Hrun _].
  unfold state_after, exec. rewrite (perform_all_cons u r s Hrun). reflexivity.
Qed.

Lemma listed_keys {V : Type} (k : string) (o : obj V) :
  listed k (obj_keys o) = obj_has k o.
Proof.
  unfold listed, obj_has, obj_keys.
  induction o as [|[k' v] o IH]; [reflexivity|].
  cbn [map fst existsb obj_get]. rewrite IH, (String.eqb_sym k k').
  destruct (String.eqb k' k); reflexivity.
Qed.

Lemma completed_after (us : list update) (stage callId : string) :
  In stage stage_names ->
  forall s,
    forallb plain us = true ->
    completed callId (success_map stage (state_after (perform_all us) s))
    = (completed callId (success_map stage (state (this s)))
       || marked stage callId us)%bool /\
    obj_has callId (success_map stage (state_after (perform_all us) s))
    = (obj_has callId (success_map stage (state (this s)))
       || marked stage callId us)%bool.
Proof.
  intros Hin. induction us as [|u r IH]; intros s Hp.
  - unfold marked. cbn [existsb]. rewrite !orb_false_r. split; reflexivity.
  - cbn [forallb] in Hp. apply andb_true_iff in Hp as [Hu Hr].
    rewrite (state_after_cons u r s Hu).
    destruct (IH (exec (perform u) s) Hr) as [-> ->].
    destruct (perform_step u s Hu) as (_ & Hc & Hh & _).
    unfold state_after in Hc, Hh.
    rewrite (Hc stage callId Hin), (Hh stage callId Hin).
    unfold marked. cbn [existsb]. rewrite !orb_assoc. split; reflexivity.
Qed.

Lemma total_after (us : list update) (stage : string) :
  In stage stage_names ->
  forall s,
    forallb plain us = true ->
    running_total stage (state_after (perform_all us) s)
    = running_total stage (state (this s)) + success_marks stage us.
Proof.
  intros Hin. induction us as [|u r IH]; intros s Hp.
  - change (state_after (perform_all []) s) with (state (this s)).
    unfold success_marks. cbn [List.filter length]. change (Z.of_nat 0) with 0.
    lia.
  - cbn [forallb] in Hp. apply andb_true_iff in Hp as [Hu Hr].
    rewrite (state_after_cons u r s Hu), (IH (exec (perform u) s) Hr).
    destruct (perform_step u s Hu) as (_ & _ & _ & Ht & _).
    unfold state_after in Ht. rewrite (Ht stage Hin).
    unfold success_marks. cbn [List.filter].
    destruct (is_some (success_of stage u)); cbn [length]; lia.
Qed.

Lemma extracted_after (us : list update) :
  forall s,
    forallb plain us = true ->
    total_calls_extracted
      (get_call_ids (stages (state_after (perform_all us) s)))
    = total_calls_extracted (get_call_ids (stages (state (this s))))
      + calls_extracted us.
Proof.
  induction us as [|u r IH]; intros s Hp.
  - change (state_after (perform_all []) s) with (state (this s)).
    unfold calls_extracted. cbn [fold_right]. lia.
  - cbn [forallb] in Hp. apply andb_true_iff in Hp as [Hu Hr].
    rewrite (state_after_cons u r s Hu), (IH (exec (perform u) s) Hr).
    destruct (perform_step u s Hu) as (_ & _ & _ & _ & He & _).
    unfold state_after in He. rewrite He.
    unfold calls_extracted. cbn [fold_right]. lia.
Qed.

Lemma failed_after_spec (us : list update) (stage callId : string) :
  In stage stage_names ->
  forall s,
    forallb plain us = true ->
    obj_has callId (failure_map stage (state_after (perform_all us) s))
    = failed_after stage callId us
        (obj_has callId (failure_map stage (state (this s)))).
Proof.
  intros Hin. induction us as [|u r IH]; intros s Hp; [reflexivity|].
  cbn [forallb] in Hp. apply andb_true_iff in Hp as [Hu Hr].
  rewrite (state_after_cons u r s Hu), (IH (exec (perform u) s) Hr).
  destruct (perform_step u s Hu) as (_ & _ & _ & _ & _ & Hf & _).
  unfold state_after in Hf. rewrite (Hf stage callId Hin).
  reflexivity.
Qed.







(** ** What [JSON.parse] returns *)

Lemma forallb_define {V : Type} (P : V -> bool) (k : string) (v : V)
  (o : obj V) :
  P v = true -> forallb (fun p => P (snd p)) o = true ->
  forallb (fun p => P (snd p)) (obj_define k v o) = true.
Proof.
  intros Hv H. unfold obj_define.
  destruct (obj_has k o); [apply forallb_update; assumption|].
  destruct (array_index k); [apply forallb_place; assumption|].
  rewrite forallb_app, H. cbn [forallb snd]. rewrite Hv. reflexivity.
Qed.

Lemma json_value_define (k : string) (v : value) (o : obj value) :
  json_value v = true -> json_value (VObj o) = true ->
  json_value (VObj (obj_define k v o)) = true.
Proof.
  cbn [json_value]. intros Hv H. apply andb_true_iff in H as [H1 H2].
  apply andb_true_iff. split.
  - apply property_order_define, H1.
  - apply (forallb_define json_value); assumption.
Qed.

(** A parsed value holds no [undefined], and the properties of its
    objects are in own-property order. *)
Lemma parse_json_value (fuel : nat) :
  (forall s v rest, parse_value fuel s = POk v rest -> json_value v = true) /\
  (forall acc s v rest,
     json_value (VObj acc) = true ->
     parse_members fuel acc s = POk v rest -> json_value v = true) /\
  (forall acc s v rest,
     forallb json_value acc = true ->
     parse_elements fuel acc s = POk v rest -> json_value v = true).
Proof.
  induction fuel as [|f (IHv & IHm & IHe)];
    [repeat split; intros; discriminate|].
  split; [|split].
  - intros s v rest. cbn [parse_value].
    destruct (skip_ws s) as [|c r]; [discriminate|].
    destruct (Ascii.eqb c "{").
    { destruct (next_is "}" r).
      - intros [= <- _]. reflexivity.
      - apply IHm. reflexivity. }
    destruct (Ascii.eqb c "[").
    { destruct (next_is "]" r).
      - intros [= <- _]. reflexivity.
      - apply IHe. reflexivity. }
    destruct (Ascii.eqb c dquote).
    { destruct (parse_chars r); cbn [pbind]; intros H; try discriminate H.
      injection H as <- _. reflexivity. }
    unfold parse_literal.
    destruct (Ascii.eqb c "t").
    { destruct (strip_prefix _ _); intros H; try discriminate H.
      injection H as <- _. reflexivity. }
    destruct (Ascii.eqb c "f").
    { destruct (strip_prefix _ _); intros H; try discriminate H.
      injection H as <- _. reflexivity. }
    destruct (Ascii.eqb c "n").
    { destruct (strip_prefix _ _); intros H; try discriminate H.
      injection H as <- _. reflexivity. }
    destruct (parse_number _); cbn [pbind]; intros H; try discriminate H.
    injection H as <- _. reflexivity.
  - intros acc s v rest Hacc. cbn [parse_members].
    destruct (next_is dquote s) as [r|]; [|discriminate].
    destruct (parse_chars r) as [k s1| |]; cbn [pbind]; try discriminate.
    destruct (next_is ":" s1) as [s2|]; [|discriminate].
    destruct (parse_value f s2) as [v' s3| |] eqn:Hv; cbn [pbind];
      try discriminate.
    apply IHv in Hv.
    pose proof (json_value_define k v' acc Hv Hacc) as Hacc'.
    destruct (next_is "," s3) as [s4|]; [apply IHm, Hacc'|].
    destruct (next_is "}" s3) as [s4|]; [|discriminate].
    intros [= <- _]. exact Hacc'.
  - intros acc s v rest Hacc. cbn [parse_elements].
    destruct (parse_value f s) as [v' s1| |] eqn:Hv; cbn [pbind];
      try discriminate.
    apply IHv in Hv.
    assert (Hacc' : forallb json_value (acc ++ [v']) = true).
    { rewrite forallb_app, Hacc. cbn [forallb]. rewrite Hv. reflexivity. }
    destruct (next_is "," s1) as [s2|]; [apply IHe, Hacc'|].
    destruct (next_is "]" s1) as [s2|]; [|discriminate].
    intros [= <- _]. exact Hacc'.
Qed.

Lemma JSON_parse_json_value (text : string) (v : value) :
  JSON_parse text = Parsed v -> json_value v = true.
Proof.
  unfold JSON_parse.
  destruct (parse_value (S (String.length text)) text) as [v' rest| |] eqn:E;
    try discriminate.
  destruct (skip_ws rest); [|discriminate]. intros [= <-].
  exact (proj1 (parse_json_value _) _ _ _ E).
Qed.

(** ** The typed view is exact *)

Lemma same_keys_eq (names l : list string) :
  same_keys names l = true -> l = names.
Proof.
  revert l. induction names as [|a names IH]; intros [|b l] H;
    try discriminate; [reflexivity|].
  cbn [same_keys] in H. apply andb_true_iff in H as [H1 H2].
  apply String.eqb_eq in H1. subst b. f_equal. apply IH, H2.
Qed.

Lemma combine_fst_snd {A B : Type} (l : list (A * B)) :
  combine (map fst l) (map snd l) = l.
Proof.
  induction l as [|[a b] l IH]; [reflexivity|]. cbn. rewrite IH. reflexivity.
Qed.

Lemma fields_inv (names : list string) (v : value) (vals : list value) :
  fields names v = Some vals -> v = VObj (combine names vals).
Proof.
  unfold fields. destruct v as [| | | | | |o]; try discriminate.
  destruct (same_keys names (map fst o)) eqn:H; [|discriminate].
  intros [= <-]. apply same_keys_eq in H. rewrite <- H, combine_fst_snd.
  reflexivity.
Qed.

Lemma as_object_inv (v : value) (o : obj value) :
  as_object v = Some o -> v = VObj o.
Proof. destruct v; try discriminate. intros [= <-]. reflexivity. Qed.

Lemma as_objects_inv (v : value) (l : list (obj value)) :
  as_objects v = Some l -> v = objects l.
Proof.
  unfold as_objects, objects. destruct v as [| | | | |elems|]; try discriminate.
  revert l. induction elems as [|e elems IH]; intros l; cbn [map all_some].
  - intros [= <-]. reflexivity.
  - destruct (as_object e) as [o|] eqn:He; [|discriminate].
    destruct (all_some (map as_object elems)) as [r|]; [|discriminate].
    intros [= <-]. apply as_object_inv in He. subst e.
    specialize (IH r eq_refl). injection IH as ->. reflexivity.
Qed.

Lemma as_object_map_inv (v : value) (m : obj (obj value)) :
  as_object_map v = Some m -> v = object_map m.
Proof.
  unfold as_object_map, object_map. destruct v as [| | | | | |o]; try discriminate.
  revert m. induction o as [|[k e] o IH]; intros m; cbn [map all_some fst snd].
  - intros [= <-]. reflexivity.
  - destruct (as_object e) as [e'|] eqn:He; [|discriminate].
    destruct (all_some _) as [r|]; [|discriminate].
    intros [= <-]. apply as_object_inv in He. subst e.
    specialize (IH r eq_refl). injection IH as ->. reflexivity.
Qed.

Lemma decode_archived_files_inv (v : value) (a : obj (list (obj value))) :
  decode_archived_files v = Some a ->
  v = VObj (map (fun p => (fst p, objects (snd p))) a).
Proof.
  unfold decode_archived_files. destruct v as [| | | | | |o]; try discriminate.
  revert a. induction o as [|[k e] o IH]; intros a; cbn [map all_some fst snd].
  - intros [= <-]. reflexivity.
  - destruct (as_objects e) as [l|] eqn:He; [|discriminate].
    destruct (all_some _) as [r|]; [|discriminate].
    intros [= <-]. apply as_objects_inv in He. subst e.
    specialize (IH r eq_refl). injection IH as ->. reflexivity.
Qed.

Lemma decode_stage_inv (successes failures total : string) (v : value)
  (s f : obj (obj value)) (n : Z) :
  decode_stage successes failures total v = Some (s, f, n) ->
  v = stage_value successes failures total s f n.
Proof.
  unfold decode_stage, stage_value.
  destruct (fields [successes; failures; total] v)
    as [[|s' [|f' [|[] [|]]]]|] eqn:E; try discriminate.
  destruct (as_object_map s') eqn:Hs; [|discriminate].
  destruct (as_object_map f') eqn:Hf; [|discriminate].
  intros [= <- <- <-]. apply fields_inv in E.
  apply as_object_map_inv in Hs, Hf. subst. reflexivity.
Qed.

Lemma decode_get_call_ids_inv (v : value) (g : get_call_ids_record) :
  decode_get_call_ids v = Some g ->
  v = VObj [("processed_date_ranges", objects (processed_date_ranges g));
            ("total_calls_extracted", VNum (total_calls_extracted g));
            ("last_run", last_run g)].
Proof.
  unfold decode_get_call_ids.
  destruct (fields _ v) as [[|r [|[] [|l [|]]]]|] eqn:E; try discriminate.
  destruct (as_objects r) eqn:Hr; [|discriminate].
  intros [= <-]. apply fields_inv in E. apply as_objects_inv in Hr.
  subst. reflexivity.
Qed.

Lemma decode_inv (v : value) (d : document) :
  decode v = Some d -> v = encode d.
Proof.
  unfold decode.
  destruct (fields _ v)
    as [[|[] [|[] [|[] [|st [|af [|]]]]]]|] eqn:E; try discriminate.
  destruct (decode_stages st) as [st'|] eqn:Hst; [|discriminate].
  destruct (decode_archived_files af) as [af'|] eqn:Haf; [|discriminate].
  intros [= <-]. apply fields_inv in E. subst v.
  apply decode_archived_files_inv in Haf. subst af.
  unfold decode_stages in Hst.
  destruct (fields _ st) as [[|g [|dl [|t [|u [|a [|]]]]]]|] eqn:E;
    try discriminate.
  destruct (decode_get_call_ids g) as [g'|] eqn:Hg; [|discriminate].
  destruct (decode_stage _ _ _ dl) as [[[ds df] dn]|] eqn:Hd; [|discriminate].
  destruct (decode_stage _ _ _ t) as [[[ts tf] tn]|] eqn:Ht; [|discriminate].
  destruct (decode_stage _ _ _ u) as [[[us uf] un]|] eqn:Hu; [|discriminate].
  destruct (decode_stage _ _ _ a) as [[[zs zf] zn]|] eqn:Ha; [|discriminate].
  injection Hst as <-. apply fields_inv in E. subst st.
  apply decode_get_call_ids_inv in Hg.
  apply decode_stage_inv in Hd, Ht, Hu, Ha. subst. reflexivity.
Qed.

(** A text that reads as a document reads as a storable one. *)
Lemma loaded_storable (text : string) (v : value) (d : document) :
  JSON_parse text = Parsed v -> decode v = Some d ->
  storable d = true /\ JSON_parse text = Parsed (encode d).
Proof.
  intros Hp Hd. apply decode_inv in Hd. subst v.
  split; [exact (JSON_parse_json_value _ _ Hp)|exact Hp].
Qed.

(** ** Restarting *)

(** What the constructor leaves when it returns: the three paths, a
    storable document, the files as they were. *)
Lemma constructor_effect (s : Sys) (base : string) :
  run (constructor base) s = Returns tt ->
  exists d ds tk cs,
    exec (constructor base) s =
    {| this := {| baseDir := base; stateFile := state_file_path base;
                  archiveDir := path_join base "archive"; state := d |};
       world := {| disk := disk (world s); dirs := ds;
                   clock := clock (world s); ticks := tk; console := cs |} |}
    /\ storable d = true
    /\ (forall text, disk (world s) !! state_file_path base = Some text ->
                     JSON_parse text <> SyntaxError ->
                     JSON_parse text = Parsed (encode d)).
Proof.
  unfold run, exec, state_file_path.
  unfold constructor, loadState, ensureDirectories, parse_document.
  fs_unfold. monad_unfold. proj_simpl. unfold is_file. proj_simpl.
  set (file := path_join (path_join base "logs") "pipeline_state.json").
  destruct (disk (world s) !! file) as [text|] eqn:Hfile; cbn [orb].
  - proj_simpl. rewrite Hfile. proj_simpl.
    destruct (JSON_parse text) as [v| |] eqn:Hparse.
    + destruct (decode v) as [d|] eqn:Hd; proj_simpl; [|discriminate].
      match goal with |- context [make_missing ?l ?s'] =>
        destruct (make_missing_effect l s') as [ds ->] end.
      proj_simpl. intros _. exists d, ds, (ticks (world s)), (console (world s)).
      destruct (loaded_storable text v d Hparse Hd) as [Hst Hp].
      split; [reflexivity|]. split; [exact Hst|].
      intros text' [= <-] _. exact Hp.
    + proj_simpl.
      match goal with |- context [make_missing ?l ?s'] =>
        destruct (make_missing_effect l s') as [ds ->] end.
      proj_simpl. intros _. do 4 eexists.
      split; [reflexivity|]. split; [reflexivity|].
      intros text' [= <-] H. contradiction.
    + proj_simpl. discriminate.
  - destruct (is_dir file (world s)); proj_simpl; rewrite ?Hfile; proj_simpl;
      match goal with |- context [make_missing ?l ?s'] =>
        destruct (make_missing_effect l s') as [ds ->] end;
      proj_simpl; intros _; do 4 eexists;
      (split; [reflexivity|]); (split; [reflexivity|]); intros; discriminate.
Qed.

(** On a saved store the constructor reads the document back. *)
Lemma constructor_saved (s : Sys) (base : string) :
  stateFile (this s) = state_file_path base ->
  saved s ->
  run (constructor base) s = Returns tt /\
  state_after (constructor base) s = state (this s) /\
  console (world (exec (constructor base) s)) = console (world s).
Proof.
  intros Hpath (text & Hfile & Hparse). rewrite Hpath in Hfile.
  unfold run, exec, state_after, state_file_path in *.
  unfold constructor, loadState, ensureDirectories, parse_document.
  fs_unfold. monad_unfold. proj_simpl. unfold is_file. proj_simpl.
  rewrite Hfile. cbn [orb]. proj_simpl. rewrite Hfile. proj_simpl.
  rewrite Hparse, decode_encode. proj_simpl.
  match goal with |- context [make_missing ?l ?s'] =>
    destruct (make_missing_effect l s') as [ds ->] end.
  proj_simpl. repeat split; reflexivity.
Qed.

Lemma saveState_saved (s : Sys) :
  storable (state (this s)) = true -> saved (exec saveState s).
Proof.
  intros Hst. destruct (saveState_effect s) as (text & Htext & E).
  unfold saved, exec. rewrite E. proj_simpl. exists text.
  split; [apply lookup_insert_eq|].
  set (d := set_last_updated _ _) in *.
  destruct (JSON_parse_stringify (encode d)) as (text' & H1 & H2).
  - unfold d. change (json_value (encode ?x)) with (storable x).
    rewrite storable_set_last_updated. exact Hst.
  - rewrite Htext in H1. injection H1 as <-. exact H2.
Qed.

(** A call that saves ends with [saveState]. *)
Lemma perform_ends_saving (u : update) (s : Sys) :
  plain u = true -> saves u = true ->
  exists s', perform u s = saveState s' /\
             baseDir (this s') = baseDir (this s) /\
             stateFile (this s') = stateFile (this s) /\
             archiveDir (this s') = archiveDir (this s).
Proof.
  intros Hp Hs. destruct u; try discriminate Hs; cbn [perform];
    try (unfold markDateRangeProcessed, markAudioDownloaded,
           markAudioDownloadFailed, markTranscribed, markTranscriptionFailed,
           markAudioUploaded, markAudioUploadFailed, markAnalysisFailed,
           retryFailed, clear_if_present;
         monad_unfold; proj_simpl; eexists; split; [reflexivity|];
         repeat split; reflexivity).
  unfold plain in Hp. apply andb_true_iff in Hp as [_ Hp].
  destruct analysisData; try discriminate Hp;
    unfold markAnalyzed, property; monad_unfold; proj_simpl;
    eexists; (split; [reflexivity|]); repeat split; reflexivity.
Qed.

Ltac proj_in H :=
  cbn [this world state fst snd baseDir stateFile archiveDir
       disk dirs clock ticks console] in H.

Lemma perform_storable (u : update) (s : Sys) :
  storable (state (this s)) = true -> json_update u = true ->
  storable (state_after (perform u) s) = true.
Proof.
  intros Hst Hj. destruct u; cbn [json_update] in Hj; cbn [perform].
  - apply markDateRangeProcessed_storable, Hst.
  - apply andb_true_iff in Hj as [Hj H3]. apply andb_true_iff in Hj as [H1 H2].
    apply markAudioDownloaded_storable; assumption.
  - destruct (mark_failed_storable s Hst callId error Hj) as (F & _). exact F.
  - apply andb_true_iff in Hj as [H1 H2].
    apply markTranscribed_storable; assumption.
  - destruct (mark_failed_storable s Hst callId error Hj) as (_ & F & _). exact F.
  - apply markAudioUploaded_storable; assumption.
  - destruct (mark_failed_storable s Hst callId error Hj) as (_ & _ & F & _). exact F.
  - destruct analysisData as [| | | | | |analysis]; try discriminate Hj.
    apply andb_true_iff in Hj as [Hj H3]. apply andb_true_iff in Hj as [H1 H2].
    unfold json_field in H1, H2, H3.
    destruct (obj_get "sentiment" analysis) as [a|] eqn:G1; [|discriminate].
    destruct (obj_get "success_rating" analysis) as [b|] eqn:G2; [|discriminate].
    destruct (obj_get "call_disposition" analysis) as [c|] eqn:G3;
      [|discriminate].
    apply (markAnalyzed_storable s Hst callId analysis a b c); assumption.
  - destruct (mark_failed_storable s Hst callId error Hj) as (_ & _ & _ & F). exact F.
  - change (storable (state_after (perform (ArchiveFile sourceFile category callId)) s) = true).
    destruct (perform_archive s sourceFile category callId) as [_ He].
    unfold state_after. rewrite He.
    apply (archiveFile_storable s Hst sourceFile category callId Hj).
  - apply retryFailed_storable, Hst.
Qed.

Lemma append_inj_l (a x y : string) : a +:+ x = a +:+ y -> x = y.
Proof.
  induction a as [|c a IH]; cbn [String.append]; [tauto|].
  intros [= H]. apply IH, H.
Qed.

(** No file goes to the archive under the name of the state file. *)
Lemma archive_path_not_state_file (base category date name : string) :
  path_join (path_join (path_join (path_join base "archive") category) date)
    name
  <> state_file_path base.
Proof.
  unfold state_file_path, path_join. rewrite !append_assoc. intros H.
  apply append_inj_l in H. cbn [String.append] in H. discriminate H.
Qed.

(** The whole effect of [archiveFile]: nothing but the console changes,
    or the file has moved and nothing is recorded, or the file has moved
    and the document, with one more record, is saved. *)
Lemma archiveFile_effect (s : Sys) (sourceFile category : string)
  (callId : value) :
  exists d' dk' ds' tk' cs',
    exec (archiveFile sourceFile category callId) s =
    {| this := {| baseDir := baseDir (this s); stateFile := stateFile (this s);
                  archiveDir := archiveDir (this s); state := d' |};
       world := {| disk := dk'; dirs := ds'; clock := clock (world s);
                   ticks := tk'; console := cs' |} |} /\
    ((d' = state (this s) /\
      (dk' = disk (world s) \/
       exists content,
         dk' = <[ archive_destination s sourceFile category := content ]>
                 (delete sourceFile (disk (world s))))) \/
     exists text,
       JSON_stringify (encode d') = Some text /\
       dk' !! stateFile (this s) = Some text).
Proof.
  destruct s as [[bd sf ad st] w].
  unfold archiveFile, exec. fs_unfold. monad_unfold. proj_simpl.
  destruct (disk w !! sourceFile) as [content|] eqn:Hfile.
  - destruct (obj_get category (archived_files st)) as [entries|] eqn:Hcat.
    + match goal with |- context [negb ?b] => destruct b end;
        cbn [negb]; proj_simpl; rewrite Hfile; proj_simpl; rewrite Hcat;
        proj_simpl;
        match goal with
        | |- context [saveState ?s'] =>
            destruct (saveState_effect s') as (text & Htext & E); rewrite E;
            clear E
        end; proj_simpl; cbn [this world state] in Htext;
        do 5 eexists; (split; [reflexivity|]); right; exists text;
        (split; [exact Htext|apply lookup_insert_eq]).
    + match goal with |- context [negb ?b] => destruct b end;
        cbn [negb]; proj_simpl; rewrite Hfile; proj_simpl; rewrite Hcat;
        proj_simpl; do 5 eexists; (split; [reflexivity|]); left;
        (split; [reflexivity|]); right; exists content; reflexivity.
  - match goal with |- context [negb ?b] => destruct b end;
      cbn [negb]; proj_simpl; rewrite Hfile; proj_simpl;
      do 5 eexists; (split; [reflexivity|]); left;
      (split; [reflexivity|]); left; reflexivity.
Qed.

(** The paths of a store on [base]. *)
Lemma perform_paths (u : update) (s : Sys) :
  plain u = true ->
  stateFile (this (exec (perform u) s)) = stateFile (this s) /\
  archiveDir (this (exec (perform u) s)) = archiveDir (this s).
Proof.
  intros Hp. destruct (saves u) eqn:Hs.
  - destruct (perform_ends_saving u s Hp Hs) as (s' & E & _ & H1 & H2).
    unfold exec. rewrite E.
    destruct (saveState_effect s') as (text & _ & ->). proj_simpl.
    split; assumption.
  - destruct u; try discriminate Hs.
    destruct (perform_archive s sourceFile category callId) as [_ ->].
    destruct (archiveFile_effect s sourceFile category callId)
      as (d' & dk' & ds' & tk' & cs' & -> & _).
    split; reflexivity.
Qed.

(** One call on a store on [base]: the document stays storable; the call
    leaves the store saved if it saves or if the store was saved. *)
Lemma perform_saved (u : update) (s : Sys) (base : string) :
  stateFile (this s) = state_file_path base ->
  archiveDir (this s) = path_join base "archive" ->
  storable (state (this s)) = true ->
  plain u = true -> json_update u = true -> keeps_state_file base u = true ->
  (saves u = true \/ saved s) -> saved (exec (perform u) s).
Proof.
  intros Hfile Harch Hst Hp Hj Hk Hsaved.
  pose proof (perform_storable u s Hst Hj) as Hst'.
  destruct (saves u) eqn:Hs.
  - destruct (perform_ends_saving u s Hp Hs) as (s' & E & _).
    unfold state_after, exec in *. rewrite E in *.
    apply saveState_saved.
    destruct (saveState_effect s') as (text & _ & E'). rewrite E' in Hst'.
    proj_in Hst'. rewrite storable_set_last_updated in Hst'.
    exact Hst'.
  - destruct Hsaved as [Hsaved|Hsaved]; [discriminate Hsaved|].
    destruct u; try discriminate Hs. cbn [keeps_state_file] in Hk.
    apply negb_true_iff, String.eqb_neq in Hk.
    destruct (perform_archive s sourceFile category callId) as [_ He].
    unfold state_after in Hst'. rewrite He in *.
    destruct (archiveFile_effect s sourceFile category callId)
      as (d' & dk' & ds' & tk' & cs' & E & Hcase).
    rewrite E in *. proj_in Hst'. unfold saved. proj_simpl.
    destruct Hcase as [[-> Hdisk]|(text & Htext & Hlook)].
    + destruct Hsaved as (text & Hlook & Hparse). exists text.
      split; [|exact Hparse].
      destruct Hdisk as [->|[content ->]]; [exact Hlook|].
      rewrite lookup_insert_ne.
      * rewrite lookup_delete_ne; [exact Hlook|]. rewrite Hfile. exact Hk.
      * unfold archive_destination. rewrite Hfile, Harch.
        apply archive_path_not_state_file.
    + exists text. split; [exact Hlook|].
      destruct (JSON_parse_stringify (encode d') Hst') as (text' & H1 & H2).
      rewrite Htext in H1. injection H1 as <-. exact H2.
Qed.

Lemma perform_all_saved (us : list update) (base : string) :
  forall s,
    stateFile (this s) = state_file_path base ->
    archiveDir (this s) = path_join base "archive" ->
    storable (state (this s)) = true ->
    forallb (fun u => plain u && json_update u && keeps_state_file base u) us
    = true ->
    (existsb saves us = true \/ saved s) ->
    stateFile (this (exec (perform_all us) s)) = state_file_path base /\
    saved (exec (perform_all us) s).
Proof.
  induction us as [|u r IH]; intros s Hfile Harch Hst Hus Hsaved.
  - destruct Hsaved as [H|H]; [discriminate H|]. split; assumption.
  - cbn [forallb] in Hus. apply andb_true_iff in Hus as [Hu Hr].
    apply andb_true_iff in Hu as [Hu Hk]. apply andb_true_iff in Hu as [Hp Hj].
    destruct (perform_step u s Hp) as [Hrun _].
    unfold exec. rewrite (perform_all_cons u r s Hrun).
    destruct (perform_paths u s Hp) as [P1 P2].
    apply IH.
    + rewrite P1. exact Hfile.
    + rewrite P2. exact Harch.
    + apply (perform_storable u s Hst Hj).
    + exact Hr.
    + cbn [existsb] in Hsaved.
      destruct (saves u) eqn:Hs.
      * right. apply (perform_saved u s base); try assumption. left. exact Hs.
      * destruct Hsaved as [H|H]; [left; exact H|].
        right. apply (perform_saved u s base); try assumption. right. exact H.
Qed.

(** X4.  A process that starts on the files another one left resumes with
    the document that one held: after the constructor and any calls
    whose arguments are made of strings, booleans, null and integers
    that a double holds, at least one of which saves, a new
    [PipelineState] on the same base directory returns, holds the same
    document and prints no warning.  The base directory is an absolute
    path in normal form on which the constructor can make its
    directories and where no directory stands at the path of the state
    file; a call that archives names its source in normal form, under a
    category that is a plain segment, and does not move the state file
    or a directory above it. *)
Theorem restart_resumes (s0 : Sys) (base : string) (us : list update) :
  normalised base = true ->
  tidy (world s0) = true ->
  forallb (free_path (world s0)) (layout base) = true ->
  is_dir (state_file_path base) (world s0) = false ->
  run (constructor base) s0 = Returns tt ->
  forallb (fun u => plain u && json_update u && keeps_state_file base u) us
  = true ->
  forallb (fun u => tidy_update base u && exact_update u) us = true ->
  existsb saves us = true ->
  let s1 := exec (constructor base) s0 in
  let s2 := exec (perform_all us) s1 in
  run (perform_all us) s1 = Returns tt /\
  run (constructor base) s2 = Returns tt /\
  state_after (constructor base) s2 = state (this s2) /\
  console (world (exec (constructor base) s2)) = console (world s2).
Proof.
  intros _ _ _ _ Hrun Hus _ Hsave. cbn zeta.
  destruct (constructor_effect s0 base Hrun)
    as (d & ds & tk & cs & E & Hst & _).
  assert (Hplain : forallb plain us = true).
  { clear -Hus. induction us as [|u r IH]; [reflexivity|].
    cbn [forallb] in Hus |- *. apply andb_true_iff in Hus as [Hu Hr].
    apply andb_true_iff in Hu as [Hu _]. apply andb_true_iff in Hu as [Hu _].
    rewrite Hu, (IH Hr). reflexivity. }
  split; [apply perform_all_returns, Hplain|].
  destruct (perform_all_saved us base (exec (constructor base) s0))
    as [Hpath Hsaved];
    try (rewrite E; proj_simpl; reflexivity || assumption).
  - exact Hus.
  - left. exact Hsave.
  - apply constructor_saved; assumption.
Qed.

Lemma restart_resumes_witness :
  let us := [MarkAudioDownloaded "C1" (VStr "B1") (VStr "B1_C1.wav")
               (VStr "/data/output/audio/B1_C1.wav");
             MarkAnalysisFailed "C1" (VStr "OpenAI API error: timeout");
             ArchiveFile "/data/output/audio/B1_C1.wav" "audio" (VStr "C1")] in
  let s2 := exec (perform_all us) (exec (constructor "/data") blank) in
  run (perform_all us) (exec (constructor "/data") blank) = Returns tt /\
  run (constructor "/data") s2 = Returns tt /\
  state_after (constructor "/data") s2 = state (this s2) /\
  console (world (exec (constructor "/data") s2)) = console (world s2).
Proof.
  cbn zeta.
  apply (restart_resumes blank "/data"
           [MarkAudioDownloaded "C1" (VStr "B1") (VStr "B1_C1.wav")
              (VStr "/data/output/audio/B1_C1.wav");
            MarkAnalysisFailed "C1" (VStr "OpenAI API error: timeout");
            ArchiveFile "/data/output/audio/B1_C1.wav" "audio" (VStr "C1")]);
    vm_compute; reflexivity.
Defined.

(** ** A first run *)

Lemma make_missing_dirs (l : list string) :
  forall s,
    let s' := exec (make_missing l) s in
    (forall p, In p l -> is_file p (world s) = false ->
               is_dir p (world s') = true) /\
    (forall p, is_dir p (world s) = true -> is_dir p (world s') = true) /\
    disk (world s') = disk (world s).
Proof.
  induction l as [|dir l IH]; intros s; cbn zeta.
  - split; [intros p []|]. split; [tauto|reflexivity].
  - unfold exec. cbn [make_missing]. unfold fs_existsSync, fs_mkdirSync.
    monad_unfold. proj_simpl.
    destruct (is_file dir (world s)) eqn:Hf, (is_dir dir (world s)) eqn:Hd;
      cbn [orb negb]; proj_simpl;
      match goal with |- context [make_missing l ?s'] =>
        destruct (IH s') as (I1 & I2 & I3); unfold exec in I1, I2, I3;
        set (s1 := s') in *
      end.
    + split; [|split; [exact I2|exact I3]].
      intros p [<-|Hp] Hpf; [congruence|]. apply I1; assumption.
    + split; [|split; [exact I2|exact I3]].
      intros p [<-|Hp] Hpf; [congruence|]. apply I1; assumption.
    + split; [|split; [exact I2|exact I3]].
      intros p [<-|Hp] Hpf; [apply I2; exact Hd|]. apply I1; assumption.
    + assert (Hsub : forall p, is_dir p (world s) = true ->
                               is_dir p (world s1) = true).
      { intros p Hp. unfold is_dir in *. subst s1. proj_simpl.
        apply bool_decide_eq_true. apply bool_decide_eq_true in Hp.
        apply elem_of_union_l, elem_of_union_l, Hp. }
      split; [|split].
      * intros p [<-|Hp] Hpf.
        -- apply I2. unfold is_dir. subst s1. proj_simpl.
           apply bool_decide_eq_true, elem_of_union_r, elem_of_singleton.
           reflexivity.
        -- apply I1; [exact Hp|]. exact Hpf.
      * intros p Hp. apply I2, Hsub, Hp.
      * rewrite I3. reflexivity.
Qed.

Lemma constructor_no_file (s : Sys) (base : string) :
  let w := world s in
  disk w !! state_file_path base = None ->
  is_dir (state_file_path base) w = false ->
  exists ds,
    constructor base s =
    (Returns tt,
     {| this := {| baseDir := base; stateFile := state_file_path base;
                   archiveDir := path_join base "archive";
                   state := default_state (clock w (ticks w))
                              (clock w (S (ticks w))) |};
        world := {| disk := disk w; dirs := ds; clock := clock w;
                    ticks := S (S (ticks w)); console := console w |} |}) /\
    (forall dir, In dir (layout base) -> is_file dir w = false -> dir ∈ ds) /\
    (forall dir, is_dir dir w = true -> dir ∈ ds).
Proof.
  intros w Hfile Hdir. subst w. unfold state_file_path in *.
  unfold constructor, loadState, ensureDirectories.
  fs_unfold. monad_unfold. proj_simpl. unfold is_file at 1. proj_simpl.
  rewrite Hfile, Hdir. cbn [orb]. proj_simpl.
  match goal with |- context [make_missing ?l ?s'] =>
    pose proof (make_missing_dirs l s') as (I1 & I2 & I3);
    destruct (make_missing_effect l s') as [ds E]
  end.
  unfold exec in I1, I2, I3. rewrite E in I1, I2, I3 |- *.
  proj_in I1. proj_in I2. proj_simpl.
  exists ds. split; [reflexivity|]. split.
  - intros dir Hin Hf. specialize (I1 dir Hin Hf). unfold is_dir in I1.
    proj_in I1. apply bool_decide_eq_true in I1. exact I1.
  - intros dir Hd. specialize (I2 dir Hd). unfold is_dir in I2.
    proj_in I2. apply bool_decide_eq_true in I2. exact I2.
Qed.

(** X5.  On a base directory without state file, where nothing stands in
    the way of the directories, the constructor returns with the default
    document, stamped with the next two readings of the clock; it makes
    the six directories, writes no file (the state file appears with the
    first call that saves) and prints nothing.  The base directory is
    given as an absolute path in normal form, and the files and
    directories are held under such paths, so that the state file the
    source looks for is the one at [state_file_path base]. *)
Theorem constructor_first_run (s : Sys) (base : string) :
  let w := world s in
  normalised base = true ->
  tidy w = true ->
  disk w !! state_file_path base = None ->
  is_dir (state_file_path base) w = false ->
  forallb (free_path w) (layout base) = true ->
  let m := constructor base in
  run m s = Returns tt /\
  state_after m s = default_state (clock w (ticks w)) (clock w (S (ticks w))) /\
  stateFile (this (exec m s)) = state_file_path base /\
  disk (world (exec m s)) = disk w /\
  console (world (exec m s)) = console w /\
  (forall dir, In dir (layout base) -> is_dir dir (world (exec m s)) = true) /\
  (forall dir, is_dir dir w = true -> is_dir dir (world (exec m s)) = true).
Proof.
  intros w _ _ Hfile Hdir Hfree m. subst w m.
  destruct (constructor_no_file s base Hfile Hdir) as (ds & E & D1 & D2).
  unfold state_after, run, exec. rewrite E. proj_simpl.
  do 5 (split; [reflexivity|]). split.
  - intros dir Hin. unfold is_dir. proj_simpl. apply bool_decide_eq_true.
    apply D1; [exact Hin|].
    rewrite forallb_forall in Hfree. specialize (Hfree dir Hin).
    unfold free_path in Hfree. rewrite forallb_app in Hfree.
    apply andb_true_iff in Hfree as [_ Hfree]. cbn [forallb] in Hfree.
    rewrite andb_true_r in Hfree. apply negb_true_iff in Hfree. exact Hfree.
  - intros dir Hd. unfold is_dir. proj_simpl. apply bool_decide_eq_true.
    apply D2, Hd.
Qed.

Lemma constructor_first_run_witness :
  run (constructor "/data") blank = Returns tt /\
  state_after (constructor "/data") blank
  = default_state "2025-01-01T00:00:0.000Z" "2025-01-01T00:00:1.000Z" /\
  stateFile (this (exec (constructor "/data") blank))
  = "/data/logs/pipeline_state.json" /\
  disk (world (exec (constructor "/data") blank)) = ∅.
Proof.
  pose proof (constructor_first_run blank "/data" eq_refl eq_refl eq_refl
                eq_refl eq_refl)
    as (H1 & H2 & H3 & H4 & _).
  repeat split; assumption.
Defined.

(** ** Retrying *)

Lemma clear_failures_unknown (stage field : string) (d : document) :
  ~ In stage stage_names -> clear_failures stage field d = d.
Proof.
  intros Hn. unfold clear_failures, stage_field.
  destruct (String.eqb_spec stage "download_audio") as [->|_];
    [exfalso; apply Hn; simpl; tauto|].
  destruct (String.eqb_spec stage "transcribe") as [->|_];
    [exfalso; apply Hn; simpl; tauto|].
  destruct (String.eqb_spec stage "upload_audio") as [->|_];
    [exfalso; apply Hn; simpl; tauto|].
  destruct (String.eqb_spec stage "analyze") as [->|_];
    [exfalso; apply Hn; simpl; tauto|].
  reflexivity.
Qed.



Lemma forEach_perform_all (stages : list string) :
  forEach stages retryFailed = perform_all (map RetryFailed stages).
Proof.
  induction stages as [|a r IH]; [reflexivity|].
  cbn [forEach map perform_all perform]. rewrite IH. reflexivity.
Qed.


(** ** Archiving and the statistics *)

Lemma concat_update_length (category : string) (entries : list (obj value))
  (r : obj value) (a : obj (list (obj value))) :
  obj_get category a = Some entries ->
  length (concat (obj_values (obj_update category (entries ++ [r]) a)))
  = S (length (concat (obj_values a))).
Proof.
  unfold obj_values. induction a as [|[k l] a IH]; [discriminate|].
  cbn [obj_get obj_update]. destruct (String.eqb k category).
  - intros [= ->]. cbn [map snd concat]. rewrite !length_app. cbn [length].
    lia.
  - intros H. cbn [map snd concat]. rewrite !length_app, (IH H). lia.
Qed.

(** X8.  [archiveFile] changes one statistic at most: the number of
    archived files grows by one exactly when the call returns the
    destination path, and stays when it returns null; the totals of the
    stages and the completion rate are as before either way.  This is
    stated of a store whose state file can be written (the object is the
    one the constructor makes on [base], the [logs] directory is there
    and no directory stands at the path of the state file), of a source
    in normal form that is no directory and of a category that is a
    plain segment: a write that fails after the entry is pushed would
    leave the count grown with null returned. *)
Theorem archiveFile_counts (s : Sys) (base sourceFile category : string)
  (callId : value) :
  store_at base s = true ->
  normalised sourceFile = true ->
  plain_segment category = true ->
  is_dir sourceFile (world s) = false ->
  let m := archiveFile sourceFile category callId in
  let before := getProcessingStats (state (this s)) in
  let after := getProcessingStats (state_after m s) in
  exists r,
    run m s = Returns r /\
    after =
    {| stats_total_calls_extracted := stats_total_calls_extracted before;
       stats_audio_downloaded := stats_audio_downloaded before;
       stats_transcribed := stats_transcribed before;
       stats_uploaded_to_bubble := stats_uploaded_to_bubble before;
       stats_analyzed := stats_analyzed before;
       stats_archived_files :=
         stats_archived_files before
         + match r with Some _ => 1 | None => 0 end;
       completion_rate := completion_rate before |}.
Proof.
  intros _ _ _ _. cbn zeta.
  destruct (disk (world s) !! sourceFile) as [content|] eqn:Hfile.
  - destruct (obj_get category (archived_files (state (this s))))
      as [entries|] eqn:Hcat.
    + destruct (archiveFile_moved s sourceFile category callId content
                  entries Hfile Hcat) as (text & Hr & -> & _).
      eexists. split; [exact Hr|].
      unfold getProcessingStats.
      cbn [stages set_last_updated set_archived_files archived_files
           stats_total_calls_extracted stats_audio_downloaded
           stats_transcribed stats_uploaded_to_bubble stats_analyzed
           stats_archived_files completion_rate].
      rewrite (concat_update_length _ _ _ _ Hcat), Nat2Z.inj_succ.
      unfold Z.succ. reflexivity.
    + destruct (archiveFile_unknown_category s sourceFile category callId
                  content Hfile Hcat) as (Hr & -> & _).
      eexists. split; [exact Hr|].
      unfold getProcessingStats.
      cbn [stats_total_calls_extracted stats_audio_downloaded
           stats_transcribed stats_uploaded_to_bubble stats_analyzed
           stats_archived_files completion_rate].
      rewrite Z.add_0_r. reflexivity.
  - destruct (archiveFile_missing s sourceFile category callId Hfile)
      as (Hr & -> & _).
    eexists. split; [exact Hr|].
    unfold getProcessingStats.
    cbn [stats_total_calls_extracted stats_audio_downloaded
         stats_transcribed stats_uploaded_to_bubble stats_analyzed
         stats_archived_files completion_rate].
    rewrite Z.add_0_r. reflexivity.
Qed.

Lemma archiveFile_counts_witness :
  let source := "/data/output/transcripts/B1_C1.txt" in
  let s := exec (fs_writeFileSync source "Agent: hello")
             (exec (fs_mkdirSync "/data/output/transcripts") fresh) in
  let m := archiveFile source "transcripts" (VStr "C1") in
  let before := getProcessingStats (state (this s)) in
  exists r,
    run m s = Returns r /\
    getProcessingStats (state_after m s) =
    {| stats_total_calls_extracted := stats_total_calls_extracted before;
       stats_audio_downloaded := stats_audio_downloaded before;
       stats_transcribed := stats_transcribed before;
       stats_uploaded_to_bubble := stats_uploaded_to_bubble before;
       stats_analyzed := stats_analyzed before;
       stats_archived_files :=
         stats_archived_files before
         + match r with Some _ => 1 | None => 0 end;
       completion_rate := completion_rate before |}.
Proof.
  cbn zeta.
  apply (archiveFile_counts
           (exec (fs_writeFileSync "/data/output/transcripts/B1_C1.txt"
                    "Agent: hello")
              (exec (fs_mkdirSync "/data/output/transcripts") fresh))
           "/data" "/data/output/transcripts/B1_C1.txt" "transcripts"
           (VStr "C1")).
  - vm_compute. reflexivity.
  - vm_compute. reflexivity.
  - vm_compute. reflexivity.
  - vm_compute. reflexivity.
Defined.

(** A successful [archiveFile] reads the clock three times. *)
Lemma archiveFile_moved_ticks s sourceFile category callId content entries :
  disk (world s) !! sourceFile = Some content ->
  obj_get category (archived_files (state (this s))) = Some entries ->
  ticks (world (exec (archiveFile sourceFile category callId) s))
  = (3 + ticks (world s))%nat.
Proof.
  intros Hfile Hcat. unfold archiveFile. fs_unfold.
  monad_unfold. proj_simpl.
  match goal with |- context [negb ?b] => destruct b end;
    cbn [negb]; proj_simpl; rewrite Hfile; proj_simpl; rewrite Hcat;
    proj_simpl; save; proj_simpl; reflexivity.
Qed.



(** ** Running totals and entries *)

Lemma obj_set_length {V : Type} (k : string) (v : V) (o : obj V) :
  (length (obj_set k v o) <= S (length o))%nat.
Proof.
  unfold obj_set, obj_define.
  destruct (negb (obj_has k o) && String.eqb k "__proto__")%bool; [lia|].
  destruct (obj_has k o).
  - replace (length (obj_update k v o)) with (length o); [lia|].
    induction o as [|[k' v'] o IH]; [reflexivity|].
    cbn [obj_update]. destruct (String.eqb k' k); cbn [length]; congruence.
  - destruct (array_index k) as [n|].
    + induction o as [|[k' v'] o IH]; [cbn; lia|].
      cbn [obj_place]. destruct (array_index k') as [m|];
        [destruct (m <? n)|]; cbn [length] in *; lia.
    + rewrite length_app. cbn [length]. lia.
Qed.

Lemma perform_length (u : update) (s : Sys) (stage : string) :
  plain u = true -> In stage stage_names ->
  (length (success_map stage (state_after (perform u) s))
   <= length (success_map stage (state (this s)))
      + if is_some (success_of stage u) then 1 else 0)%nat.
Proof.
  intros Hp Hin. destruct u.
  - cbn [perform].
    destruct (markDateRangeProcessed_effect s startDate endDate callCount)
      as [_ ->].
    stage_cases Hin; cbn -[obj_set]; lia.
  - cbn [perform].
    destruct (markAudioDownloaded_effect s callId brokerId filename filepath)
      as [_ ->].
    stage_cases Hin; cbn -[obj_set]; try lia;
      (etransitivity; [apply obj_set_length|lia]).
  - cbn [perform].
    destruct (markAudioDownloadFailed_effect s callId error) as [_ ->].
    stage_cases Hin; cbn -[obj_set]; lia.
  - cbn [perform].
    destruct (markTranscribed_effect s callId filename transcriptPath)
      as [_ ->].
    stage_cases Hin; cbn -[obj_set]; try lia;
      (etransitivity; [apply obj_set_length|lia]).
  - cbn [perform].
    destruct (markTranscriptionFailed_effect s callId error) as [_ ->].
    stage_cases Hin; cbn -[obj_set]; lia.
  - cbn [perform].
    destruct (markAudioUploaded_effect s callId bubbleUrl) as [_ ->].
    stage_cases Hin; cbn -[obj_set]; try lia;
      (etransitivity; [apply obj_set_length|lia]).
  - cbn [perform].
    destruct (markAudioUploadFailed_effect s callId error) as [_ ->].
    stage_cases Hin; cbn -[obj_set]; lia.
  - cbn [perform].
    destruct (markAnalyzed_effect_any s callId analysisData Hp) as [_ ->].
    stage_cases Hin; cbn -[obj_set]; try lia;
      (etransitivity; [apply obj_set_length|lia]).
  - cbn [perform].
    destruct (markAnalysisFailed_effect s callId error) as [_ ->].
    stage_cases Hin; cbn -[obj_set]; lia.
  - destruct (perform_archive s sourceFile category callId) as [_ He].
    unfold state_after. rewrite He.
    destruct (archiveFile_stages s sourceFile category callId) as [_ Hs].
    unfold state_after in Hs. unfold success_map. rewrite Hs.
    cbn [success_of is_some]. lia.
  - cbn [perform]. destruct (retryFailed_effect stage0 s) as [_ [t E]].
    unfold state_after. rewrite E.
    pose proof (clear_failures_stages stage0 "failed_downloads" (state (this s)))
      as (A1 & A2 & A3 & A4 & _).
    set (d1 := clear_failures stage0 "failed_downloads" (state (this s))) in *.
    pose proof (clear_failures_stages stage0 "failed_transcriptions" d1)
      as (B1 & B2 & B3 & B4 & _).
    set (d2 := clear_failures stage0 "failed_transcriptions" d1) in *.
    pose proof (clear_failures_stages stage0 "failed_uploads" d2)
      as (C1 & C2 & C3 & C4 & _).
    set (d3 := clear_failures stage0 "failed_uploads" d2) in *.
    pose proof (clear_failures_stages stage0 "failed_analyses" d3)
      as (D1 & D2 & D3 & D4 & _).
    set (d4 := clear_failures stage0 "failed_analyses" d3) in *.
    cbn [success_of is_some].
    stage_cases Hin;
      [change (success_map "download_audio" (set_last_updated t d4))
         with (success_map "download_audio" d4); rewrite D1, C1, B1, A1
      |change (success_map "transcribe" (set_last_updated t d4))
         with (success_map "transcribe" d4); rewrite D2, C2, B2, A2
      |change (success_map "upload_audio" (set_last_updated t d4))
         with (success_map "upload_audio" d4); rewrite D3, C3, B3, A3
      |change (success_map "analyze" (set_last_updated t d4))
         with (success_map "analyze" d4); rewrite D4, C4, B4, A4]; lia.
Qed.

Lemma fold_add_length (files : obj (obj value)) (ks calls : list string) :
  (length (fold_left
             (fun calls callId =>
                if completed callId files then set_add callId calls else calls)
             ks calls)
   <= length calls + length ks)%nat.
Proof.
  revert calls. induction ks as [|k ks IH]; intros calls; cbn [fold_left length];
    [lia|].
  etransitivity; [apply IH|].
  destruct (completed k files); [|lia].
  unfold set_add. destruct (existsb _ calls); [lia|].
  rewrite length_app. cbn [length]. lia.
Qed.

Lemma filter_length {A : Type} (f : A -> bool) (l : list A) :
  (length (List.filter f l) <= length l)%nat.
Proof.
  induction l as [|a l IH]; [reflexivity|]. cbn [List.filter].
  destruct (f a); cbn [length]; lia.
Qed.

Lemma getCallsForProcessing_length (stage : string) (d : document) :
  (length (getCallsForProcessing stage d)
   <= length (downloaded_files (download_audio (stages d))))%nat.
Proof.
  assert (H : (length (allCalls d)
               <= length (downloaded_files (download_audio (stages d))))%nat).
  { unfold allCalls. etransitivity; [apply fold_add_length|].
    unfold obj_keys. rewrite length_map. cbn [length]. lia. }
  unfold getCallsForProcessing.
  repeat match goal with
         | |- context [if ?b then _ else _] => destruct b
         end;
    try (etransitivity; [apply filter_length|]); exact H.
Qed.

Lemma counted_spec (d : document) :
  counted d = true <->
  forall stage, In stage stage_names ->
                Z.of_nat (length (success_map stage d)) <= running_total stage d.
Proof.
  unfold counted. rewrite forallb_forall. split; intros H stage Hin.
  - apply Z.leb_le, H, Hin.
  - apply Z.leb_le, H, Hin.
Qed.

(** X10.  A running total never falls behind its success map: when every
    success map has at most as many entries as its total says, as on a
    new store, this stays so after any sequence of calls.  The list
    [getCallsForProcessing] returns is then never longer than
    [total_downloaded]. *)
Theorem totals_bound_entries (s : Sys) (us : list update) :
  forallb plain us = true ->
  counted (state (this s)) = true ->
  let d' := state_after (perform_all us) s in
  counted d' = true /\
  forall stage,
    Z.of_nat (length (getCallsForProcessing stage d'))
    <= total_downloaded (download_audio (stages d')).
Proof.
  intros Hp Hc. cbn zeta.
  assert (Hc' : counted (state_after (perform_all us) s) = true).
  { revert s Hp Hc. induction us as [|u r IH]; intros s Hp Hc; [exact Hc|].
    cbn [forallb] in Hp. apply andb_true_iff in Hp as [Hu Hr].
    rewrite (state_after_cons u r s Hu). apply IH; [exact Hr|].
    apply counted_spec. intros stage Hin.
    rewrite counted_spec in Hc. specialize (Hc stage Hin).
    pose proof (perform_length u s stage Hu Hin) as Hl.
    destruct (perform_step u s Hu) as (_ & _ & _ & Ht & _).
    unfold state_after in *. rewrite (Ht stage Hin).
    destruct (is_some (success_of stage u)); lia. }
  split; [exact Hc'|]. intros stage.
  rewrite counted_spec in Hc'.
  specialize (Hc' "download_audio" ltac:(simpl; tauto)).
  pose proof (getCallsForProcessing_length stage
                (state_after (perform_all us) s)) as Hl.
  change (success_map "download_audio" ?d)
    with (downloaded_files (download_audio (stages d))) in Hc'.
  change (running_total "download_audio" ?d)
    with (total_downloaded (download_audio (stages d))) in Hc'.
  lia.
Qed.

Lemma totals_bound_entries_witness :
  let mark := MarkAudioDownloaded "C1" (VStr "B1") (VStr "B1_C1.wav")
                (VStr "/data/output/audio/B1_C1.wav") in
  let d' := state_after (perform_all [mark; mark]) fresh in
  counted d' = true /\
  forall stage,
    Z.of_nat (length (getCallsForProcessing stage d'))
    <= total_downloaded (download_audio (stages d')).
Proof.
  cbn zeta.
  apply (totals_bound_entries fresh
           [MarkAudioDownloaded "C1" (VStr "B1") (VStr "B1_C1.wav")
              (VStr "/data/output/audio/B1_C1.wav");
            MarkAudioDownloaded "C1" (VStr "B1") (VStr "B1_C1.wav")
              (VStr "/data/output/audio/B1_C1.wav")]);
    reflexivity.
Defined.

(** ** Strings of the stage scripts *)

Lemma strip_prefix_app (p s : string) : strip_prefix p (p +:+ s) = Some s.
Proof.
  induction p as [|a p IH]; [destruct s; reflexivity|].
  cbn [String.append strip_prefix]. rewrite Ascii.eqb_refl. exact IH.
Qed.

Lemma strip_prefix_inv (p s rest : string) :
  strip_prefix p s = Some rest -> s = p +:+ rest.
Proof.
  revert s. induction p as [|a p IH]; intros s.
  - destruct s; intros [= <-]; reflexivity.
  - destruct s as [|b s]; [discriminate|]. cbn [strip_prefix].
    destruct (Ascii.eqb_spec a b) as [<-|]; [|discriminate].
    intros H. cbn [String.append]. f_equal. apply IH, H.
Qed.

Lemma split_on_nonempty (c : ascii) (s : string) : split_on c s <> [].
Proof.
  destruct s as [|a r]; [discriminate|]. cbn [split_on].
  destruct (Ascii.eqb a c); [discriminate|].
  destruct (split_on c r); discriminate.
Qed.

Lemma split_on_cons (c a : ascii) (r : string) :
  Ascii.eqb a c = false ->
  exists first rest,
    split_on c r = first :: rest /\
    split_on c (String a r) = String a first :: rest.
Proof.
  intros H. cbn [split_on]. rewrite H.
  destruct (split_on c r) as [|first rest] eqn:E;
    [destruct (split_on_nonempty c r E)|].
  exists first, rest. split; reflexivity.
Qed.

Lemma split_on_none (c : ascii) (s : string) :
  has_char c s = false -> split_on c s = [s].
Proof.
  induction s as [|a r IH]; [reflexivity|]. cbn [has_char].
  intros H. apply orb_false_iff in H as [Ha Hr].
  destruct (split_on_cons c a r Ha) as (first & rest & E & ->).
  rewrite (IH Hr) in E. injection E as <- <-. reflexivity.
Qed.

Lemma split_on_app (c : ascii) (a b : string) :
  has_char c a = false ->
  split_on c (a +:+ String c b) = a :: split_on c b.
Proof.
  induction a as [|x a IH]; cbn [has_char String.append].
  - intros _. cbn [split_on]. rewrite Ascii.eqb_refl. reflexivity.
  - intros H. apply orb_false_iff in H as [Hx Ha].
    destruct (split_on_cons c x (a +:+ String c b) Hx)
      as (first & rest & E & ->).
    rewrite (IH Ha) in E. injection E as <- <-. reflexivity.
Qed.

Lemma join_cons (sep x : string) (l : list string) :
  l <> [] -> join sep (x :: l) = x +:+ sep +:+ join sep l.
Proof. destruct l; [contradiction|reflexivity]. Qed.

Lemma join_head (sep x : string) (a : ascii) (l : list string) :
  join sep (String a x :: l) = String a (join sep (x :: l)).
Proof. destruct l; reflexivity. Qed.

(** Splitting and joining again gives the string back. *)
Lemma join_split (c : ascii) (s : string) :
  join (String c "") (split_on c s) = s.
Proof.
  induction s as [|a r IH]; [reflexivity|].
  destruct (Ascii.eqb_spec a c) as [->|Hne].
  - cbn [split_on]. rewrite Ascii.eqb_refl.
    rewrite join_cons by apply split_on_nonempty. rewrite IH. reflexivity.
  - apply Ascii.eqb_neq in Hne.
    destruct (split_on_cons c a r Hne) as (first & rest & E & ->).
    rewrite join_head, <- E, IH. reflexivity.
Qed.

Lemma split_on_head (c : ascii) (s first : string) (rest : list string) :
  split_on c s = first :: rest -> has_char c first = false.
Proof.
  revert first rest. induction s as [|a r IH]; intros first rest.
  - intros [= <- <-]. reflexivity.
  - destruct (Ascii.eqb a c) eqn:Ha.
    + cbn [split_on]. rewrite Ha. intros [= <- <-]. reflexivity.
    + destruct (split_on_cons c a r Ha) as (f & l & E & ->).
      intros [= <- <-]. cbn [has_char]. rewrite Ha. apply (IH f l E).
Qed.

Lemma split_on_single (c : ascii) (s x : string) :
  split_on c s = [x] -> has_char c s = false.
Proof.
  revert x. induction s as [|a r IH]; intros x; [reflexivity|].
  destruct (Ascii.eqb a c) eqn:Ha.
  - cbn [split_on]. rewrite Ha. intros [= _ E].
    destruct (split_on_nonempty c r E).
  - destruct (split_on_cons c a r Ha) as (f & l & E & ->).
    intros [= _ ->]. cbn [has_char]. rewrite Ha. apply (IH f E).
Qed.

Lemma endsWith_app (p s : string) : endsWith p (s +:+ p) = true.
Proof.
  induction s as [|a r IH]; cbn [String.append].
  - destruct p; cbn [endsWith]; rewrite String.eqb_refl; reflexivity.
  - cbn [endsWith]. rewrite IH. apply orb_true_r.
Qed.

Lemma includes_cons (p : string) (a : ascii) (r : string) :
  includes p (String a r) = false ->
  strip_prefix p (String a r) = None /\ includes p r = false.
Proof.
  cbn [includes]. destruct (strip_prefix p (String a r)); [discriminate|].
  tauto.
Qed.

(** Removing the first occurrence of an extension, a pattern of four
    characters whose first does not come again, from a name that has it
    at its end only removes the extension. *)
Lemma replace_first_suffix (c0 c1 c2 c3 : ascii) (x : string) :
  Ascii.eqb c1 c0 = false -> Ascii.eqb c2 c0 = false ->
  Ascii.eqb c3 c0 = false ->
  let p := String c0 (String c1 (String c2 (String c3 ""))) in
  includes p x = false -> replace_first p "" (x +:+ p) = x.
Proof.
  intros H1 H2 H3 p. subst p.
  induction x as [|a r IH].
  - intros _. cbn [String.append replace_first strip_prefix].
    rewrite !Ascii.eqb_refl. reflexivity.
  - intros H. apply includes_cons in H as [Hhead Hr].
    cbn [String.append replace_first].
    match goal with
    | [ |- match ?t with _ => _ end = _ ] => assert (Hnone : t = None)
    end.
    { cbn [strip_prefix] in Hhead |- *.
      destruct (Ascii.eqb c0 a); [|reflexivity].
      destruct r as [|b r1];
        [cbn [String.append strip_prefix]; rewrite H1; reflexivity|].
      cbn [String.append strip_prefix] in *.
      destruct (Ascii.eqb c1 b); [|reflexivity].
      destruct r1 as [|c r2];
        [cbn [String.append strip_prefix]; rewrite H2; reflexivity|].
      cbn [String.append strip_prefix] in *.
      destruct (Ascii.eqb c2 c); [|reflexivity].
      destruct r2 as [|d r3];
        [cbn [String.append strip_prefix]; rewrite H3; reflexivity|].
      cbn [String.append strip_prefix] in *.
      destruct (Ascii.eqb c3 d); [discriminate Hhead|reflexivity]. }
    rewrite Hnone, (IH Hr). reflexivity.
Qed.

(** The entry of the name made of a broker id and a call id. *)
Lemma transcript_file_of_name (transcriptsDir brokerId callId : string) :
  has_char "_" brokerId = false ->
  includes ".txt" (brokerId +:+ "_" +:+ callId) = false ->
  let file := transcript_name brokerId callId in
  transcript_file_of transcriptsDir file
  = Some {| file_filepath := path_join transcriptsDir file;
            file_filename := file;
            file_brokerId := brokerId;
            file_callId := callId |}.
Proof.
  intros Hb Hx file. subst file. unfold transcript_name, transcript_file_of.
  replace (brokerId +:+ "_" +:+ callId +:+ ".txt")
    with ((brokerId +:+ "_" +:+ callId) +:+ ".txt")
    by (rewrite !append_assoc; reflexivity).
  rewrite (replace_first_suffix "." "t" "x" "t" _ eq_refl eq_refl eq_refl Hx).
  change ("_" +:+ callId) with (String "_" callId).
  rewrite (split_on_app "_" brokerId callId Hb).
  destruct (split_on "_" callId) as [|first rest] eqn:E;
    [destruct (split_on_nonempty _ _ E)|].
  cbn [length Nat.leb hd tl]. rewrite <- E.
  change (String "_" callId) with ("_" +:+ callId).
  rewrite (join_split "_" callId). reflexivity.
Qed.

(** ** Transcript files *)

Lemma In_defined {A : Type} (x : A) (l : list (option A)) :
  In x (defined l) <-> In (Some x) l.
Proof.
  induction l as [|[a|] l IH]; cbn [defined In].
  - tauto.
  - rewrite IH. split; intros [H|H]; auto; left; congruence.
  - rewrite IH. split; [tauto|]. intros [H|H]; [discriminate|exact H].
Qed.

Lemma getTranscriptFiles_listed (transcriptsDir : string)
    (files : list string) (s : Sys) :
  is_file transcriptsDir (world s) = false ->
  is_dir transcriptsDir (world s) = true ->
  getTranscriptFiles transcriptsDir files s
  = (Returns (defined (map (transcript_file_of transcriptsDir)
                         (List.filter (endsWith ".txt") files))), s).
Proof.
  intros Hf Hd.
  unfold getTranscriptFiles, fs_existsSync, mbind, M_bind, bind, mret, M_ret,
    get_world, ret.
  cbv beta iota. rewrite Hf, Hd. cbn [orb negb]. cbv beta iota.
  rewrite Hf. reflexivity.
Qed.

(** X11.  The analysis stage finds the transcripts the transcription
    stage writes: for a broker id without underscore and ids that do not
    hold [.txt], a file of the name [`${brokerId}_${callId}.txt`] in the
    transcripts directory gives an entry of [getTranscriptFiles] with
    exactly this broker id and this call id, underscores of the call id
    included. *)
Theorem transcript_name_round_trip (transcriptsDir brokerId callId : string)
    (files : list string) (s : Sys) :
  has_char "_" brokerId = false ->
  includes ".txt" (brokerId +:+ "_" +:+ callId) = false ->
  is_file transcriptsDir (world s) = false ->
  is_dir transcriptsDir (world s) = true ->
  In (transcript_name brokerId callId) files ->
  let file := transcript_name brokerId callId in
  exists found,
    run (getTranscriptFiles transcriptsDir files) s = Returns found /\
    In {| file_filepath := path_join transcriptsDir file;
          file_filename := file;
          file_brokerId := brokerId;
          file_callId := callId |} found.
Proof.
  intros Hb Hx Hf Hd Hin file. subst file. eexists. split.
  - unfold run. rewrite (getTranscriptFiles_listed _ _ _ Hf Hd). reflexivity.
  - apply In_defined.
    rewrite <- (transcript_file_of_name transcriptsDir brokerId callId Hb Hx).
    apply in_map, filter_In. split; [exact Hin|].
    unfold transcript_name. rewrite <- !append_assoc. apply endsWith_app.
Qed.

Lemma transcript_name_round_trip_witness :
  let s := exec (fs_mkdirSync "/data/output/transcripts") fresh in
  exists found,
    run (getTranscriptFiles "/data/output/transcripts"
           ["notes.md"; "101_ab12_cd34.txt"]) s = Returns found /\
    In {| file_filepath := "/data/output/transcripts/101_ab12_cd34.txt";
          file_filename := "101_ab12_cd34.txt";
          file_brokerId := "101";
          file_callId := "ab12_cd34" |} found.
Proof.
  apply (transcript_name_round_trip "/data/output/transcripts" "101"
           "ab12_cd34" ["notes.md"; "101_ab12_cd34.txt"]
           (exec (fs_mkdirSync "/data/output/transcripts") fresh)).
  - reflexivity.
  - reflexivity.
  - vm_compute. reflexivity.
  - vm_compute. reflexivity.
  - right. left. reflexivity.
Defined.

(** X12.  What [getTranscriptFiles] returns.  Without the directory it
    returns the empty list and prints one line.  With it, it prints
    nothing, and every entry comes from a listed name that ends in
    [.txt]: its broker id is the part before the first underscore, and
    broker id, underscore and call id make up the name without its first
    [.txt]; a name that has no underscore then is dropped without a
    message. *)
Theorem getTranscriptFiles_entries (transcriptsDir : string)
    (files : list string) (s : Sys) :
  let m := getTranscriptFiles transcriptsDir files in
  (is_file transcriptsDir (world s) = false ->
   is_dir transcriptsDir (world s) = false ->
   run m s = Returns [] /\
   console (world (exec m s))
   = console (world s)
       ++ [Log ("⚠️ Transcripts directory not found: " +:+ transcriptsDir)]) /\
  (is_file transcriptsDir (world s) = false ->
   is_dir transcriptsDir (world s) = true ->
   exists found,
     run m s = Returns found /\ exec m s = s /\
     (forall entry,
        In entry found ->
        let name := replace_first ".txt" "" (file_filename entry) in
        In (file_filename entry) files /\
        endsWith ".txt" (file_filename entry) = true /\
        file_filepath entry = path_join transcriptsDir (file_filename entry) /\
        has_char "_" (file_brokerId entry) = false /\
        file_brokerId entry +:+ "_" +:+ file_callId entry = name) /\
     (forall file,
        has_char "_" (replace_first ".txt" "" file) = false ->
        forall entry, In entry found -> file_filename entry <> file)).
Proof.
  cbn zeta. split.
  - intros Hf Hd.
    unfold run, exec, getTranscriptFiles, fs_existsSync, console_log,
      print_line, put_world, mbind, M_bind, bind, mret, M_ret, get_world, ret.
    cbv beta iota. rewrite Hf, Hd. cbn. split; reflexivity.
  - intros Hf Hd. eexists. unfold run, exec.
    rewrite (getTranscriptFiles_listed _ _ _ Hf Hd). cbn [fst snd].
    split; [reflexivity|]. split; [reflexivity|].
    assert (Hentry : forall file entry,
              transcript_file_of transcriptsDir file = Some entry ->
              file_filename entry = file /\
              file_filepath entry = path_join transcriptsDir file /\
              has_char "_" (replace_first ".txt" "" file) = true /\
              has_char "_" (file_brokerId entry) = false /\
              file_brokerId entry +:+ "_" +:+ file_callId entry
              = replace_first ".txt" "" file).
    { intros file entry. unfold transcript_file_of.
      pose proof (join_split "_" (replace_first ".txt" "" file)) as Hj.
      destruct (split_on "_" (replace_first ".txt" "" file))
        as [|first [|second rest]] eqn:E; try discriminate.
      cbn [length Nat.leb hd tl]. intros [= <-].
      cbn [file_filename file_filepath file_brokerId file_callId].
      split; [reflexivity|]. split; [reflexivity|]. split.
      - destruct (has_char "_" (replace_first ".txt" "" file)) eqn:Hc;
          [reflexivity|].
        rewrite (split_on_none _ _ Hc) in E. discriminate E.
      - split; [apply (split_on_head _ _ _ _ E)|].
        rewrite join_cons in Hj by discriminate. exact Hj. }
    split.
    + intros entry Hin. apply In_defined, in_map_iff in Hin.
      destruct Hin as (file & Hfile & Hin). apply filter_In in Hin as [Hin He].
      destruct (Hentry _ _ Hfile) as (-> & Hp & _ & Hb & Hn).
      cbn zeta. repeat split; assumption.
    + intros file Hc entry Hin Heq. apply In_defined, in_map_iff in Hin.
      destruct Hin as (file' & Hfile & _).
      destruct (Hentry _ _ Hfile) as (E & _ & Hu & _). congruence.
Qed.

(** ** The audio URL log *)

Lemma split_on_join (c : ascii) (lines : list string) :
  lines <> [] ->
  forallb (fun s => negb (has_char c s)) lines = true ->
  split_on c (join (String c "") lines) = lines.
Proof.
  induction lines as [|x [|y l] IH]; [contradiction| |]; intros _ H.
  - cbn [forallb] in H. apply andb_true_iff in H as [H _].
    apply negb_true_iff in H. apply (split_on_none _ _ H).
  - cbn [forallb] in H, IH. apply andb_true_iff in H as [Hx H].
    apply negb_true_iff in Hx.
    change (join (String c "") (x :: y :: l))
      with (x +:+ String c (join (String c "") (y :: l))).
    rewrite (split_on_app c x _ Hx), IH; [reflexivity|discriminate|exact H].
Qed.

Lemma has_char_app (c : ascii) (a b : string) :
  has_char c (a +:+ b) = has_char c a || has_char c b.
Proof.
  induction a as [|x a IH]; [reflexivity|].
  cbn [String.append has_char]. rewrite IH. apply orb_assoc.
Qed.

(** A character of ASCII that is not white space occurs in no text of
    white space. *)
Lemma space1_other (c a : ascii) :
  space1 c = false -> space1 a = true -> Ascii.eqb a c = false.
Proof.
  intros Hc Ha. destruct (Ascii.eqb_spec a c) as [->|]; congruence.
Qed.

Lemma space2_other (c a b : ascii) :
  (char_code c <? 128) = true -> space2 a b = true ->
  Ascii.eqb a c = false /\ Ascii.eqb b c = false.
Proof.
  intros Hc H. unfold space2 in H. apply andb_true_iff in H as [Ha Hb].
  apply Z.eqb_eq in Ha, Hb. apply Z.ltb_lt in Hc.
  split; [destruct (Ascii.eqb_spec a c) as [->|]
         |destruct (Ascii.eqb_spec b c) as [->|]]; try reflexivity; lia.
Qed.

Lemma space3_high (a b c : ascii) :
  space3 a b c = true ->
  128 <= char_code a /\ 128 <= char_code b /\ 128 <= char_code c.
Proof.
  unfold space3. cbn zeta. intros H.
  repeat match type of H with
         | (_ || _) = true => apply orb_true_iff in H as [H|H]
         | (_ && _) = true =>
             let H1 := fresh "H" in apply andb_true_iff in H as [H H1]
         end;
  repeat match goal with
         | [ E : (_ =? _) = true |- _ ] => apply Z.eqb_eq in E
         | [ E : (_ <=? _) = true |- _ ] => apply Z.leb_le in E
         | [ E : (_ || _) = true |- _ ] => apply orb_true_iff in E as [E|E]
         | [ E : (_ && _) = true |- _ ] =>
             let H1 := fresh "H" in apply andb_true_iff in E as [E H1]
         end; lia.
Qed.

Lemma space3_other (x a b c : ascii) :
  (char_code x <? 128) = true -> space3 a b c = true ->
  Ascii.eqb a x = false /\ Ascii.eqb b x = false /\ Ascii.eqb c x = false.
Proof.
  intros Hx H. apply space3_high in H as (Ha & Hb & Hc).
  apply Z.ltb_lt in Hx.
  repeat split;
    match goal with
    | [ |- Ascii.eqb ?u ?v = false ] =>
        destruct (Ascii.eqb_spec u v) as [->|]; [lia|reflexivity]
    end.
Qed.

Lemma blank_text_no_char (c : ascii) (s : string) :
  space1 c = false -> (char_code c <? 128) = true ->
  blank_text s = true -> has_char c s = false.
Proof.
  intros Hc Hlow.
  assert (H : forall n s, (String.length s <= n)%nat ->
                blank_text s = true -> has_char c s = false).
  { clear s. induction n as [|n IH]; intros s Hn.
    - destruct s; [reflexivity|cbn in Hn; lia].
    - destruct s as [|a r]; [reflexivity|]. cbn [String.length] in Hn.
      cbn [blank_text has_char]. destruct (space1 a) eqn:Ha.
      + intros Hr. rewrite (space1_other c a Hc Ha).
        apply IH; [lia|exact Hr].
      + destruct r as [|b r1]; [discriminate|]. cbn [String.length] in Hn.
        destruct (space2 a b) eqn:Hab.
        * intros Hr. destruct (space2_other c a b Hlow Hab) as [-> Hb].
          cbn [has_char orb]. rewrite Hb. apply IH; [lia|exact Hr].
        * destruct r1 as [|d r2]; [discriminate|]. cbn [String.length] in Hn.
          intros Hr. apply andb_true_iff in Hr as [Habd Hr].
          destruct (space3_other c a b d Hlow Habd) as (-> & Hb & Hd).
          cbn [has_char orb]. rewrite Hb, Hd. apply IH; [lia|exact Hr]. }
  apply (H (String.length s)). lia.
Qed.

Lemma has_char_not_blank (c : ascii) (s : string) :
  space1 c = false -> (char_code c <? 128) = true ->
  has_char c s = true -> blank_text s = false.
Proof.
  intros Hc Hlow H. destruct (blank_text s) eqn:E; [|reflexivity].
  rewrite (blank_text_no_char c s Hc Hlow E) in H. discriminate H.
Qed.

Lemma drop_last_quote_snoc (u : string) :
  drop_last_quote (u +:+ String dquote "") = u.
Proof.
  induction u as [|a r IH]; [reflexivity|].
  cbn [String.append]. destruct r as [|b r1].
  - reflexivity.
  - cbn [String.append drop_last_quote] in IH |- *. rewrite IH. reflexivity.
Qed.

Lemma strip_quotes_quoted (u : string) :
  strip_quotes (String dquote (u +:+ String dquote "")) = u.
Proof. unfold strip_quotes. rewrite Ascii.eqb_refl. apply drop_last_quote_snoc. Qed.

Lemma csv_field_inv (s : string) :
  csv_field s = true ->
  has_char "," s = false /\ has_char (char_of_code 10) s = false.
Proof.
  unfold csv_field. intros H. apply andb_true_iff in H as [H1 H2].
  apply negb_true_iff in H1, H2. tauto.
Qed.

Lemma csv_mapping_inv (m : upload_mapping) :
  csv_mapping m = true ->
  (has_char "," (broker_id m) = false /\
   has_char "," (call_id m) = false /\
   has_char "," (file_url m) = false) /\
  has_char (char_of_code 10) (mapping_line m) = false /\
  is_empty (call_id m) = false.
Proof.
  unfold csv_mapping. intros H.
  apply andb_true_iff in H as [H He]. apply andb_true_iff in H as [H Hu].
  apply andb_true_iff in H as [Hb Hc].
  apply csv_field_inv in Hb as [Hb1 Hb2], Hc as [Hc1 Hc2], Hu as [Hu1 Hu2].
  apply negb_true_iff in He. repeat split; try assumption.
  unfold mapping_line.
  change (String dquote (file_url m +:+ String dquote ""))
    with (String dquote "" +:+ file_url m +:+ String dquote "").
  rewrite !has_char_app, Hb2, Hc2, Hu2. reflexivity.
Qed.

Lemma mapping_line_fields (m : upload_mapping) :
  has_char "," (broker_id m) = false ->
  has_char "," (call_id m) = false ->
  has_char "," (file_url m) = false ->
  split_on "," (mapping_line m)
  = [broker_id m; call_id m;
     String dquote (file_url m +:+ String dquote "")].
Proof.
  intros Hb Hc Hu. unfold mapping_line.
  change ("," +:+ call_id m +:+ ","
            +:+ String dquote (file_url m +:+ String dquote ""))
    with (String "," (call_id m +:+ String ","
            (String dquote (file_url m +:+ String dquote "")))).
  rewrite (split_on_app "," _ _ Hb), (split_on_app "," _ _ Hc).
  rewrite split_on_none; [reflexivity|].
  change (String dquote (file_url m +:+ String dquote ""))
    with (String dquote "" +:+ file_url m +:+ String dquote "").
  rewrite !has_char_app, Hu. reflexivity.
Qed.

Lemma mapping_line_not_blank (m : upload_mapping) :
  blank_text (mapping_line m) = false.
Proof.
  apply (has_char_not_blank ","); [reflexivity|reflexivity|].
  unfold mapping_line. rewrite !has_char_app. cbn [has_char].
  rewrite Ascii.eqb_refl. cbn. apply orb_true_r.
Qed.

Lemma audio_map_line_mapping (audioMap : obj string) (m : upload_mapping) :
  csv_mapping m = true ->
  audio_map_line audioMap (mapping_line m)
  = obj_set (call_id m) (file_url m) audioMap.
Proof.
  intros H. apply csv_mapping_inv in H as ((Hb & Hc & Hu) & _ & He).
  unfold audio_map_line. rewrite (mapping_line_fields m Hb Hc Hu).
  rewrite He. cbn [is_empty negb andb].
  rewrite strip_quotes_quoted. reflexivity.
Qed.

Lemma audio_map_lines (l : list upload_mapping) (audioMap : obj string) :
  forallb csv_mapping l = true ->
  fold_left audio_map_line (map mapping_line l) audioMap
  = fold_left (fun a m => obj_set (call_id m) (file_url m) a) l audioMap.
Proof.
  revert audioMap. induction l as [|m l IH]; intros audioMap H;
    [reflexivity|].
  cbn [forallb] in H. apply andb_true_iff in H as [Hm H].
  cbn [map fold_left]. rewrite (audio_map_line_mapping _ m Hm).
  apply IH, H.
Qed.

Lemma filter_mapping_lines (l : list upload_mapping) :
  List.filter (fun line => negb (blank_text line)) (map mapping_line l)
  = map mapping_line l.
Proof.
  induction l as [|m l IH]; [reflexivity|]. cbn [map List.filter].
  rewrite mapping_line_not_blank, IH. reflexivity.
Qed.

Lemma last_url_fold (callId : string) (l : list upload_mapping)
    (audioMap : obj string) :
  callId <> "__proto__" ->
  obj_get callId
    (fold_left (fun a m => obj_set (call_id m) (file_url m) a) l audioMap)
  = fold_left
      (fun url mapping =>
         if String.eqb (call_id mapping) callId then Some (file_url mapping)
         else url)
      l (obj_get callId audioMap).
Proof.
  intros Hc. revert audioMap. induction l as [|m l IH]; intros audioMap;
    [reflexivity|].
  cbn [fold_left]. rewrite IH. f_equal.
  destruct (String.eqb_spec (call_id m) callId) as [->|Hne].
  - apply obj_get_set_eq, Hc.
  - apply obj_get_set_ne. congruence.
Qed.

(** X13.  The analysis stage reads back the log the upload stage writes:
    for mappings whose fields hold neither a comma nor a line feed and
    whose call id is not empty, [loadAudioUrlMapping] builds from the
    written text the object that sets, in order, the URL of every
    mapping; a call then has the URL of its last mapping, and a call
    without mapping has none. *)
Theorem audio_log_round_trip (uploadMappings : list upload_mapping) :
  forallb csv_mapping uploadMappings = true ->
  audio_map_of (mapping_csv uploadMappings)
  = fold_left (fun audioMap mapping =>
                 obj_set (call_id mapping) (file_url mapping) audioMap)
      uploadMappings [] /\
  forall callId,
    callId <> "__proto__" ->
    obj_get callId (audio_map_of (mapping_csv uploadMappings))
    = last_url callId uploadMappings.
Proof.
  intros H.
  assert (E : audio_map_of (mapping_csv uploadMappings)
              = fold_left (fun a m => obj_set (call_id m) (file_url m) a)
                  uploadMappings []).
  { unfold audio_map_of, mapping_csv, newline.
    rewrite split_on_join; [|discriminate|].
    - cbn [List.filter]. 
      replace (blank_text "broker_id,call_id,file_url") with false
        by (vm_compute; reflexivity).
      cbn [negb tl]. rewrite filter_mapping_lines.
      apply audio_map_lines, H.
    - cbn [forallb]. apply andb_true_iff. split; [vm_compute; reflexivity|].
      clear - H. induction uploadMappings as [|m l IH]; [reflexivity|].
      cbn [forallb] in H. apply andb_true_iff in H as [Hm H].
      cbn [map forallb]. rewrite (IH H), andb_true_r.
      apply csv_mapping_inv in Hm as (_ & Hm & _). rewrite Hm. reflexivity. }
  split; [exact E|].
  intros callId Hc. rewrite E. apply (last_url_fold callId _ [] Hc).
Qed.

Lemma audio_log_round_trip_witness :
  obj_get "c2"
    (audio_map_of
       (mapping_csv
          [ {| broker_id := "101"; call_id := "c1";
               file_url := "https://files.example/a.wav" |};
            {| broker_id := "101"; call_id := "c2";
               file_url := "https://files.example/b.wav" |};
            {| broker_id := "102"; call_id := "c2";
               file_url := "https://files.example/c.wav" |} ]))
  = Some "https://files.example/c.wav".
Proof.
  refine (proj2 (audio_log_round_trip _ _) "c2" _);
    [vm_compute; reflexivity|discriminate].
Defined.

(** ** Code fences *)

Lemma skip_spaces_length (s : string) :
  (String.length (skip_spaces s) <= String.length s)%nat.
Proof.
  assert (H : forall n s, (String.length s <= n)%nat ->
                (String.length (skip_spaces s) <= String.length s)%nat).
  { clear s. induction n as [|n IH]; intros s Hn.
    - destruct s; [cbn; lia|cbn in Hn; lia].
    - destruct s as [|a r]; [cbn; lia|]. cbn [String.length] in Hn.
      cbn [skip_spaces]. destruct (space1 a).
      + specialize (IH r ltac:(lia)). cbn [String.length]. lia.
      + destruct r as [|b r1]; [lia|]. cbn [String.length] in Hn.
        destruct (space2 a b).
        * specialize (IH r1 ltac:(lia)). cbn [String.length]. lia.
        * destruct r1 as [|c r2]; [lia|]. cbn [String.length] in Hn.
          destruct (space3 a b c); [|lia].
          specialize (IH r2 ltac:(lia)). cbn [String.length]. lia. }
  apply (H (String.length s)). lia.
Qed.

Lemma skip_spaces_blank (w x : string) :
  blank_text w = true -> skip_spaces (w +:+ x) = skip_spaces x.
Proof.
  assert (H : forall n w, (String.length w <= n)%nat ->
                blank_text w = true -> skip_spaces (w +:+ x) = skip_spaces x).
  { clear w. induction n as [|n IH]; intros w Hn.
    - destruct w; [reflexivity|cbn in Hn; lia].
    - destruct w as [|a r]; [reflexivity|]. cbn [String.length] in Hn.
      cbn [blank_text String.append skip_spaces]. destruct (space1 a).
      + apply IH. lia.
      + destruct r as [|b r1]; [discriminate|]. cbn [String.length] in Hn.
        cbn [String.append]. destruct (space2 a b).
        * apply IH. lia.
        * destruct r1 as [|c r2]; [discriminate|]. cbn [String.length] in Hn.
          cbn [String.append]. intros Hr.
          apply andb_true_iff in Hr as [-> Hr]. apply IH; [lia|exact Hr]. }
  apply (H (String.length w)). lia.
Qed.

Lemma skip_spaces_plain (a : ascii) (y : string) :
  space1 a = false -> (char_code a <? 128) = true ->
  skip_spaces (String a y) = String a y.
Proof.
  intros Ha Hlow. cbn [skip_spaces]. rewrite Ha.
  destruct y as [|b r1]; [reflexivity|].
  destruct (space2 a b) eqn:Hab.
  { destruct (space2_other a a b Hlow Hab) as [E _].
    rewrite Ascii.eqb_refl in E. discriminate E. }
  destruct r1 as [|c r2]; [reflexivity|].
  destruct (space3 a b c) eqn:Habc; [|reflexivity].
  destruct (space3_other a a b c Hlow Habc) as [E _].
  rewrite Ascii.eqb_refl in E. discriminate E.
Qed.

Lemma strip_prefix_other (c0 a : ascii) (p' r : string) :
  Ascii.eqb a c0 = false -> strip_prefix (String c0 p') (String a r) = None.
Proof.
  intros H. cbn [strip_prefix]. rewrite Ascii.eqb_sym, H. reflexivity.
Qed.

Lemma strip_prefix_absent (c0 : ascii) (p' s : string) :
  has_char c0 s = false -> strip_prefix (String c0 p') s = None.
Proof.
  destruct s as [|a r]; [reflexivity|]. cbn [has_char]. intros H.
  apply orb_false_iff in H as [H _]. apply strip_prefix_other, H.
Qed.

Lemma includes_here (p s rest : string) :
  strip_prefix p s = Some rest -> includes p s = true.
Proof. intros H. destruct s; cbn [includes]; rewrite H; reflexivity. Qed.

Lemma includes_app_absent (c0 : ascii) (p' a x : string) :
  has_char c0 a = false ->
  includes (String c0 p') (a +:+ x) = includes (String c0 p') x.
Proof.
  induction a as [|y a IH]; [reflexivity|]. cbn [has_char]. intros H.
  apply orb_false_iff in H as [Hy Ha].
  cbn [String.append includes]. rewrite (strip_prefix_other _ _ _ _ Hy).
  apply IH, Ha.
Qed.

Lemma includes_absent (c0 : ascii) (p' s : string) :
  has_char c0 s = false -> includes (String c0 p') s = false.
Proof.
  intros H. rewrite <- (append_empty_r s).
  rewrite (includes_app_absent c0 p' s "" H). reflexivity.
Qed.

Lemma includes_longer (p q s : string) :
  includes (p +:+ q) s = true -> includes p s = true.
Proof.
  assert (Hp : forall s rest, strip_prefix (p +:+ q) s = Some rest ->
                 strip_prefix p s = Some (q +:+ rest)).
  { intros s0 rest H. apply strip_prefix_inv in H. subst s0.
    rewrite append_assoc. apply strip_prefix_app. }
  induction s as [|a r IH].
  - cbn [includes]. destruct (strip_prefix (p +:+ q) "") eqn:E;
      [|discriminate]. rewrite (Hp _ _ E). reflexivity.
  - cbn [includes]. destruct (strip_prefix (p +:+ q) (String a r)) eqn:E.
    + rewrite (Hp _ _ E). reflexivity.
    + intros H. rewrite (IH H). destruct (strip_prefix p (String a r));
        reflexivity.
Qed.

Lemma remove_all_absent (p s : string) (fuel : nat) :
  includes p s = false -> remove_all fuel p s = s.
Proof.
  revert s. induction fuel as [|f IH]; intros s H; [reflexivity|].
  cbn [remove_all]. destruct s as [|c r].
  - cbn [includes] in H. destruct (strip_prefix p ""); [discriminate|].
    reflexivity.
  - apply includes_cons in H as [-> Hr]. rewrite (IH r Hr). reflexivity.
Qed.

Lemma remove_all_app (c0 : ascii) (p' a x : string) (fuel : nat) :
  has_char c0 a = false ->
  remove_all (String.length a + fuel) (String c0 p') (a +:+ x)
  = a +:+ remove_all fuel (String c0 p') x.
Proof.
  induction a as [|y a IH]; [reflexivity|]. cbn [has_char]. intros H.
  apply orb_false_iff in H as [Hy Ha].
  cbn [String.length Nat.add String.append remove_all].
  rewrite (strip_prefix_other _ _ _ _ Hy), (IH Ha). reflexivity.
Qed.

Lemma remove_all_match (fuel : nat) (p s rest : string) :
  strip_prefix p s = Some rest ->
  remove_all (S fuel) p s = remove_all fuel p (skip_spaces rest).
Proof. intros H. cbn [remove_all]. rewrite H. reflexivity. Qed.

Lemma remove_all_empty (p : string) (c0 : ascii) (fuel : nat) :
  remove_all fuel (String c0 p) "" = "".
Proof. destruct fuel; reflexivity. Qed.

Lemma cut_trailing_app (c0 : ascii) (p' a x : string) :
  has_char c0 a = false ->
  cut_trailing (String c0 p') (a +:+ x)
  = a +:+ cut_trailing (String c0 p') x.
Proof.
  induction a as [|y a IH]; [reflexivity|]. cbn [has_char]. intros H.
  apply orb_false_iff in H as [Hy Ha].
  cbn [String.append cut_trailing].
  rewrite (strip_prefix_other _ _ _ _ Hy), (IH Ha). reflexivity.
Qed.

(** The length of the text is fuel enough: more changes nothing. *)
Lemma remove_all_fuel (c0 : ascii) (p' : string) (fuel fuel' : nat)
    (s : string) :
  (String.length s <= fuel)%nat -> (String.length s <= fuel')%nat ->
  remove_all fuel (String c0 p') s = remove_all fuel' (String c0 p') s.
Proof.
  revert fuel' s. induction fuel as [|f IH]; intros fuel' s Hf Hf'.
  - destruct s; [|cbn in Hf; lia]. rewrite !remove_all_empty. reflexivity.
  - destruct fuel' as [|f'].
    { destruct s; [|cbn in Hf'; lia]. rewrite !remove_all_empty.
      reflexivity. }
    cbn [remove_all].
    destruct (strip_prefix (String c0 p') s) as [rest|] eqn:E.
    + apply strip_prefix_inv in E. subst s.
      rewrite length_append in Hf, Hf'. cbn [String.length] in Hf, Hf'.
      pose proof (skip_spaces_length rest). apply IH; lia.
    + destruct s as [|c r]; [reflexivity|]. cbn [String.length] in Hf, Hf'.
      f_equal. apply IH; lia.
Qed.

Lemma remove_all_head (fuel : nat) (s o : string) (c : ascii) :
  strip_prefix fence s = None ->
  remove_all (S fuel) fence s = String c o ->
  exists r, s = String c r /\ o = remove_all fuel fence r.
Proof.
  intros H. cbn [remove_all]. rewrite H.
  destruct s as [|a r]; [discriminate|].
  intros [= -> <-]. exists r. split; reflexivity.
Qed.

(** Removing the fences leaves none: the characters that come together
    when a fence goes are not a fence either. *)
Lemma remove_all_fence (fuel : nat) (s : string) :
  (String.length s <= fuel)%nat ->
  includes fence (remove_all fuel fence s) = false.
Proof.
  revert s. induction fuel as [|f IH]; intros s Hl.
  - destruct s; [reflexivity|cbn in Hl; lia].
  - cbn [remove_all]. destruct (strip_prefix fence s) as [rest|] eqn:E.
    + apply IH. apply strip_prefix_inv in E. subst s.
      rewrite length_append in Hl. cbn in Hl.
      pose proof (skip_spaces_length rest). lia.
    + destruct s as [|c r]; [reflexivity|]. cbn [String.length] in Hl.
      cbn [includes].
      destruct (strip_prefix fence (String c (remove_all f fence r)))
        as [s0|] eqn:E2; [exfalso|apply IH; lia].
      apply strip_prefix_inv in E2. cbn in E2. injection E2 as -> E2.
      destruct f as [|f1]; [destruct r; [discriminate E2|cbn in Hl; lia]|].
      destruct (strip_prefix fence r) as [r'|] eqn:Er.
      { apply strip_prefix_inv in Er. subst r. discriminate E. }
      destruct (remove_all_head _ _ _ _ Er E2) as (r1 & -> & E3).
      cbn [String.length] in Hl.
      destruct f1 as [|f2]; [destruct r1; [discriminate E3|cbn in Hl; lia]|].
      destruct (strip_prefix fence r1) as [r'|] eqn:Er1.
      { apply strip_prefix_inv in Er1. subst r1. discriminate Er. }
      symmetry in E3.
      destruct (remove_all_head _ _ _ _ Er1 E3) as (r2 & -> & _).
      discriminate E.
Qed.

(** X14.  What [analyzeTranscript] passes to [JSON.parse] holds no code
    fence, whatever the reply; and a reply without fence is passed as it
    is. *)
Theorem strip_code_fences_leaves_none (analysisText : string) :
  includes fence (strip_code_fences analysisText) = false /\
  (includes fence analysisText = false ->
   strip_code_fences analysisText = analysisText).
Proof.
  split.
  - unfold strip_code_fences.
    set (text := if includes "```json" analysisText then _ else _).
    destruct (includes fence text) eqn:E; [|exact E].
    apply remove_all_fence. lia.
  - intros H. unfold strip_code_fences.
    destruct (includes "```json" analysisText) eqn:E.
    + apply (includes_longer fence "json") in E. congruence.
    + rewrite H. reflexivity.
Qed.

Lemma strip_prefix_same (c : ascii) (p r : string) :
  strip_prefix (String c p) (String c r) = strip_prefix p r.
Proof. cbn [strip_prefix]. rewrite Ascii.eqb_refl. reflexivity. Qed.

Lemma includes_step (p : string) (a : ascii) (r : string) :
  includes p (String a r)
  = match strip_prefix p (String a r) with
    | Some _ => true
    | None => includes p r
    end.
Proof. reflexivity. Qed.

Lemma cut_trailing_here (c : ascii) (p' rest : string) :
  blank_text rest = true ->
  cut_trailing (String c p') (String c p' +:+ rest) = "".
Proof.
  intros H. cbn [String.append cut_trailing].
  change (String c (p' +:+ rest)) with (String c p' +:+ rest).
  rewrite strip_prefix_app, H. reflexivity.
Qed.

(** No tagged fence starts in a fence that white space follows. *)
Lemma tagged_fence_absent (tail : string) :
  strip_prefix "json" tail = None ->
  (forall p', strip_prefix (String "`" p') tail = None) ->
  includes "```json" (fence +:+ tail) = includes "```json" tail.
Proof.
  intros Hj Hq. unfold fence.
  change ("```" +:+ tail) with (String "`" (String "`" (String "`" tail))).
  rewrite includes_step, !strip_prefix_same, Hj.
  rewrite includes_step, !strip_prefix_same, Hq.
  rewrite includes_step, !strip_prefix_same, Hq. reflexivity.
Qed.

Lemma fence_after_blank (w : string) :
  blank_text w = true -> includes "```json" (fence +:+ w) = false.
Proof.
  intros Hw.
  pose proof (blank_text_no_char "`" w eq_refl eq_refl Hw) as Hq.
  pose proof (blank_text_no_char "j" w eq_refl eq_refl Hw) as Hj.
  rewrite tagged_fence_absent.
  - apply includes_absent, Hq.
  - apply strip_prefix_absent, Hj.
  - intros p'. apply strip_prefix_absent, Hq.
Qed.

(** X15.  A reply that is one JSON object in a code fence, with or
    without the [json] tag, is unwrapped: the text passed to
    [JSON.parse] is the object, when it holds no backquote.  White space
    may follow the opening and the closing fence. *)
Theorem fenced_reply_unwrapped (w1 inner w2 : string) :
  blank_text w1 = true ->
  blank_text w2 = true ->
  has_char "`" inner = false ->
  let body := String "{" inner in
  strip_code_fences ("```json" +:+ w1 +:+ body +:+ fence +:+ w2) = body /\
  strip_code_fences (fence +:+ w1 +:+ body +:+ fence +:+ w2) = body.
Proof.
  intros H1 H2 Hin body.
  assert (Hbody : has_char "`" body = false) by exact Hin.
  assert (Hskip : skip_spaces (w1 +:+ body +:+ fence +:+ w2)
                  = body +:+ fence +:+ w2).
  { rewrite (skip_spaces_blank _ _ H1).
    apply skip_spaces_plain; reflexivity. }
  assert (Hnone : includes "```json" (body +:+ fence +:+ w2) = false).
  { rewrite (includes_app_absent "`" "``json" body _ Hbody).
    apply fence_after_blank, H2. }
  pose proof (blank_text_no_char "`" w1 eq_refl eq_refl H1) as Hq1.
  pose proof (blank_text_no_char "`" w2 eq_refl eq_refl H2) as Hq2.
  split.
  - unfold strip_code_fences.
    rewrite (includes_here "```json" _ _ (strip_prefix_app "```json" _)).
    set (tail := w1 +:+ body +:+ fence +:+ w2) in *.
    change (String.length ("```json" +:+ tail))
      with (S (String.length ("``json" +:+ tail))).
    rewrite (remove_all_match _ _ _ _ (strip_prefix_app "```json" tail)).
    rewrite Hskip.
    rewrite (remove_all_absent _ _ _ Hnone).
    rewrite (cut_trailing_app "`" "``" body _ Hbody).
    replace (cut_trailing "```" (fence +:+ w2)) with ""
      by (symmetry; apply (cut_trailing_here "`" "``" w2 H2)).
    rewrite !append_empty_r. unfold fence.
    rewrite (includes_absent "`" "``" body Hbody).
    reflexivity.
  - unfold strip_code_fences.
    set (tail := w1 +:+ body +:+ fence +:+ w2) in *.
    assert (Hjson : includes "```json" (fence +:+ tail) = false).
    { assert (Hhead : forall c0 p',
                space1 c0 = false -> (char_code c0 <? 128) = true ->
                Ascii.eqb "{" c0 = false ->
                strip_prefix (String c0 p') tail = None).
      { intros c0 p' Hc Hlow Hb. unfold tail.
        pose proof (blank_text_no_char c0 w1 Hc Hlow H1) as Hw.
        destruct w1 as [|a r].
        - apply strip_prefix_other, Hb.
        - cbn [has_char] in Hw. apply orb_false_iff in Hw as [Hw _].
          cbn [String.append]. apply strip_prefix_other, Hw. }
      assert (Hj : strip_prefix "json" tail = None)
        by (apply Hhead; reflexivity).
      assert (Hq : forall p', strip_prefix (String "`" p') tail = None)
        by (intros p'; apply Hhead; reflexivity).
      rewrite (tagged_fence_absent tail Hj Hq). unfold tail.
      rewrite (includes_app_absent "`" "``json" w1 _ Hq1). exact Hnone. }
    rewrite Hjson.
    rewrite (includes_here fence _ _ (strip_prefix_app fence tail)).
    change (String.length (fence +:+ tail))
      with (S (S (S (String.length tail)))).
    rewrite (remove_all_match _ _ _ _ (strip_prefix_app fence tail)).
    rewrite Hskip.
    replace (S (S (String.length tail)))
      with (String.length body
            + S (S (S (S (S (String.length w1 + String.length w2))))))%nat
      by (unfold tail; rewrite !length_append; cbn [fence String.length]; lia).
    unfold fence. rewrite (remove_all_app "`" "``" body _ _ Hbody).
    rewrite (remove_all_match _ _ _ _ (strip_prefix_app "```" w2)).
    replace (skip_spaces w2) with ""
      by (rewrite <- (append_empty_r w2);
          symmetry; apply (skip_spaces_blank w2 "" H2)).
    rewrite (remove_all_empty "``" "`"). apply append_empty_r.
Qed.

Lemma fenced_reply_unwrapped_witness :
  strip_code_fences
    ("```json" +:+ newline +:+ "{" +:+ "}" +:+ fence +:+ newline)
  = "{}".
Proof.
  refine (proj1 (fenced_reply_unwrapped newline "}" newline _ _ _));
    reflexivity.
Defined.

(** ** From audio files to transcripts *)

(** X16.  The transcription stage names the transcript after the audio
    file: for every audio file it collects, the name of the transcript
    is the name of the audio file with its first [.wav] removed and
    [.txt] added.  Where that name holds [.txt] at its end only, the
    analysis stage reads from it the broker id and the call id the
    transcription stage read from the audio file. *)
Theorem transcript_of_audio_file (audioDir transcriptsDir : string)
    (files : list string) (audio : audio_file) :
  In audio (audioFiles audioDir files) ->
  let file := audio_filename audio in
  let name := transcript_name (audio_brokerId audio) (audio_callId audio) in
  In file files /\
  name = replace_first ".wav" "" file +:+ ".txt" /\
  (includes ".txt" (replace_first ".wav" "" file) = false ->
   transcript_file_of transcriptsDir name
   = Some {| file_filepath := path_join transcriptsDir name;
             file_filename := name;
             file_brokerId := audio_brokerId audio;
             file_callId := audio_callId audio |}).
Proof.
  unfold audioFiles. intros Hin. apply In_defined, in_map_iff in Hin.
  destruct Hin as (file & Hfile & Hin). revert Hfile.
  unfold audio_file_of. destruct (endsWith ".wav" file); [|discriminate].
  pose proof (join_split "_" (replace_first ".wav" "" file)) as Hj.
  destruct (split_on "_" (replace_first ".wav" "" file))
    as [|first [|second rest]] eqn:E; try discriminate.
  cbn [length Nat.leb hd tl]. intros [= <-].
  cbn [audio_brokerId audio_callId audio_filename]. cbn zeta.
  rewrite join_cons in Hj by discriminate.
  assert (Hname : transcript_name first (join "_" (second :: rest))
                  = replace_first ".wav" "" file +:+ ".txt").
  { unfold transcript_name. rewrite <- Hj at 1.
    rewrite !append_assoc. reflexivity. }
  split; [exact Hin|]. split; [exact Hname|]. intros Hx.
  apply transcript_file_of_name.
  - apply (split_on_head _ _ _ _ E).
  - rewrite <- Hj in Hx. exact Hx.
Qed.

Lemma transcript_of_audio_file_witness :
  transcript_name "101" "ab12_cd34" = "101_ab12_cd34.txt" /\
  transcript_file_of "/data/output/transcripts" "101_ab12_cd34.txt"
  = Some {| file_filepath := "/data/output/transcripts/101_ab12_cd34.txt";
            file_filename := "101_ab12_cd34.txt";
            file_brokerId := "101";
            file_callId := "ab12_cd34" |}.
Proof.
  assert (H := transcript_of_audio_file "/data/output/audio"
                 "/data/output/transcripts"
                 ["cover.png"; "101_ab12_cd34.wav"]
                 {| audio_filePath := "/data/output/audio/101_ab12_cd34.wav";
                    audio_brokerId := "101";
                    audio_callId := "ab12_cd34";
                    audio_filename := "101_ab12_cd34.wav" |}
                 (or_introl eq_refl)).
  split; [exact (proj1 (proj2 H))|apply (proj2 (proj2 H)); reflexivity].
Defined.

(** ** The broker id of an upload *)

Lemma digit_facts (c : ascii) :
  is_digit c = true ->
  space1 c = false /\ (char_code c <? 128) = true /\ is_sign c = false /\
  Ascii.eqb c "-" = false /\ Ascii.eqb "I" c = false /\
  Ascii.eqb c "." = false.
Proof.
  destruct c as [[] [] [] [] [] [] [] []]; intros H;
    try discriminate H; repeat split; reflexivity.
Qed.

Lemma parse_digits_rest (s : string) (a : Z) :
  snd (parse_digits a s) = skip_digits s.
Proof.
  revert a. induction s as [|c r IH]; intros a; [reflexivity|].
  cbn [parse_digits skip_digits]. destruct (is_digit c); [apply IH|reflexivity].
Qed.

Lemma digits_value_parse (s : string) (a n : Z) :
  digits_value a s = Some n -> parse_digits a s = (n, "").
Proof.
  revert a. induction s as [|c r IH]; intros a; cbn [digits_value parse_digits].
  - intros [= <-]. reflexivity.
  - destruct (is_digit c); [apply IH|discriminate].
Qed.

Lemma take_digits_value (s : string) (a : Z) :
  exists n, digits_value a (take_digits s) = Some n.
Proof.
  revert a. induction s as [|c r IH]; intros a; [exists a; reflexivity|].
  cbn [take_digits]. destruct (is_digit c) eqn:Hc; [|exists a; reflexivity].
  cbn [digits_value]. rewrite Hc. apply IH.
Qed.

Lemma first_digits_start (s digits : string) :
  first_digits s = Some digits -> starts_with is_digit digits = true.
Proof.
  induction s as [|c r IH]; [discriminate|]. cbn [first_digits].
  destruct (is_digit c) eqn:Hc; [|exact IH].
  intros [= <-]. cbn [take_digits]. rewrite Hc. exact Hc.
Qed.

Lemma first_digits_value (s digits : string) :
  first_digits s = Some digits -> exists n, digits_value 0 digits = Some n.
Proof.
  induction s as [|c r IH]; [discriminate|]. cbn [first_digits].
  destruct (is_digit c) eqn:Hc; [|exact IH].
  intros [= <-]. exact (take_digits_value (String c r) 0).
Qed.

Lemma first_digits_none_start (s : string) :
  first_digits s = None -> starts_with is_digit s = false.
Proof.
  destruct s as [|c r]; [reflexivity|]. cbn [first_digits starts_with].
  destruct (is_digit c); [discriminate|reflexivity].
Qed.

Lemma first_digits_app (a b : string) :
  first_digits (a +:+ b) = None -> first_digits b = None.
Proof.
  induction a as [|c r IH]; [tauto|]. cbn [String.append first_digits].
  destruct (is_digit c); [discriminate|exact IH].
Qed.

Lemma includes_app_r (p a b : string) :
  includes p b = true -> includes p (a +:+ b) = true.
Proof.
  intros H. induction a as [|c r IH]; [exact H|].
  cbn [String.append includes]. rewrite IH.
  destruct (strip_prefix p (String c (r +:+ b))); reflexivity.
Qed.

Lemma skip_spaces_suffix (s : string) :
  exists pre, s = pre +:+ skip_spaces s.
Proof.
  assert (H : forall n s, (String.length s <= n)%nat ->
                exists pre, s = pre +:+ skip_spaces s).
  { clear s. induction n as [|n IH]; intros s Hn.
    - destruct s; [exists ""; reflexivity|cbn in Hn; lia].
    - destruct s as [|a r]; [exists ""; reflexivity|].
      cbn [String.length] in Hn. cbn [skip_spaces]. destruct (space1 a).
      + destruct (IH r ltac:(lia)) as [pre E]. exists (String a pre).
        cbn [String.append]. rewrite <- E. reflexivity.
      + destruct r as [|b r1]; [exists ""; reflexivity|].
        cbn [String.length] in Hn. destruct (space2 a b).
        * destruct (IH r1 ltac:(lia)) as [pre E].
          exists (String a (String b pre)).
          cbn [String.append]. rewrite <- E. reflexivity.
        * destruct r1 as [|c r2]; [exists ""; reflexivity|].
          cbn [String.length] in Hn.
          destruct (space3 a b c); [|exists ""; reflexivity].
          destruct (IH r2 ltac:(lia)) as [pre E].
          exists (String a (String b (String c pre))).
          cbn [String.append]. rewrite <- E. reflexivity. }
  apply (H (String.length s)). lia.
Qed.

Lemma skip_spaces_empty (s : string) :
  skip_spaces s = "" -> blank_text s = true.
Proof.
  assert (H : forall n s, (String.length s <= n)%nat ->
                skip_spaces s = "" -> blank_text s = true).
  { clear s. induction n as [|n IH]; intros s Hn.
    - destruct s; [reflexivity|cbn in Hn; lia].
    - destruct s as [|a r]; [reflexivity|].
      cbn [String.length] in Hn. cbn [skip_spaces blank_text].
      destruct (space1 a); [apply IH; lia|].
      destruct r as [|b r1]; [discriminate|].
      cbn [String.length] in Hn. destruct (space2 a b); [apply IH; lia|].
      destruct r1 as [|c r2]; [discriminate|].
      cbn [String.length] in Hn. destruct (space3 a b c); [|discriminate].
      cbn [andb]. apply IH. lia. }
  apply (H (String.length s)). lia.
Qed.

Lemma skip_sign_suffix (s : string) :
  exists pre, s = pre +:+ skip_sign s.
Proof.
  destruct s as [|c r]; [exists ""; reflexivity|]. cbn [skip_sign].
  destruct (is_sign c); [exists (String c "")|exists ""]; reflexivity.
Qed.

(** A string without digit that is not white space and does not hold
    [Infinity] is no numeric literal. *)
Lemma numeric_string_needs_digit (s : string) :
  first_digits s = None -> blank_text s = false ->
  includes "Infinity" s = false -> numeric_string s = false.
Proof.
  intros Hd Hb Hi. unfold numeric_string.
  destruct (skip_spaces_suffix s) as [pre Es].
  set (t := skip_spaces s) in *.
  assert (Hdt : first_digits t = None)
    by (apply (first_digits_app pre); rewrite <- Es; exact Hd).
  assert (Hit : includes "Infinity" t = false).
  { destruct (includes "Infinity" t) eqn:E; [|reflexivity].
    rewrite Es, (includes_app_r _ pre t E) in Hi. discriminate Hi. }
  assert (Ht : is_empty t = false).
  { destruct t eqn:E; [|reflexivity].
    rewrite (skip_spaces_empty s E) in Hb. discriminate Hb. }
  assert (Hr : radix_literal t = None).
  { destruct t as [|z [|x r]]; try reflexivity. cbn [radix_literal].
    destruct (Ascii.eqb_spec z "0") as [->|]; [discriminate Hdt|reflexivity]. }
  destruct (skip_sign_suffix t) as [pre' Et].
  set (u := skip_sign t) in *.
  assert (Hdu : first_digits u = None)
    by (apply (first_digits_app pre'); rewrite <- Et; exact Hdt).
  assert (Hu : unsigned_decimal u = None).
  { unfold unsigned_decimal.
    destruct (strip_prefix "Infinity" u) as [rest|] eqn:E.
    { rewrite Et, (includes_app_r _ pre' u (includes_here _ _ _ E)) in Hit.
      discriminate Hit. }
    rewrite (first_digits_none_start u Hdu).
    destruct u as [|c r]; [reflexivity|].
    cbn [first_digits] in Hdu. destruct (is_digit c); [discriminate|].
    rewrite (first_digits_none_start r Hdu), andb_false_r. reflexivity. }
  rewrite Ht, Hr, Hu. reflexivity.
Qed.

Lemma numericBrokerId_string (s : string) (metadata analysis : value) :
  s <> "" ->
  numericBrokerId (VStr s) metadata analysis
  = Some (if numeric_string s then parseInt s
          else match first_digits s with
               | Some digits => parseInt digits
               | None => BrokerNull
               end).
Proof.
  intros Hs. unfold numericBrokerId, or_else. cbn [truthy].
  destruct s as [|c r]; [contradiction|]. cbn [is_empty negb is_numeric_text].
  destruct (numeric_string (String c r)); [reflexivity|].
  cbn [String_of]. destruct (first_digits (String c r)); reflexivity.
Qed.

Lemma parseInt_digits (s : string) (n : Z) :
  starts_with is_digit s = true -> digits_value 0 s = Some n ->
  parseInt s = BrokerNumber n.
Proof.
  intros Hs Hn. destruct s as [|c r]; [discriminate|]. cbn [starts_with] in Hs.
  destruct (digit_facts c Hs) as (Hsp & Hlow & Hsign & Hminus & _).
  unfold parseInt. rewrite (skip_spaces_plain c r Hsp Hlow).
  cbn [skip_sign]. rewrite Hsign, Hminus. cbn [starts_with]. rewrite Hs.
  rewrite (digits_value_parse _ _ _ Hn). reflexivity.
Qed.

(** X17.  A broker id with a number in it: a string of digits gives the
    number it denotes, whatever the metadata and the analysis hold; a
    string that is no numeric literal gives the number of its first run
    of digits.  The numbers are below 2^53, where a double is exact. *)
Theorem numericBrokerId_number (brokerId : string)
    (metadata analysis : value) :
  (forall n,
     brokerId <> "" -> digits_value 0 brokerId = Some n -> n < 2 ^ 53 ->
     numericBrokerId (VStr brokerId) metadata analysis
     = Some (BrokerNumber n)) /\
  (forall digits,
     numeric_string brokerId = false ->
     first_digits brokerId = Some digits ->
     exists n,
       digits_value 0 digits = Some n /\
       (n < 2 ^ 53 ->
        numericBrokerId (VStr brokerId) metadata analysis
        = Some (BrokerNumber n))).
Proof.
  split.
  - intros n Hs Hn _. rewrite (numericBrokerId_string _ _ _ Hs).
    destruct brokerId as [|c r]; [contradiction|].
    assert (Hc : is_digit c = true).
    { cbn [digits_value] in Hn. destruct (is_digit c); [reflexivity|].
      discriminate Hn. }
    destruct (digit_facts c Hc) as (Hsp & Hlow & Hsign & _ & HI & _).
    assert (Hnum : numeric_string (String c r) = true).
    { unfold numeric_string. rewrite (skip_spaces_plain c r Hsp Hlow).
      cbn [skip_sign]. rewrite Hsign. unfold unsigned_decimal.
      cbn [strip_prefix]. rewrite HI. cbn [starts_with]. rewrite Hc.
      rewrite <- (parse_digits_rest _ 0), (digits_value_parse _ _ _ Hn).
      cbn [snd ends_blank blank_text]. apply orb_true_r. }
    rewrite Hnum. f_equal. apply parseInt_digits; [exact Hc|exact Hn].
  - intros digits Hnum Hd.
    assert (Hs : brokerId <> "") by (intros ->; discriminate Hd).
    rewrite (numericBrokerId_string _ _ _ Hs), Hnum, Hd.
    destruct (first_digits_value _ _ Hd) as [n Hn].
    exists n. split; [exact Hn|]. intros _.
    f_equal. apply parseInt_digits; [apply (first_digits_start _ _ Hd)|exact Hn].
Qed.

(** X18.  A broker id without number: a string of white space gives NaN,
    which is not the null that the warning is printed for; a string
    without digit that is not white space and does not hold [Infinity]
    gives null. *)
Theorem numericBrokerId_no_number (brokerId : string)
    (metadata analysis : value) :
  (brokerId <> "" -> blank_text brokerId = true ->
   numericBrokerId (VStr brokerId) metadata analysis = Some BrokerNaN) /\
  (first_digits brokerId = None -> blank_text brokerId = false ->
   includes "Infinity" brokerId = false ->
   numericBrokerId (VStr brokerId) metadata analysis = Some BrokerNull).
Proof.
  split.
  - intros Hs Hb. rewrite (numericBrokerId_string _ _ _ Hs).
    assert (Ht : skip_spaces brokerId = "").
    { rewrite <- (append_empty_r brokerId).
      apply (skip_spaces_blank brokerId "" Hb). }
    unfold numeric_string, parseInt. rewrite Ht. reflexivity.
  - intros Hd Hb Hi.
    assert (Hs : brokerId <> "") by (intros ->; discriminate Hb).
    rewrite (numericBrokerId_string _ _ _ Hs).
    rewrite (numeric_string_needs_digit _ Hd Hb Hi), Hd. reflexivity.
Qed.

(** ** The status report *)

(** X19.  The status report before anything is extracted or downloaded:
    the audio download row divides by the number of extracted calls
    without a guard and reads [0/0 (NaN%)], where the rows of the later
    stages, which are guarded, read [0%] and the completion rate is
    [0%]; extraction is pending and the next action is to run the
    pipeline. *)
Theorem status_before_extraction (d : document) :
  total_calls_extracted (get_call_ids (stages d)) = 0 ->
  total_downloaded (download_audio (stages d)) = 0 ->
  let st := getProcessingStats d in
  let rows := stage_progress st in
  completion_rate st = "0%" /\
  progress_call_id_extraction rows = "⚠️ Pending" /\
  progress_audio_download rows = "0/0 (NaN%)" /\
  progress_transcription rows
  = decimal (stats_transcribed st) +:+ "/0 (0%)" /\
  progress_audio_upload rows
  = decimal (stats_uploaded_to_bubble st) +:+ "/0 (0%)" /\
  next_actions st
  = ["  • Run pipeline to extract call IDs for your date range"].
Proof.
  intros He Hd st rows. subst rows st.
  unfold stage_progress, next_actions, getProcessingStats, progress_row.
  cbn [completion_rate stats_total_calls_extracted stats_audio_downloaded
       stats_transcribed stats_uploaded_to_bubble stats_analyzed
       progress_call_id_extraction progress_audio_download
       progress_transcription progress_audio_upload].
  rewrite He, Hd.
  replace (percent 0 0) with "NaN" by (vm_compute; reflexivity).
  repeat split; reflexivity.
Qed.

Lemma status_before_extraction_witness :
  progress_audio_download
    (stage_progress
       (getProcessingStats
          (default_state "2024-01-01T00:00:00.000Z"
             "2024-01-01T00:00:00.001Z")))
  = "0/0 (NaN%)".
Proof.
  refine (proj1 (proj2 (proj2 (status_before_extraction
            (default_state "2024-01-01T00:00:00.000Z"
               "2024-01-01T00:00:00.001Z") _ _))));
    reflexivity.
Defined.

(** ** From downloads to audio files *)

Lemma split_on_two (c : ascii) (s : string) :
  has_char c s = true -> (2 <=? length (split_on c s))%nat = true.
Proof.
  intros H. destruct (split_on c s) as [|first [|second rest]] eqn:E.
  - destruct (split_on_nonempty _ _ E).
  - rewrite (split_on_single _ _ _ E) in H. discriminate H.
  - reflexivity.
Qed.

(** X20.  The transcription stage reads back the names the download
    stage writes.  An audio file named [`${brokerId}_${callId}.wav`],
    with [.wav] at its end only, is collected; broker id, underscore
    and call id read from it make up the same text.  The two ids are
    the ones in the name when the broker id holds no underscore;
    otherwise the broker id that is read is not the one in the name. *)
Theorem download_name_read_back (audioDir brokerId callId : string)
    (files : list string) :
  let file := brokerId +:+ "_" +:+ callId +:+ ".wav" in
  includes ".wav" (brokerId +:+ "_" +:+ callId) = false ->
  In file files ->
  exists audio,
    In audio (audioFiles audioDir files) /\
    audio_filename audio = file /\
    audio_brokerId audio +:+ "_" +:+ audio_callId audio
    = brokerId +:+ "_" +:+ callId /\
    (has_char "_" brokerId = false ->
     audio_brokerId audio = brokerId /\ audio_callId audio = callId) /\
    (has_char "_" brokerId = true -> audio_brokerId audio <> brokerId).
Proof.
  intros file Hx Hin. subst file.
  set (name := brokerId +:+ "_" +:+ callId) in *.
  assert (Hfile : brokerId +:+ "_" +:+ callId +:+ ".wav" = name +:+ ".wav")
    by (unfold name; rewrite !append_assoc; reflexivity).
  rewrite Hfile in *.
  assert (Hu : has_char "_" name = true).
  { unfold name. rewrite !has_char_app. cbn [has_char].
    rewrite Ascii.eqb_refl. cbn. apply orb_true_r. }
  pose proof (join_split "_" name) as Hj.
  pose proof (split_on_two "_" name Hu) as Hlen.
  destruct (split_on "_" name) as [|first [|second rest]] eqn:E;
    try discriminate Hlen.
  rewrite join_cons in Hj by discriminate.
  exists {| audio_filePath := path_join audioDir (name +:+ ".wav");
            audio_brokerId := first;
            audio_callId := join "_" (second :: rest);
            audio_filename := name +:+ ".wav" |}.
  cbn [audio_filename audio_brokerId audio_callId].
  split; [|split; [reflexivity|split; [exact Hj|split]]].
  - unfold audioFiles. apply In_defined, in_map_iff.
    exists (name +:+ ".wav"). split; [|exact Hin].
    unfold audio_file_of. rewrite endsWith_app.
    rewrite (replace_first_suffix "." "w" "a" "v" _ eq_refl eq_refl eq_refl Hx).
    rewrite E. reflexivity.
  - intros Hb. unfold name in E.
    change ("_" +:+ callId) with (String "_" callId) in E.
    rewrite (split_on_app "_" brokerId callId Hb) in E.
    injection E as <- E. split; [reflexivity|].
    rewrite <- E. apply (join_split "_" callId).
  - intros Hb ->. rewrite (split_on_head _ _ _ _ E) in Hb. discriminate Hb.
Qed.

Lemma download_name_read_back_witness :
  exists audio,
    In audio (audioFiles "/data/output/audio"
                ["101_ab12_cd34.wav"; "cover.png"]) /\
    audio_filename audio = "101_ab12_cd34.wav" /\
    audio_brokerId audio +:+ "_" +:+ audio_callId audio = "101_ab12_cd34" /\
    (has_char "_" "101" = false ->
     audio_brokerId audio = "101" /\ audio_callId audio = "ab12_cd34") /\
    (has_char "_" "101" = true -> audio_brokerId audio <> "101").
Proof.
  apply (download_name_read_back "/data/output/audio" "101" "ab12_cd34"
           ["101_ab12_cd34.wav"; "cover.png"]).
  - reflexivity.
  - left. reflexivity.
Defined.

(** ** Archiving: the result and the record *)


Lemma store_at_paths (base : string) (s : Sys) :
  store_at base s = true ->
  stateFile (this s) = state_file_path base /\
  archiveDir (this s) = path_join base "archive".
Proof.
  unfold store_at. intros H.
  repeat match type of H with
         | (_ && _) = true =>
             let H' := fresh "H" in apply andb_true_iff in H as [H H']
         end.
  split; apply String.eqb_eq; assumption.
Qed.



(** ** Loading a state file that is not JSON *)

Lemma loadState_corrupt (s : Sys) (text : string) :
  disk (world s) !! stateFile (this s) = Some text ->
  JSON_parse text = SyntaxError ->
  let w := world s in
  loadState s =
  (Returns (default_state (clock w (ticks w)) (clock w (S (ticks w)))),
   {| this := this s;
      world := {| disk := disk w; dirs := dirs w; clock := clock w;
                  ticks := S (S (ticks w));
                  console :=
                    console w ++
                      [Warn ("⚠️ Could not load pipeline state: Unexpected token in JSON")] |} |}).
Proof.
  intros Hfile Hparse w. subst w. destruct s as [[bd sf ad st] w].
  proj_in Hfile.
  unfold loadState, parse_document. fs_unfold. monad_unfold. proj_simpl.
  unfold is_file. proj_simpl. rewrite Hfile. cbn [orb].
  proj_simpl. rewrite Hfile. proj_simpl. rewrite Hparse. proj_simpl.
  cbn [message]. reflexivity.
Qed.

(** C7.  When the state file exists and its text is not JSON,
    [loadState] returns: the parse error is caught, one warning with the
    reason goes to the console, and the result is the default document,
    stamped with the next two readings of the clock.  So the
    constructor does not end by the parse error: where it can make its
    directories (the base directory is an absolute path in normal form,
    the files and directories are held under such paths and no regular
    file stands at or above one of the six directories), it returns,
    and [this.state] is that default document, with empty stage maps,
    zero totals and empty archive lists. *)
Theorem constructor_survives_corrupt_state (s : Sys) (base text : string) :
  let file := state_file_path base in
  let w := world s in
  let fallback :=
    default_state (clock w (ticks w)) (clock w (S (ticks w))) in
  disk w !! file = Some text ->
  JSON_parse text = SyntaxError ->
  (stateFile (this s) = file ->
   run loadState s = Returns fallback /\
   exists reason,
     console (world (exec loadState s))
     = console w ++ [Warn ("⚠️ Could not load pipeline state: " +:+ reason)]) /\
  (normalised base = true ->
   tidy w = true ->
   forallb (free_path w) (layout base) = true ->
   let m := constructor base in
   run m s = Returns tt /\
   state_after m s = fallback /\
   (exists reason,
      console (world (exec m s))
      = console w ++ [Warn ("⚠️ Could not load pipeline state: " +:+ reason)]) /\
   stages (state_after m s) =
   {| get_call_ids := {| processed_date_ranges := [];
                         total_calls_extracted := 0; last_run := VNull |};
      download_audio := {| downloaded_files := []; failed_downloads := [];
                           total_downloaded := 0 |};
      transcribe := {| transcribed_files := []; failed_transcriptions := [];
                       total_transcribed := 0 |};
      upload_audio := {| uploaded_files := []; failed_uploads := [];
                         total_uploaded := 0 |};
      analyze := {| analyzed_calls := []; failed_analyses := [];
                    total_analyzed := 0 |} |} /\
   archived_files (state_after m s)
   = [("call_ids", []); ("audio", []); ("transcripts", [])]).
Proof.
  intros file w fallback Hfile Hparse. subst file w fallback. split.
  - intros Hstate. rewrite <- Hstate in Hfile.
    pose proof (loadState_corrupt s text Hfile Hparse) as E. cbn zeta in E.
    unfold run, exec. rewrite E. proj_simpl.
    split; [reflexivity|].
    exists "Unexpected token in JSON". reflexivity.
  - intros _ _ _ m. subst m.
    destruct (constructor_corrupt_state s base text Hfile Hparse) as [ds E].
    unfold run, state_after, exec. rewrite E. proj_simpl.
    split; [reflexivity|]. split; [reflexivity|].
    split; [exists "Unexpected token in JSON"; reflexivity|].
    split; reflexivity.
Qed.

Lemma constructor_survives_corrupt_state_witness :
  let s := exec (fs_writeFileSync "/data/logs/pipeline_state.json"
                   "{ not json") (exec (fs_mkdirSync "/data/logs") blank) in
  run (constructor "/data") s = Returns tt /\
  state_after (constructor "/data") s
  = default_state "2025-01-01T00:00:0.000Z" "2025-01-01T00:00:1.000Z".
Proof.
  pose proof (constructor_survives_corrupt_state
                (exec (fs_writeFileSync "/data/logs/pipeline_state.json"
                         "{ not json") (exec (fs_mkdirSync "/data/logs") blank))
                "/data" "{ not json" eq_refl eq_refl) as [_ H].
  destruct H as (H1 & H2 & _); [vm_compute; reflexivity ..|].
  split; [exact H1|exact H2].
Defined.
